(** * Staking operations of the Coinbase SDK: a shallow embedding

    The development follows the JavaScript sources
    - [coinbase/asset.js]               (atomic-unit conversion),
    - [coinbase/staking_operation.js]   (the state container, its reload and
                                         wait primitives, the option builders),
    - [coinbase/address.js]             (the balance gate),
    - [coinbase/address/external_address.js],
      [coinbase/address/wallet_address.js] (the request builders).

    Asynchronous calls are modelled by explicit state passing: a function that
    awaits the backend takes the backend's behaviour as an argument and runs
    in a state that holds the option objects, the log of the requests sent so
    far and the clock; it returns the new state together with either the
    thrown exception or the returned value.  Loops that need not end take
    fuel. *)

From Stdlib Require Import ZArith QArith Qround Lia.
From Stdlib Require Import Ascii String DecimalString DecimalPos DecimalZ.
From Stdlib Require Import Sorted.
From stdpp Require Import gmap strings list.

Close Scope Q_scope.
Open Scope Z_scope.

(** ** Exceptions and results *)

(** The exceptions the modelled code throws or propagates.  [JsError] is a
    plain [new Error(message)]; [APIError] stands for any failure of a backend
    request, which the code never catches. *)
Inductive Exn : Type :=
  | JsError (message : string)
  | ArgumentError (message : string)
  | SyntaxError (message : string)
  | APIError (message : string).

Definition Result (A : Type) : Type := Exn + A.

Definition throw {A : Type} (e : Exn) : Result A := inl e.
Definition ret {A : Type} (x : A) : Result A := inr x.

Definition is_thrown {A : Type} (r : Result A) : bool :=
  match r with inl _ => true | inr _ => false end.

(** ** decimal.js

    The sources compute on [Decimal] values of the decimal.js package, which is
    a dependency and not part of the repository.  A [Decimal] is a finite
    decimal number [coef * 10 ^ expn].  The package is used with its default
    configuration: every arithmetic operation ([times], [dividedBy], [pow])
    rounds its exact result to [precision = 20] significant digits with
    rounding mode [ROUND_HALF_UP]; the constructor and the comparisons are
    exact. *)
Module Decimal.

Record t : Type := mk { coef : Z; expn : Z }.

Definition precision : Z := 20.

(** Number of decimal digits of a non-negative integer ([0] has none). *)
Fixpoint ndigits_fuel (fuel : nat) (n : Z) : Z :=
  match fuel with
  | O => 0
  | S fuel' => if n <? 1 then 0 else 1 + ndigits_fuel fuel' (n / 10)
  end.

Definition ndigits (n : Z) : Z :=
  ndigits_fuel (S (Z.to_nat (Z.log2 n))) n.

(** [finalise]: round to [precision] significant digits, half away from
    zero. *)
Definition finalise (d : t) : t :=
  let k := ndigits (Z.abs (coef d)) - precision in
  if k <=? 0 then d
  else
    mk (Z.sgn (coef d) * ((Z.abs (coef d) + 5 * 10 ^ (k - 1)) / 10 ^ k))
       (expn d + k).

(** [new Decimal(n.toString())] for an integer (a JS bigint). *)
Definition of_Z (n : Z) : t := mk n 0.

(** [new Decimal(10).pow(n)] for an integer [n]: one significant digit. *)
Definition pow10 (n : Z) : t := finalise (mk 1 n).

Definition times (x y : t) : t :=
  finalise (mk (coef x * coef y) (expn x + expn y)).

(** [x.dividedBy(y)] for a non-zero [y].  The quotient is computed with
    one digit more than [precision] and then rounded; with
    [ROUND_HALF_UP] the digits after that one do not matter.  (For
    [y = 0] decimal.js answers [Infinity] or [NaN], which are outside
    this model; the sources only divide by powers of ten.) *)
Definition dividedBy (x y : t) : t :=
  let s := Z.max 0 (precision + 1 + ndigits (Z.abs (coef y))
                    - ndigits (Z.abs (coef x))) in
  finalise
    (mk (Z.sgn (coef x) * Z.sgn (coef y)
         * (Z.abs (coef x) * 10 ^ s / Z.abs (coef y)))
        (expn x - expn y - s)).

(** Exact comparison: both coefficients are brought to the smaller
    exponent. *)
Definition align (x y : t) : Z * Z :=
  let m := Z.min (expn x) (expn y) in
  (coef x * 10 ^ (expn x - m), coef y * 10 ^ (expn y - m)).

Definition equals (x y : t) : bool :=
  let '(a, b) := align x y in a =? b.

Definition lessThan (x y : t) : bool :=
  let '(a, b) := align x y in a <? b.

Definition lessThanOrEqualTo (x y : t) : bool :=
  let '(a, b) := align x y in a <=? b.

(** A decimal has at most [precision] significant digits when its
    coefficient is a number below [10 ^ precision] followed by zeros. *)
Definition fits_precision (d : t) : Prop :=
  exists m j, 0 <= j /\ Z.abs m < 10 ^ precision /\ coef d = m * 10 ^ j.

(** The decimal string of an integer, as [BigInt.prototype.toString] and
    [Decimal.prototype.toFixed] print it. *)
Definition string_of_Z (n : Z) : string :=
  NilZero.string_of_int (Z.to_int n).

(** Fractional digits: [r] written on [width] digits, trailing zeros
    removed. *)
Fixpoint frac_digits (width : nat) (r : Z) : string :=
  match width with
  | O => EmptyString
  | S w =>
      let p := 10 ^ Z.of_nat w in
      if r =? 0 then EmptyString
      else String.append (string_of_Z (r / p)) (frac_digits w (r mod p))
  end.

(** [d.toFixed()] without argument: plain notation, no rounding. *)
Definition toFixed (d : t) : string :=
  if 0 <=? expn d then string_of_Z (coef d * 10 ^ expn d)
  else
    let p := 10 ^ (- expn d) in
    let q := Z.abs (coef d) / p in
    let r := Z.abs (coef d) mod p in
    let sign := if coef d <? 0 then "-"%string else EmptyString in
    if r =? 0 then String.append sign (string_of_Z q)
    else String.append sign
           (String.append (string_of_Z q)
              (String "."%char (frac_digits (Z.to_nat (- expn d)) r))).

End Decimal.

(** [BigInt(s)] on a string: the integer it denotes, or a [SyntaxError] when
    the string is not an integer literal (for instance when it has a decimal
    point). *)
Definition BigInt (s : string) : Result Z :=
  match NilZero.int_of_string s with
  | Some i => ret (Z.of_int i)
  | None => throw (SyntaxError (String.append "Cannot convert " (String.append s " to a BigInt")))
  end.

(** ** Assets ([coinbase/asset.js], [coinbase/coinbase.js]) *)

Module Coinbase.

(** [Coinbase.assets] *)
Definition Eth : string := "eth".
Definition Wei : string := "wei".
Definition Gwei : string := "gwei".

Definition replace_char (from to : ascii) (s : string) : string :=
  string_rec (fun _ => string) EmptyString
    (fun c _ r => String (if Ascii.eqb c from then to else c) r) s.

(** [network.replace(/_/g, "-")] *)
Definition normalizeNetwork (network : string) : string :=
  replace_char "_" "-" network.

(** [asset.replace(/-/g, "_")] *)
Definition toAssetId (asset : string) : string :=
  replace_char "-" "_" asset.

End Coinbase.

(** [String.prototype.toLowerCase] on a string of ASCII characters: the
    letters A to Z are lowered and nothing else changes.  Beyond ASCII the
    conversion follows the case tables of Unicode, which belong to the
    platform and are outside this development: what is stated about
    [Asset.fromModel] is stated for identifiers made of ASCII characters. *)
Definition lower_char (c : ascii) : ascii :=
  let n := nat_of_ascii c in
  if ((65 <=? n) && (n <=? 90))%nat then ascii_of_nat (n + 32) else c.

Definition toLowerCase (s : string) : string :=
  string_rec (fun _ => string) EmptyString
    (fun c _ r => String (lower_char c) r) s.



(** ** Retrying failed requests ([coinbase/coinbase.js])

    The constructor of [Coinbase] hands axios-retry the function
    [[
      retryCondition: (error) =>
        error.config?.method?.toUpperCase() === "GET" &&
        (error.response?.status || 0) in [500, 502, 503, 504]
    ]] *)



(** The asset record of the API ([asset_id] may be missing). *)
Record AssetModel : Type := {
  am_network_id : string;
  am_asset_id : option string;
  am_contract_address : option string;
  am_decimals : Z
}.

(** Modelled from the spec: [GWEI_DECIMALS] of [coinbase/constants.js], which
    is missing; gwei is the sub-unit denomination of ether that counts
    [10 ^ 9] atomic units. *)
Definition GWEI_DECIMALS : Z := 9.

Module Asset.

Record t : Type := mk {
  networkId : string;
  assetId : string;
  contractAddress : option string;
  decimals : Z
}.

(** [Asset.fromModel(model, assetId)].  An empty [assetId] is falsy. *)
Definition fromModel (model : option AssetModel) (assetId : option string)
  : Result t :=
  match model with
  | None => throw (JsError "Invalid asset model")
  | Some model =>
      let given := match assetId with
                   | Some a => if String.eqb a "" then None else Some a
                   | None => None
                   end in
      let held := match am_asset_id model with
                  | Some a => if String.eqb a "" then None else Some a
                  | None => None
                  end in
      let decimals : Result Z :=
        match given, held with
        | Some a, Some ma =>
            let normalizedModelAssetId := toLowerCase ma in
            let normalizedAssetId := toLowerCase a in
            if negb (String.eqb (Coinbase.toAssetId normalizedModelAssetId)
                                (Coinbase.toAssetId normalizedAssetId))
            then
              if String.eqb normalizedAssetId "gwei" then ret GWEI_DECIMALS
              else if String.eqb normalizedAssetId "wei" then ret 0
              else if String.eqb normalizedAssetId "eth" then ret (am_decimals model)
              else throw (ArgumentError (String.append "Invalid asset ID: " a))
            else ret (am_decimals model)
        | _, _ => ret (am_decimals model)
        end in
      match decimals with
      | inl e => inl e
      | inr decimals =>
          ret (mk (am_network_id model)
                  (match assetId with
                   | Some a => a
                   | None => default EmptyString (am_asset_id model)
                   end)
                  (am_contract_address model)
                  decimals)
      end
  end.

(** [Asset.primaryDenomination(assetId)] *)
Definition primaryDenomination (assetId : string) : string :=
  if bool_decide (assetId ∈ [Coinbase.Gwei; Coinbase.Wei])
  then Coinbase.Eth else assetId.

(** [asset.toAtomicAmount(wholeAmount)] *)
Definition toAtomicAmount (asset : t) (wholeAmount : Decimal.t) : Result Z :=
  let atomicAmount :=
    Decimal.times wholeAmount (Decimal.pow10 (decimals asset)) in
  BigInt (Decimal.toFixed atomicAmount).

(** [asset.fromAtomicAmount(atomicAmount)] *)
Definition fromAtomicAmount (asset : t) (atomicAmount : Decimal.t) : Decimal.t :=
  Decimal.dividedBy atomicAmount (Decimal.pow10 (decimals asset)).

End Asset.

(** Ether with its 18 decimals, as the asset lookup returns it. *)
Definition eth18 : Asset.t := Asset.mk "ethereum-mainnet" "eth" None 18.

(** ** Enumerations of the API client and of [coinbase/types]

    The values below are the string constants the compiled code compares
    with. *)

(** Modelled from the spec: the staking modes of [StakeOptionsMode]
    ([coinbase/types.js] is missing); the spec names the mode [NATIVE]. *)
Inductive StakeOptionsMode : Type := DEFAULT | PARTIAL | NATIVE.

#[global] Instance StakeOptionsMode_eq_dec : EqDecision StakeOptionsMode.
Proof. solve_decision. Defined.

Definition mode_string (mode : StakeOptionsMode) : string :=
  match mode with
  | DEFAULT => "default"
  | PARTIAL => "partial"
  | NATIVE => "native"
  end.

(** Modelled from the spec: the two terminal values of
    [StakingOperationStatusEnum] ([client/api] is missing); every other status
    string is non-terminal. *)
Module StakingOperationStatusEnum.
Definition Initialized : string := "initialized".
Definition Complete : string := "complete".
Definition Failed : string := "failed".
Definition Unspecified : string := "unspecified".
End StakingOperationStatusEnum.

(** ** API records *)

Record TransactionModel : Type := {
  tm_network_id : string;
  tm_from_address_id : string;
  unsigned_payload : string;
  signed_payload : option string;
  tm_status : string
}.

Module StakingOperationModel.
Record t : Type := mk {
  id : string;
  network_id : string;
  address_id : string;
  wallet_id : option string;
  status : string;
  transactions : list TransactionModel;
  metadata : list string
}.
End StakingOperationModel.

Record BalanceModel : Type := {
  bm_amount : string;
  bm_asset : AssetModel
}.

Record StakingContextModel : Type := {
  stakeable_balance : BalanceModel;
  unstakeable_balance : BalanceModel;
  pending_claimable_balance : BalanceModel;
  claimable_balance : BalanceModel
}.

(** Option objects are string-keyed maps of strings. *)
Abbreviation Options := (gmap string string).

(** A request as it is serialised when it is sent. *)
Record StakingContextRequest : Type := {
  ctx_network_id : string;
  ctx_asset_id : string;
  ctx_address_id : string;
  ctx_options : Options
}.

Record StakingRequest : Type := {
  req_network_id : string;
  req_asset_id : string;
  req_address_id : string;
  req_action : string;
  req_options : Options
}.

Inductive ApiCall : Type :=
  | GetAsset (networkId assetId : string)
  | GetStakingContext (request : StakingContextRequest)
  | BuildStakingOperation (request : StakingRequest)
  | CreateStakingOperation (walletId addressId : string) (request : StakingRequest)
  | BroadcastStakingOperation (walletId addressId stakingOperationId : string)
      (signedPayload : string) (transactionIndex : nat)
  | GetExternalStakingOperation (networkId addressId stakingOperationId : string)
  | GetStakingOperation (walletId addressId stakingOperationId : string).

Definition is_build_or_create (c : ApiCall) : bool :=
  match c with
  | BuildStakingOperation _ | CreateStakingOperation _ _ _ => true
  | _ => false
  end.

(** The backend as the client sees it at one moment: what each request is
    answered with. *)
Record Backend : Type := {
  getAsset : string -> string -> Result (option AssetModel);
  getStakingContext : StakingContextRequest -> Result StakingContextModel;
  buildStakingOperation : StakingRequest -> Result StakingOperationModel.t;
  createStakingOperation :
    string -> string -> StakingRequest -> Result StakingOperationModel.t;
  broadcastStakingOperation :
    string -> string -> string -> string -> nat -> Result StakingOperationModel.t;
  getExternalStakingOperation :
    string -> string -> string -> Result StakingOperationModel.t;
  getStakingOperation :
    string -> string -> string -> Result StakingOperationModel.t
}.

(** ** The client state: object store, request log, clock

    Option objects live in a store and are passed by reference, so that a
    function that assigns to the caller's object is told apart from one that
    copies it first.  [log] records the requests sent, oldest first; [now] is
    what [Date.now()] returns, in milliseconds. *)
Abbreviation loc := nat.

Record State : Type := {
  heap : gmap loc Options;
  log : list ApiCall;
  now : Z
}.

Definition M (A : Type) : Type := State -> State * Result A.

Definition retM {A : Type} (x : A) : M A := fun st => (st, inr x).
Definition throwM {A : Type} (e : Exn) : M A := fun st => (st, inl e).
Definition bindM {A B : Type} (m : M A) (k : A -> M B) : M B :=
  fun st =>
    match m st with
    | (st', inl e) => (st', inl e)
    | (st', inr x) => k x st'
    end.

Notation "'do' x <- m ; k" := (bindM m (fun x => k))
  (at level 10, x pattern, m at level 100, k at level 200).
Notation "m ;; k" := (bindM m (fun _ => k))
  (at level 100, k at level 200, right associativity).

Definition liftR {A : Type} (r : Result A) : M A := fun st => (st, r).

(** Sending a request: it is logged and answered. *)
Definition request {A : Type} (c : ApiCall) (answer : Result A) : M A :=
  fun st => ({| heap := heap st; log := log st ++ [c]; now := now st |}, answer).

(** [{ ...o }] and [{}]: a new object. *)
Definition alloc (o : Options) : M loc :=
  fun st =>
    let l := fresh (dom (heap st)) in
    ({| heap := <[l := o]> (heap st); log := log st; now := now st |}, inr l).

(** Reading an object.  References are never dangling in JavaScript; a
    reference outside the store reads as the empty object. *)
Definition deref (l : loc) : M Options :=
  fun st => (st, inr (default ∅ (heap st !! l))).

(** [l[key] = value] *)
Definition assign (l : loc) (key value : string) : M unit :=
  fun st =>
    ({| heap := <[l := <[key := value]> (default ∅ (heap st !! l))]> (heap st);
        log := log st; now := now st |}, inr tt).

(** [Date.now()] *)
Definition Date_now : M Z := fun st => (st, inr (now st)).

(** Time passing while a promise is awaited. *)
Definition elapse (ms : Z) : M unit :=
  fun st => ({| heap := heap st; log := log st; now := now st + ms |}, inr tt).

(** A polling round as the client experiences it: the backend's behaviour
    during the round, the milliseconds its requests take, and by how much the
    timer that ends the round's pause fires late. *)
Record Round : Type := {
  backend : Backend;
  latency : Z;
  oversleep : Z
}.

(** [await] of a backend request during round [r]. *)
Definition await {A : Type} (r : Round) (m : M A) : M A :=
  do x <- m; elapse (latency r) ;; retM x.

(** Modelled from the spec: [delay(seconds)] of [coinbase/utils.js] (missing),
    "sleeping [intervalSeconds] between iterations": the timer is set to
    [seconds * 1000] milliseconds and fires no earlier. *)
Definition delay (r : Round) (seconds : Q) : M unit :=
  elapse (Z.max 0 (Qfloor (seconds * 1000)%Q) + oversleep r).

(** [a < b] on JavaScript numbers that are rationals. *)
Definition Qltb (a b : Q) : bool := negb (Qle_bool b a).

(** ** Transactions

    The [Transaction] class lives in [coinbase/transaction.js], which is
    missing; what the staking code uses of it is taken from the spec. *)
Module Transaction.

(** Modelled from the spec: a transaction of [coinbase/transaction.js]
    (missing) wraps its API record. *)
Record t : Type := mk { model : TransactionModel }.

(** Modelled from the spec: [getUnsignedPayload()] of the missing
    [Transaction] class; the unsigned payload is the transaction's
    identity. *)
Definition getUnsignedPayload (tx : t) : string := unsigned_payload (model tx).

(** Modelled from the spec: [getSignedPayload()] of the missing
    [Transaction] class, the optional signed payload. *)
Definition getSignedPayload (tx : t) : option string := signed_payload (model tx).

(** Modelled from the spec: [isSigned()] of the missing [Transaction]
    class. *)
Definition isSigned (tx : t) : bool :=
  match getSignedPayload tx with
  | Some s => negb (String.eqb s "")
  | None => false
  end.

(** Modelled from the spec: the signing capability supplied by the caller;
    it signs a payload or fails. *)
Definition Key : Type := string -> Result string.

(** Modelled from the spec: [sign(key)] of the missing [Transaction]
    class; signing stores the signed payload and leaves the unsigned
    payload as it is. *)
Definition sign (key : Key) (tx : t) : Result t :=
  match key (getUnsignedPayload tx) with
  | inl e => throw e
  | inr signedPayload =>
      ret (mk {| tm_network_id := tm_network_id (model tx);
                  tm_from_address_id := tm_from_address_id (model tx);
                  unsigned_payload := unsigned_payload (model tx);
                  signed_payload := Some signedPayload;
                  tm_status := tm_status (model tx) |})
  end.

End Transaction.

(** ** Staking operations ([coinbase/staking_operation.js]) *)

Definition UnstakeTypeExecution : string := "execution".
Definition UnstakeTypeConsensus : string := "consensus".

Definition HasUnstakeTypeOption (options : Options) : bool :=
  bool_decide (options !! "unstake_type"%string = Some UnstakeTypeConsensus)
  || bool_decide (options !! "unstake_type"%string = Some UnstakeTypeExecution).

Definition IsDedicatedEthUnstakeV2Operation
    (assetId action : string) (mode : StakeOptionsMode) (options : Options) : bool :=
  String.eqb assetId Coinbase.Eth
  && String.eqb action "unstake"
  && bool_decide (mode = NATIVE)
  && HasUnstakeTypeOption options.

Module StakingOperation.

(** The object: the current snapshot and the local transaction list. *)
Record t : Type := mk {
  model : StakingOperationModel.t;
  transactions : list Transaction.t
}.

Definition getID (op : t) : string := StakingOperationModel.id (model op).
Definition getStatus (op : t) : string := StakingOperationModel.status (model op).
Definition getWalletID (op : t) : option string :=
  StakingOperationModel.wallet_id (model op).
Definition getAddressID (op : t) : string :=
  StakingOperationModel.address_id (model op).
Definition getNetworkID (op : t) : string :=
  StakingOperationModel.network_id (model op).
Definition getTransactions (op : t) : list Transaction.t := transactions op.

Definition isFailedState (op : t) : bool :=
  String.eqb (getStatus op) StakingOperationStatusEnum.Failed.

Definition isCompleteState (op : t) : bool :=
  String.eqb (getStatus op) StakingOperationStatusEnum.Complete.

Definition isTerminalState (op : t) : bool :=
  isCompleteState op || isFailedState op.

(** [loadTransactionsFromModel]: the set of local unsigned payloads is
    computed once, then every snapshot transaction whose payload is not in
    that set is pushed.  A missing list and an empty one are skipped
    alike. *)
Definition loadTransactionsFromModel (op : t) : t :=
  if (0 <? length (StakingOperationModel.transactions (model op)))%nat then
    let existingUnsignedPayloads : gset string :=
      list_to_set (map Transaction.getUnsignedPayload (transactions op)) in
    mk (model op)
       (foldl
          (fun txs transaction =>
             if negb (bool_decide (unsigned_payload transaction
                                   ∈ existingUnsignedPayloads))
             then txs ++ [Transaction.mk transaction]
             else txs)
          (transactions op)
          (StakingOperationModel.transactions (model op)))
  else op.

(** [new StakingOperation(model)] *)
Definition new (model : option StakingOperationModel.t) : Result t :=
  match model with
  | None => throw (JsError "Invalid model type")
  | Some model => ret (loadTransactionsFromModel (mk model []))
  end.

(** [StakingOperation.fetch(networkId, addressId, id, walletId)] *)
Definition fetch (b : Backend) (networkId addressId id : string)
    (walletId : option string) : M t :=
  match walletId with
  | None =>
      do result <- request (GetExternalStakingOperation networkId addressId id)
                           (getExternalStakingOperation b networkId addressId id);
      liftR (new (Some result))
  | Some walletId =>
      if negb (String.eqb walletId "") then
        do result <- request (GetStakingOperation walletId addressId id)
                             (getStakingOperation b walletId addressId id);
        liftR (new (Some result))
      else throwM (JsError "Invalid wallet ID")
  end.

(** [reload()]; the object is passed in and the updated object returned.
    When the request fails the exception leaves the object as it was. *)
Definition reload (b : Backend) (op : t) : M t :=
  do op <- match getWalletID op with
           | None =>
               do result <- request
                   (GetExternalStakingOperation (getNetworkID op) (getAddressID op) (getID op))
                   (getExternalStakingOperation b (getNetworkID op) (getAddressID op) (getID op));
               retM (mk result (transactions op))
           | Some walletId =>
               if negb (String.eqb walletId "") then
                 do result <- request
                     (GetStakingOperation walletId (getAddressID op) (getID op))
                     (getStakingOperation b walletId (getAddressID op) (getID op));
                 retM (mk result (transactions op))
               else retM op
           end;
  retM (loadTransactionsFromModel op).

(** The loop of [wait]; [None] when the fuel runs out before the loop
    ends.  [i] counts the rounds. *)
Fixpoint wait_loop (fuel : nat) (rounds : nat -> Round) (i : nat)
    (startTime : Z) (intervalSeconds timeoutSeconds : Q) (op : t)
  : M (option StakingOperationModel.t) :=
  match fuel with
  | O => retM None
  | S fuel' =>
      do t0 <- Date_now;
      if Qltb (inject_Z (t0 - startTime)) (timeoutSeconds * 1000)%Q then
        do op <- await (rounds i) (reload (backend (rounds i)) op);
        if isTerminalState op then retM (Some (model op))
        else
          do t1 <- Date_now;
          if Qltb (timeoutSeconds * 1000)%Q (inject_Z (t1 - startTime)) then
            throwM (JsError "Staking operation timed out")
          else
            delay (rounds i) intervalSeconds ;;
            wait_loop fuel' rounds (S i) startTime intervalSeconds timeoutSeconds op
      else throwM (JsError "Staking operation timed out")
  end.

(** [wait({ intervalSeconds, timeoutSeconds })]; the defaults are 5 and
    3600. *)
Definition wait (fuel : nat) (rounds : nat -> Round)
    (intervalSeconds timeoutSeconds : Q) (op : t)
  : M (option StakingOperationModel.t) :=
  if bool_decide (getWalletID op <> None) then
    throwM (JsError "cannot wait on staking operation for wallet address.")
  else
    do startTime <- Date_now;
    wait_loop fuel rounds 0 startTime intervalSeconds timeoutSeconds op.

(** [sign(key)]: every transaction not yet signed is signed, in list
    order; the first failure stops the loop.  The transactions signed
    before the failure stay signed, so the object after the call is
    returned together with the exception, if any.  In the program a
    transaction that was loaded from the current snapshot shares its record
    with it, so that its signature shows in that record too; the snapshot
    is private and its records are read again only for their unsigned
    payloads, so the model keeps them as they were fetched and tracks the
    local list. *)
Fixpoint sign_each (key : Transaction.Key) (txs : list Transaction.t)
  : list Transaction.t * option Exn :=
  match txs with
  | [] => ([], None)
  | tx :: rest =>
      if negb (Transaction.isSigned tx) then
        match Transaction.sign key tx with
        | inl e => (tx :: rest, Some e)
        | inr tx' => let '(rest', e) := sign_each key rest in (tx' :: rest', e)
        end
      else let '(rest', e) := sign_each key rest in (tx :: rest', e)
  end.

Definition sign (key : Transaction.Key) (op : t) : t * option Exn :=
  let '(txs, e) := sign_each key (transactions op) in (mk (model op) txs, e).

(** The states an object goes through: built by the constructor, then
    reloaded and signed any number of times. *)
Inductive reachable : t -> Prop :=
  | reachable_new model op :
      new (Some model) = inr op -> reachable op
  | reachable_reload b op st st' op' :
      reachable op -> reload b op st = (st', inr op') -> reachable op'
  | reachable_sign key op :
      reachable op -> reachable (fst (sign key op)).

End StakingOperation.

(** The properties of [source] written onto [target] by ordinary assignment,
    [target[key] = source[key]] for every own key of the source.  The name
    "__proto__" is special: on a target that has no own property of that
    name the assignment reaches the accessor of [Object.prototype], which
    ignores a string, and no property is made. *)
Definition assign_all (source target : Options) : Options :=
  (if decide (is_Some (target !! "__proto__"%string)) then source
   else delete "__proto__"%string source) ∪ target.

(** [Object.assign(target, ...sources)]: the own properties of each source
    are assigned to the target in turn, later sources overwriting. *)
Definition Object_assign (target : loc) (sources : list loc) : M loc :=
  fun st =>
    let merged :=
      foldl (fun acc source => assign_all (default ∅ (heap st !! source)) acc)
            (default ∅ (heap st !! target)) sources in
    ({| heap := <[target := merged]> (heap st); log := log st; now := now st |},
     inr target).

(** [keys.join(",")] *)
Definition join (sep : string) (keys : list string) : string :=
  String.concat sep keys.

Module ConsensusLayerExitOptionBuilder.

Record t : Type := mk { validatorPubKeys : list string }.

Definition new : t := mk [].

Definition addValidator (pubKey : string) (builder : t) : t :=
  if negb (bool_decide (pubKey ∈ validatorPubKeys builder))
  then mk (validatorPubKeys builder ++ [pubKey])
  else builder.

(** [build(options = {})]; the result is the reference of the new
    object. *)
Definition build (builder : t) (options : option loc) : M loc :=
  do options <- match options with
                | Some options => retM options
                | None => alloc ∅
                end;
  do consensusLayerExitOptions <-
    alloc (<["validator_pub_keys"%string := join "," (validatorPubKeys builder)]>
           (<["unstake_type"%string := UnstakeTypeConsensus]> ∅));
  do target <- alloc ∅;
  Object_assign target [options; consensusLayerExitOptions].

End ConsensusLayerExitOptionBuilder.

(** [Asset.fetch(networkId, assetId)] *)
Definition Asset_fetch (b : Backend) (networkId assetId : string) : M Asset.t :=
  do asset <- request
      (GetAsset (Coinbase.normalizeNetwork networkId) (Asset.primaryDenomination assetId))
      (getAsset b (Coinbase.normalizeNetwork networkId) (Asset.primaryDenomination assetId));
  liftR (Asset.fromModel asset (Some assetId)).

(** ** Plain objects read back in order

    [ExecutionLayerWithdrawalOptionsBuilder] keeps the amounts in a plain
    object used as a map from public keys, goes through it with [for ... in]
    and prints a second such object with [JSON.stringify].  Both go through
    the own properties of an object in the order JavaScript keeps them in:
    the names that are array indices first, by ascending index, then the
    other names in the order in which they were created. *)
Module Dict.

(** The properties in the order of their creation, each name once. *)
Definition t (V : Type) : Type := list (string * V).

Definition empty {V : Type} : t V := [].

(** [o[key] = value]: an existing property keeps its place. *)
Fixpoint set {V : Type} (key : string) (value : V) (o : t V) : t V :=
  match o with
  | [] => [(key, value)]
  | (k, v) :: o' =>
      if String.eqb k key then (k, value) :: o' else (k, v) :: set key value o'
  end.

(** [o[key]] *)
Fixpoint get {V : Type} (key : string) (o : t V) : option V :=
  match o with
  | [] => None
  | (k, v) :: o' => if String.eqb k key then Some v else get key o'
  end.

(** The array index a property name stands for, if any: the name is the
    decimal numeral, without sign or leading zero, of a number below
    [2 ^ 32 - 1]. *)
Definition array_index (key : string) : option Z :=
  match NilZero.uint_of_string key with
  | Some d =>
      let n := Z.of_uint d in
      if String.eqb (Decimal.string_of_Z n) key && (n <? 2 ^ 32 - 1)
      then Some n else None
  | None => None
  end.

Fixpoint insert_by_index {V : Type} (n : Z) (p : string * V)
    (l : list (Z * (string * V))) : list (Z * (string * V)) :=
  match l with
  | [] => [(n, p)]
  | (m, q) :: l' =>
      if n <=? m then (n, p) :: (m, q) :: l' else (m, q) :: insert_by_index n p l'
  end.

(** The properties in the order in which [for ... in], [Object.keys] and
    [JSON.stringify] visit them. *)
Definition entries {V : Type} (o : t V) : list (string * V) :=
  let indexed :=
    foldr (fun p l =>
             match array_index p.1 with
             | Some n => insert_by_index n p l
             | None => l
             end) [] o in
  let named := filter (fun p => array_index p.1 = None) o in
  indexed.*2 ++ named.

Definition keys {V : Type} (o : t V) : list string := (entries o).*1.

End Dict.

(** ** [JSON.stringify] of an object whose values are strings *)

Definition quotation_mark : ascii := ascii_of_nat 34.

Definition hex_digit (n : nat) : ascii :=
  if (n <? 10)%nat then ascii_of_nat (48 + n) else ascii_of_nat (87 + n).

(** One character of a quoted string: the quotation mark, the backslash and
    the control characters are escaped, the latter by their short form where
    JSON has one and by [\u00XX] with lower-case digits otherwise. *)
Definition quote_char (c : ascii) : string :=
  let n := nat_of_ascii c in
  if (n =? 8)%nat then "\b"
  else if (n =? 9)%nat then "\t"
  else if (n =? 10)%nat then "\n"
  else if (n =? 12)%nat then "\f"
  else if (n =? 13)%nat then "\r"
  else if (n =? 34)%nat then String "\" (String quotation_mark EmptyString)
  else if (n =? 92)%nat then "\\"
  else if (n <? 32)%nat then
    String.append "\u00"
      (String (hex_digit (n / 16)) (String (hex_digit (n mod 16)) EmptyString))
  else String c EmptyString.

(** [QuoteJSONString] *)
Definition QuoteJSONString (s : string) : string :=
  String quotation_mark
    (String.append
       (string_rec (fun _ => string) EmptyString
          (fun c _ r => String.append (quote_char c) r) s)
       (String quotation_mark EmptyString)).

Definition JSON_stringify (o : Dict.t string) : string :=
  String.append "{"
    (String.append
       (join ","
          (map (fun p => String.append (QuoteJSONString p.1)
                           (String.append ":" (QuoteJSONString p.2)))
               (Dict.entries o)))
       "}").

Module ExecutionLayerWithdrawalOptionsBuilder.

Record t : Type := mk {
  networkId : string;
  validatorAmounts : Dict.t Decimal.t
}.

(** [new ExecutionLayerWithdrawalOptionsBuilder(networkId)] *)
Definition new (networkId : string) : t := mk networkId Dict.empty.

(** [this.validatorAmounts[pubKey] = amount], for a public key that names a
    property: every string but "__proto__", under which an assignment
    reaches the prototype of the object and makes no property. *)
Definition addValidatorWithdrawal (pubKey : string) (amount : Decimal.t)
    (builder : t) : t :=
  mk (networkId builder) (Dict.set pubKey amount (validatorAmounts builder)).

(** The [for ... in] loop of [build]: the amounts are converted in the
    order of the properties and stored under the same names; the first
    conversion that throws ends the loop. *)
Fixpoint convert (asset : Asset.t) (amounts : list (string * Decimal.t))
    (validatorAmounts : Dict.t string) : Result (Dict.t string) :=
  match amounts with
  | [] => ret validatorAmounts
  | (pubKey, amount) :: rest =>
      match Asset.toAtomicAmount asset amount with
      | inl e => throw e
      | inr atomic =>
          convert asset rest
            (Dict.set pubKey (Decimal.string_of_Z atomic) validatorAmounts)
      end
  end.

(** [build(options = {})]; the result is the reference of the new
    object. *)
Definition build (b : Backend) (builder : t) (options : option loc) : M loc :=
  do options <- match options with
                | Some options => retM options
                | None => alloc ∅
                end;
  do asset <- Asset_fetch b (networkId builder) Coinbase.Eth;
  do validatorAmounts <-
    liftR (convert asset (Dict.entries (validatorAmounts builder)) Dict.empty);
  do executionLayerWithdrawalOptions <-
    alloc (<["validator_unstake_amounts"%string := JSON_stringify validatorAmounts]>
           (<["unstake_type"%string := UnstakeTypeExecution]> ∅));
  do target <- alloc ∅;
  Object_assign target [options; executionLayerWithdrawalOptions].

End ExecutionLayerWithdrawalOptionsBuilder.

(** ** The balance gate ([coinbase/address.js]) *)

Record StakingBalances : Type := {
  stakeableBalance_ : Decimal.t;
  unstakeableBalance_ : Decimal.t;
  pendingClaimableBalance_ : Decimal.t;
  claimableBalance_ : Decimal.t
}.

Module Address.

Record t : Type := mk { networkId : string; id : string }.

Definition getNetworkId (a : t) : string := networkId a.
Definition getId (a : t) : string := id a.

(** [copyOptions(options)]: [{ ...options }] *)
Definition copyOptions (options : loc) : M loc :=
  do o <- deref options; alloc o.

Section BalanceGate.

(** [Balance.fromModelAndAssetId(model, assetId).amount] of
    [coinbase/balance.js], taken as a parameter. *)
Variable Balance_amount : BalanceModel -> string -> Decimal.t.

(** How a template literal prints an amount. *)
Variable render : Decimal.t -> string.

(** [getStakingBalances]; the mode is one of the enumeration's strings,
    all of them truthy, so it is always attached. *)
Definition getStakingBalances (b : Backend) (a : t) (assetId : string)
    (mode : StakeOptionsMode) (options : loc) : M StakingBalances :=
  do newOptions <- copyOptions options;
  assign newOptions "mode" (mode_string mode) ;;
  do sent <- deref newOptions;
  let request_ := {| ctx_network_id := getNetworkId a;
                     ctx_asset_id := Asset.primaryDenomination assetId;
                     ctx_address_id := getId a;
                     ctx_options := sent |} in
  do response <- request (GetStakingContext request_) (getStakingContext b request_);
  retM {| stakeableBalance_ := Balance_amount (stakeable_balance response) assetId;
          unstakeableBalance_ := Balance_amount (unstakeable_balance response) assetId;
          pendingClaimableBalance_ :=
            Balance_amount (pending_claimable_balance response) assetId;
          claimableBalance_ := Balance_amount (claimable_balance response) assetId |}.

Definition stakeableBalance (b : Backend) (a : t) (asset_id : string)
    (mode : StakeOptionsMode) (options : loc) : M Decimal.t :=
  do balances <- getStakingBalances b a asset_id mode options;
  retM (stakeableBalance_ balances).

Definition unstakeableBalance (b : Backend) (a : t) (asset_id : string)
    (mode : StakeOptionsMode) (options : loc) : M Decimal.t :=
  do balances <- getStakingBalances b a asset_id mode options;
  retM (unstakeableBalance_ balances).

Definition claimableBalance (b : Backend) (a : t) (asset_id : string)
    (mode : StakeOptionsMode) (options : loc) : M Decimal.t :=
  do balances <- getStakingBalances b a asset_id mode options;
  retM (claimableBalance_ balances).

Definition pendingClaimableBalance (b : Backend) (a : t) (asset_id : string)
    (mode : StakeOptionsMode) (options : loc) : M Decimal.t :=
  do balances <- getStakingBalances b a asset_id mode options;
  retM (pendingClaimableBalance_ balances).

Definition insufficient (amount : Decimal.t) (what : string)
    (available : Decimal.t) : string :=
  String.append "Insufficient funds "
    (String.append (render amount)
       (String.append " requested to "
          (String.append what
             (String.append ", only "
                (String.append (render available) " available."))))).

Definition validateCanStake (b : Backend) (a : t) (amount : Decimal.t)
    (assetId : string) (mode : StakeOptionsMode) (options : loc) : M unit :=
  do stakeableBalance <- stakeableBalance b a assetId mode options;
  if Decimal.lessThan stakeableBalance amount
  then throwM (JsError (insufficient amount "stake" stakeableBalance))
  else retM tt.

Definition validateCanUnstake (b : Backend) (a : t) (amount : Decimal.t)
    (assetId : string) (mode : StakeOptionsMode) (options : loc) : M unit :=
  do unstakeableBalance <- unstakeableBalance b a assetId mode options;
  if Decimal.lessThan unstakeableBalance amount
  then throwM (JsError (insufficient amount "unstake" unstakeableBalance))
  else retM tt.

Definition validateCanClaimStake (b : Backend) (a : t) (amount : Decimal.t)
    (assetId : string) (mode : StakeOptionsMode) (options : loc) : M unit :=
  if String.eqb assetId "eth" && bool_decide (mode = NATIVE) then
    throwM (JsError "Claiming stake for ETH is not supported in native mode.")
  else
    do claimableBalance <- claimableBalance b a assetId mode options;
    if Decimal.lessThan claimableBalance amount
    then throwM (JsError (insufficient amount "claim stake" claimableBalance))
    else retM tt.

End BalanceGate.

End Address.

(** ** Request builders *)

Module ExternalAddress.

(** [buildStakingOperation(amount, assetId, action, mode, options)] *)
Definition buildStakingOperation (b : Backend) (a : Address.t)
    (amount : Decimal.t) (assetId action : string) (mode : StakeOptionsMode)
    (options : loc) : M StakingOperation.t :=
  do asset <- Asset_fetch b (Address.getNetworkId a) assetId;
  do newOptions <- Address.copyOptions options;
  assign newOptions "mode" (mode_string mode) ;;
  do current <- deref newOptions;
  (if negb (IsDedicatedEthUnstakeV2Operation assetId action mode current) then
     let stakingAmount := amount in
     if Decimal.lessThanOrEqualTo stakingAmount (Decimal.of_Z 0) then
       throwM (JsError "Amount required greater than zero.")
     else
       do atomic <- liftR (Asset.toAtomicAmount asset amount);
       assign newOptions "amount" (Decimal.string_of_Z atomic)
   else retM tt) ;;
  do sent <- deref newOptions;
  let request_ := {| req_network_id := Address.getNetworkId a;
                     req_asset_id := Asset.primaryDenomination assetId;
                     req_address_id := Address.getId a;
                     req_action := action;
                     req_options := sent |} in
  do response <- request (BuildStakingOperation request_)
                         (buildStakingOperation b request_);
  liftR (StakingOperation.new (Some response)).

Section Validated.

Variable Balance_amount : BalanceModel -> string -> Decimal.t.
Variable render : Decimal.t -> string.

Definition buildStakeOperation (b : Backend) (a : Address.t)
    (amount : Decimal.t) (assetId : string) (mode : StakeOptionsMode)
    (options : loc) : M StakingOperation.t :=
  Address.validateCanStake Balance_amount render b a amount assetId mode options ;;
  buildStakingOperation b a amount assetId "stake" mode options.

Definition buildUnstakeOperation (b : Backend) (a : Address.t)
    (amount : Decimal.t) (assetId : string) (mode : StakeOptionsMode)
    (options : loc) : M StakingOperation.t :=
  do current <- deref options;
  (if negb (IsDedicatedEthUnstakeV2Operation assetId "unstake" mode current)
   then Address.validateCanUnstake Balance_amount render b a amount assetId mode options
   else retM tt) ;;
  buildStakingOperation b a amount assetId "unstake" mode options.

Definition buildClaimStakeOperation (b : Backend) (a : Address.t)
    (amount : Decimal.t) (assetId : string) (mode : StakeOptionsMode)
    (options : loc) : M StakingOperation.t :=
  Address.validateCanClaimStake Balance_amount render b a amount assetId mode options ;;
  buildStakingOperation b a amount assetId "claim_stake" mode options.

End Validated.

End ExternalAddress.

Module WalletAddress.

Record t : Type := mk {
  address : Address.t;
  walletId : string;
  key : option Transaction.Key
}.

Definition getWalletId (w : t) : string := walletId w.
Definition getId (w : t) : string := Address.getId (address w).
Definition getNetworkId (w : t) : string := Address.getNetworkId (address w).

(** [createStakingOperationRequest]: the mode and the amount are assigned
    to the caller's own options object. *)
Definition createStakingOperationRequest (b : Backend) (w : t)
    (amount : Decimal.t) (assetId action : string) (mode : StakeOptionsMode)
    (options : loc) : M StakingOperation.t :=
  do asset <- Asset_fetch b (getNetworkId w) assetId;
  assign options "mode" (mode_string mode) ;;
  do current <- deref options;
  (if negb (IsDedicatedEthUnstakeV2Operation assetId action mode current) then
     do atomic <- liftR (Asset.toAtomicAmount asset amount);
     assign options "amount" (Decimal.string_of_Z atomic)
   else retM tt) ;;
  do sent <- deref options;
  let stakingOperationRequest :=
    {| req_network_id := getNetworkId w;
       req_asset_id := Asset.primaryDenomination assetId;
       req_address_id := getId w;
       req_action := action;
       req_options := sent |} in
  do response <- request
      (CreateStakingOperation (getWalletId w) (getId w) stakingOperationRequest)
      (createStakingOperation b (getWalletId w) (getId w) stakingOperationRequest);
  liftR (StakingOperation.new (Some response)).

Definition broadcastStakingOperationRequest (b : Backend) (w : t)
    (stakingOperationID signedPayload : string) (transactionIndex : nat)
  : M StakingOperation.t :=
  do response <- request
      (BroadcastStakingOperation (getWalletId w) (getId w) stakingOperationID
         signedPayload transactionIndex)
      (broadcastStakingOperation b (getWalletId w) (getId w) stakingOperationID
         signedPayload transactionIndex);
  liftR (StakingOperation.new (Some response)).

(** [s.slice(2)] *)
Definition slice2 (s : string) : string :=
  match s with
  | String _ (String _ rest) => rest
  | _ => EmptyString
  end.

(** The inner [for] loop of [createStakingOperation]: the operation is
    replaced by the answer of each broadcast, and the bound is read again
    from the current operation at every step. *)
Fixpoint sign_and_broadcast (fuel : nat) (r : Round) (w : t) (i : nat)
    (stakingOperation : StakingOperation.t) : M (option StakingOperation.t) :=
  match fuel with
  | O => retM None
  | S fuel' =>
      match StakingOperation.getTransactions stakingOperation !! i with
      | None => retM (Some stakingOperation)
      | Some transaction =>
          if negb (Transaction.isSigned transaction) then
            do signed <- liftR
                (match key w with
                 | Some k => Transaction.sign k transaction
                 | None => throw (JsError "Cannot sign without a key")
                 end);
            do stakingOperation <- await r
                (broadcastStakingOperationRequest (backend r) w
                   (StakingOperation.getID stakingOperation)
                   (slice2 (default EmptyString (Transaction.getSignedPayload signed)))
                   i);
            sign_and_broadcast fuel' r w (S i) stakingOperation
          else sign_and_broadcast fuel' r w (S i) stakingOperation
      end
  end.

Fixpoint create_loop (fuel : nat) (rounds : nat -> Round) (w : t) (i : nat)
    (startTime : Z) (timeoutSeconds intervalSeconds : Q)
    (stakingOperation : StakingOperation.t) : M (option StakingOperation.t) :=
  match fuel with
  | O => retM None
  | S fuel' =>
      do t0 <- Date_now;
      if Qltb (inject_Z (t0 - startTime)) (timeoutSeconds * 1000)%Q then
        do broadcast <- sign_and_broadcast fuel (rounds i) w 0 stakingOperation;
        match broadcast with
        | None => retM None
        | Some stakingOperation =>
            do stakingOperation <- await (rounds i)
                (StakingOperation.reload (backend (rounds i)) stakingOperation);
            if StakingOperation.isTerminalState stakingOperation
            then retM (Some stakingOperation)
            else
              delay (rounds i) intervalSeconds ;;
              create_loop fuel' rounds w (S i) startTime timeoutSeconds
                intervalSeconds stakingOperation
        end
      else throwM (JsError "Staking Operation timed out")
  end.

(** [createStakingOperation(amount, assetId, action, mode, options,
    timeoutSeconds, intervalSeconds)] *)
Definition createStakingOperation (fuel : nat) (rounds : nat -> Round) (w : t)
    (amount : Decimal.t) (assetId action : string) (mode : StakeOptionsMode)
    (options : loc) (timeoutSeconds intervalSeconds : Q)
  : M (option StakingOperation.t) :=
  do current <- deref options;
  (if negb (IsDedicatedEthUnstakeV2Operation assetId action mode current) then
     if Decimal.lessThanOrEqualTo amount (Decimal.of_Z 0)
     then throwM (JsError "Amount required greater than zero.")
     else retM tt
   else retM tt) ;;
  do stakingOperation <- await (rounds 0%nat)
      (createStakingOperationRequest (backend (rounds 0%nat)) w amount assetId
         action mode options);
  do startTime <- Date_now;
  create_loop fuel rounds w 0 startTime timeoutSeconds intervalSeconds
    stakingOperation.

Section Validated.

Variable Balance_amount : BalanceModel -> string -> Decimal.t.
Variable render : Decimal.t -> string.

(** [createStake]; the validation inherited from [Address] is awaited
    during the first round. *)
Definition createStake (fuel : nat) (rounds : nat -> Round) (w : t)
    (amount : Decimal.t) (assetId : string) (mode : StakeOptionsMode)
    (options : loc) (timeoutSeconds intervalSeconds : Q)
  : M (option StakingOperation.t) :=
  await (rounds 0%nat)
    (Address.validateCanStake Balance_amount render (backend (rounds 0%nat))
       (address w) amount assetId mode options) ;;
  createStakingOperation fuel rounds w amount assetId "stake" mode options
    timeoutSeconds intervalSeconds.

Definition createUnstake (fuel : nat) (rounds : nat -> Round) (w : t)
    (amount : Decimal.t) (assetId : string) (mode : StakeOptionsMode)
    (options : loc) (timeoutSeconds intervalSeconds : Q)
  : M (option StakingOperation.t) :=
  do current <- deref options;
  (if negb (IsDedicatedEthUnstakeV2Operation assetId "unstake" mode current)
   then await (rounds 0%nat)
          (Address.validateCanUnstake Balance_amount render
             (backend (rounds 0%nat)) (address w) amount assetId mode options)
   else retM tt) ;;
  createStakingOperation fuel rounds w amount assetId "unstake" mode options
    timeoutSeconds intervalSeconds.

Definition createClaimStake (fuel : nat) (rounds : nat -> Round) (w : t)
    (amount : Decimal.t) (assetId : string) (mode : StakeOptionsMode)
    (options : loc) (timeoutSeconds intervalSeconds : Q)
  : M (option StakingOperation.t) :=
  await (rounds 0%nat)
    (Address.validateCanClaimStake Balance_amount render
       (backend (rounds 0%nat)) (address w) amount assetId mode options) ;;
  createStakingOperation fuel rounds w amount assetId "claim_stake" mode
    options timeoutSeconds intervalSeconds.

End Validated.

End WalletAddress.

(** ** Vocabulary of the statements *)

(** The unsigned payloads of the local list and of a snapshot, in order. *)
Definition keys (txs : list Transaction.t) : list string :=
  map Transaction.getUnsignedPayload txs.

Definition payloads (snapshot : StakingOperationModel.t) : list string :=
  map unsigned_payload (StakingOperationModel.transactions snapshot).

(** The payloads already held locally, as the set that
    [loadTransactionsFromModel] builds. *)
Definition held (txs : list Transaction.t) : gset string :=
  list_to_set (keys txs).

(** The object invariant: every payload of the stored snapshot is held
    locally. *)
Definition loaded (op : StakingOperation.t) : Prop :=
  payloads (StakingOperation.model op) ⊆ keys (StakingOperation.transactions op).

(** What the request of [reload] is answered with; [None] when [reload]
    sends no request. *)
Definition fetched (b : Backend) (op : StakingOperation.t)
  : option (Result StakingOperationModel.t) :=
  match StakingOperation.getWalletID op with
  | None =>
      Some (getExternalStakingOperation b (StakingOperation.getNetworkID op)
              (StakingOperation.getAddressID op) (StakingOperation.getID op))
  | Some walletId =>
      if negb (String.eqb walletId "")
      then Some (getStakingOperation b walletId
                   (StakingOperation.getAddressID op) (StakingOperation.getID op))
      else None
  end.

(** The object after one call of [reload], whether the call returned or
    threw. *)
Definition after_reload (b : Backend) (op : StakingOperation.t) (st : State)
  : State * StakingOperation.t :=
  match StakingOperation.reload b op st with
  | (st', inr op') => (st', op')
  | (st', inl _) => (st', op)
  end.

(** A sequence of [reload] calls, the backend being [b] during the call
    that is paired with [b]. *)
Fixpoint reloads (bs : list Backend) (op : StakingOperation.t) (st : State)
  : State * StakingOperation.t :=
  match bs with
  | [] => (st, op)
  | b :: bs' => let '(st', op') := after_reload b op st in reloads bs' op' st'
  end.

(** The snapshots fetched by that sequence, in order. *)
Fixpoint snapshots (bs : list Backend) (op : StakingOperation.t) (st : State)
  : list StakingOperationModel.t :=
  match bs with
  | [] => []
  | b :: bs' =>
      match fetched b op with
      | Some (inr snapshot) => [snapshot]
      | _ => []
      end ++ let '(st', op') := after_reload b op st in snapshots bs' op' st'
  end.

(** Every snapshot fetched by the sequence contains the payloads of the
    local list as it is when the snapshot arrives. *)
Fixpoint supersets (bs : list Backend) (op : StakingOperation.t) (st : State)
  : Prop :=
  match bs with
  | [] => True
  | b :: bs' =>
      match fetched b op with
      | Some (inr snapshot) =>
          keys (StakingOperation.transactions op) ⊆ payloads snapshot
      | _ => True
      end
      /\ let '(st', op') := after_reload b op st in supersets bs' op' st'
  end.

(** No snapshot fetched by the sequence repeats an unsigned payload. *)
Definition distinct_snapshots (bs : list Backend) (op : StakingOperation.t)
    (st : State) : Prop :=
  Forall (fun snapshot => NoDup (payloads snapshot)) (snapshots bs op st).

(** The elements of [l] not in [seen], each at its first occurrence. *)
Fixpoint first_seen (seen : gset string) (l : list string) : list string :=
  match l with
  | [] => []
  | x :: l' =>
      if bool_decide (x ∈ seen) then first_seen seen l'
      else x :: first_seen ({[x]} ∪ seen) l'
  end.

(** ** Concrete values used in examples *)

Definition unsigned_transaction (payload : string) : TransactionModel :=
  {| tm_network_id := "ethereum-mainnet";
     tm_from_address_id := "0xf00d";
     unsigned_payload := payload;
     signed_payload := None;
     tm_status := "pending" |}.

Definition snapshot_of (walletId : option string) (status_ : string)
    (payloads_ : list string) : StakingOperationModel.t :=
  StakingOperationModel.mk "op-1" "ethereum-mainnet" "0xf00d" walletId status_
    (unsigned_transaction <$> payloads_) [].

Definition not_mocked {A : Type} : Result A := throw (APIError "not mocked").

(** A backend that answers every lookup of a staking operation with the
    given snapshot, resolves every asset to the given record and reports the
    given staking context. *)
Definition answering (snapshot : StakingOperationModel.t) : Backend :=
  {| getAsset := fun _ _ =>
       ret (Some {| am_network_id := "ethereum-mainnet";
                    am_asset_id := Some "eth"%string;
                    am_contract_address := None;
                    am_decimals := 18 |});
     getStakingContext := fun _ => not_mocked;
     buildStakingOperation := fun _ => ret snapshot;
     createStakingOperation := fun _ _ _ => ret snapshot;
     broadcastStakingOperation := fun _ _ _ _ _ => ret snapshot;
     getExternalStakingOperation := fun _ _ _ => ret snapshot;
     getStakingOperation := fun _ _ _ => ret snapshot |}.

Definition initial_state : State := {| heap := ∅; log := []; now := 0 |}.

(** An operation built from a one-transaction snapshot, and three later
    states of the backend: the second transaction appears, nothing changes,
    the third appears and the operation completes. *)
Definition example_operation : StakingOperation.t :=
  StakingOperation.loadTransactionsFromModel
    (StakingOperation.mk (snapshot_of None "pending" ["0xaa"%string]) []).

Definition example_backends : list Backend :=
  [answering (snapshot_of None "pending" ["0xaa"; "0xbb"]%string);
   answering (snapshot_of None "pending" ["0xaa"; "0xbb"]%string);
   answering (snapshot_of None "complete" ["0xaa"; "0xbb"; "0xcc"]%string)].

(** A backend whose snapshot lists the same unsigned payload twice. *)
Definition repeating_backend : Backend :=
  answering (snapshot_of None "pending" ["0xaa"; "0xaa"]%string).

Definition empty_operation : StakingOperation.t :=
  StakingOperation.loadTransactionsFromModel
    (StakingOperation.mk (snapshot_of None "pending" []) []).

(** A completed operation, and a backend that reports it as still
    initialising. *)
Definition completed_operation : StakingOperation.t :=
  StakingOperation.loadTransactionsFromModel
    (StakingOperation.mk
       (snapshot_of None StakingOperationStatusEnum.Complete ["0xaa"%string]) []).

Definition reverting_backend : Backend :=
  answering (snapshot_of None StakingOperationStatusEnum.Initialized ["0xaa"%string]).

(** An operation whose wallet id is the empty string. *)
Definition blank_wallet_operation : StakingOperation.t :=
  StakingOperation.loadTransactionsFromModel
    (StakingOperation.mk (snapshot_of (Some ""%string) "pending" ["0xaa"%string]) []).

(** [addValidator] called for each key of a list, in order. *)
Definition addValidators (pubKeys : list string)
    (builder : ConsensusLayerExitOptionBuilder.t)
  : ConsensusLayerExitOptionBuilder.t :=
  foldl (fun builder pubKey =>
           ConsensusLayerExitOptionBuilder.addValidator pubKey builder)
        builder pubKeys.

(** A store holding one caller-made options object at reference [0]. *)
Definition state_with_options (o : Options) : State :=
  {| heap := {[ 0%nat := o ]}; log := []; now := 0 |}.

(** The request the balance gate sends for options [o]. *)
Definition context_request (a : Address.t) (assetId : string)
    (mode : StakeOptionsMode) (o : Options) : StakingContextRequest :=
  {| ctx_network_id := Address.getNetworkId a;
     ctx_asset_id := Asset.primaryDenomination assetId;
     ctx_address_id := Address.getId a;
     ctx_options := <["mode"%string := mode_string mode]> o |}.

(** The state after [copyOptions] and the assignment of the mode, with call
    [c] logged. *)
Definition with_copy (st : State) (o : Options) (c : list ApiCall) : State :=
  {| heap := <[fresh (dom (heap st)) := o]> (heap st);
     log := log st ++ c;
     now := now st |}.

(** A balance reader that takes the reported amount as it is, a backend
    reporting the balances 5, 3, 0 and 2, and the plain-notation printer. *)
Definition example_balance_amount (m : BalanceModel) (assetId : string)
  : Decimal.t :=
  match BigInt (bm_amount m) with
  | inr n => Decimal.of_Z n
  | inl _ => Decimal.of_Z 0
  end.

Definition example_balance (amount : string) : BalanceModel :=
  {| bm_amount := amount;
     bm_asset := {| am_network_id := "ethereum-mainnet";
                    am_asset_id := Some "wei"%string;
                    am_contract_address := None;
                    am_decimals := 0 |} |}.

Definition gate_backend : Backend :=
  {| getAsset := fun _ _ => not_mocked;
     getStakingContext := fun _ =>
       ret {| stakeable_balance := example_balance "5";
              unstakeable_balance := example_balance "3";
              pending_claimable_balance := example_balance "0";
              claimable_balance := example_balance "2" |};
     buildStakingOperation := fun _ => not_mocked;
     createStakingOperation := fun _ _ _ => not_mocked;
     broadcastStakingOperation := fun _ _ _ _ _ => not_mocked;
     getExternalStakingOperation := fun _ _ _ => not_mocked;
     getStakingOperation := fun _ _ _ => not_mocked |}.

Definition example_address : Address.t := Address.mk "ethereum-mainnet" "0xf00d".

(** The asset lookup and the request that the builders send. *)
Definition asset_lookup (a : Address.t) (assetId : string) : ApiCall :=
  GetAsset (Coinbase.normalizeNetwork (Address.getNetworkId a))
           (Asset.primaryDenomination assetId).

Definition staking_request (a : Address.t) (assetId action : string)
    (sent : Options) : StakingRequest :=
  {| req_network_id := Address.getNetworkId a;
     req_asset_id := Asset.primaryDenomination assetId;
     req_address_id := Address.getId a;
     req_action := action;
     req_options := sent |}.

(** Options asking for an execution-layer unstake that also carry an amount
    entry of the caller's own. *)
Definition exempt_options_with_amount : Options :=
  <["amount"%string := "7"%string]>
    (<["unstake_type"%string := "execution"%string]> ∅).

Definition building_backend : Backend :=
  answering (snapshot_of None "pending" ["0xaa"%string]).

(** ** Vocabulary of the polling statements *)

Definition terminal_status (s : string) : bool :=
  String.eqb s StakingOperationStatusEnum.Complete
  || String.eqb s StakingOperationStatusEnum.Failed.






(** The milliseconds [delay(seconds)] is set to. *)
Definition pause (seconds : Q) : Z := Z.max 0 (Qfloor (seconds * 1000)%Q).



Definition timed_out : Exn := JsError "Staking operation timed out".

(** The state [ms] milliseconds later. *)
Definition later (ms : Z) (st : State) : State :=
  {| heap := heap st; log := log st; now := now st + ms |}.


Definition pending_rounds (i : nat) : Round :=
  {| backend := answering (snapshot_of None "pending" ["0xaa"%string]);
     latency := 10;
     oversleep := 1 |}.


(** ** Vocabulary of the statements on identifiers and amounts *)

(** Whether the character [c] occurs in [s]. *)
Fixpoint occurs (c : ascii) (s : string) : bool :=
  match s with
  | EmptyString => false
  | String a s' => Ascii.eqb a c || occurs c s'
  end.

(** A string of ASCII characters. *)
Fixpoint ascii_only (s : string) : bool :=
  match s with
  | EmptyString => true
  | String c s' => (nat_of_ascii c <? 128)%nat && ascii_only s'
  end.

(** Two characters that stand for the same character of an asset id: the
    same character, a capital letter and its small letter (the letters have
    the codes 65 to 90 and 97 to 122), a hyphen and an underscore. *)
Inductive same_character : ascii -> ascii -> Prop :=
  | same_same (c : ascii) : same_character c c
  | same_capital (n : nat) :
      (n < 26)%nat -> same_character (ascii_of_nat (65 + n)) (ascii_of_nat (97 + n))
  | same_small (n : nat) :
      (n < 26)%nat -> same_character (ascii_of_nat (97 + n)) (ascii_of_nat (65 + n))
  | same_hyphen : same_character "-" "_"
  | same_underscore : same_character "_" "-".

(** What the comparison of [Asset.fromModel] makes of a character: its
    small letter, with the hyphen written as an underscore. *)
Definition normal (c : ascii) : ascii :=
  if Ascii.eqb (lower_char c) "-" then "_"%char else lower_char c.

(** Two ids that agree character by character in that sense. *)
Inductive same_id : string -> string -> Prop :=
  | same_id_empty : same_id EmptyString EmptyString
  | same_id_next (c d : ascii) (s t : string) :
      same_character c d -> same_id s t -> same_id (String c s) (String d t).

(** The decimal [d] multiplied by [10 ^ k], exactly. *)
Definition scaled (d : Decimal.t) (k : Z) : Decimal.t :=
  Decimal.mk (Decimal.coef d) (Decimal.expn d + k).

(** The asset that [Asset.fromModel] makes of [model] for the requested id;
    [None] when it throws. *)
Definition resolved (model : AssetModel) (assetId : string) : option Asset.t :=
  match Asset.fromModel (Some model) (Some assetId) with
  | inr asset => Some asset
  | inl _ => None
  end.

(** Ether as the backend describes it. *)
Definition ether_model (decimals : Z) : AssetModel :=
  {| am_network_id := "ethereum-mainnet";
     am_asset_id := Some "eth"%string;
     am_contract_address := None;
     am_decimals := decimals |}.

(** ** Vocabulary of the statements on fetching, reloading and signing *)

(** The lookup that [fetch] sends for a wallet id, and its answer. *)
Definition lookup_call (networkId addressId id : string) (walletId : option string)
  : ApiCall :=
  match walletId with
  | None => GetExternalStakingOperation networkId addressId id
  | Some walletId => GetStakingOperation walletId addressId id
  end.

Definition lookup_answer (b : Backend) (networkId addressId id : string)
    (walletId : option string) : Result StakingOperationModel.t :=
  match walletId with
  | None => getExternalStakingOperation b networkId addressId id
  | Some walletId => getStakingOperation b walletId addressId id
  end.

(** The backend has no news for [op]: its answer to the lookup of [reload],
    if it gives one, is the snapshot that [op] holds. *)
Definition no_news (op : StakingOperation.t) (b : Backend) : Prop :=
  forall snapshot,
    fetched b op = Some (inr snapshot) -> snapshot = StakingOperation.model op.

(** A key that signs by appending a suffix to the payload. *)
Definition suffix_key (suffix : string) : Transaction.Key :=
  fun payload => ret (String.append payload suffix).

(** A backend that fails every request. *)
Definition not_answering : Backend :=
  {| getAsset := fun _ _ => not_mocked;
     getStakingContext := fun _ => not_mocked;
     buildStakingOperation := fun _ => not_mocked;
     createStakingOperation := fun _ _ _ => not_mocked;
     broadcastStakingOperation := fun _ _ _ _ _ => not_mocked;
     getExternalStakingOperation := fun _ _ _ => not_mocked;
     getStakingOperation := fun _ _ _ => not_mocked |}.

(** The operation that holds the snapshot of [repeating_backend]. *)
Definition repeated_operation : StakingOperation.t :=
  StakingOperation.mk (snapshot_of None "pending" ["0xaa"; "0xaa"]%string)
    (Transaction.mk <$> [unsigned_transaction "0xaa"; unsigned_transaction "0xaa"]).

(** [example_operation] signed with a suffix key, and what a reload makes of
    it when the backend reports the payloads 0xaa, still unsigned, and
    0xbb. *)
Definition signed_operation : StakingOperation.t :=
  (StakingOperation.sign (suffix_key "-signed") example_operation).1.

Definition grown_operation : StakingOperation.t :=
  StakingOperation.mk (snapshot_of None "pending" ["0xaa"; "0xbb"]%string)
    (StakingOperation.transactions signed_operation
     ++ [Transaction.mk (unsigned_transaction "0xbb")]).

(** The signatures of [key] are never empty. *)
Definition signs_visibly (key : Transaction.Key) : Prop :=
  forall payload signature, key payload = inr signature -> signature <> ""%string.

(** ** Vocabulary of the statements on the withdrawal options builder *)

(** [addValidatorWithdrawal] called for each pair of a list, in order. *)
Definition addValidatorWithdrawals (withdrawals : list (string * Decimal.t))
    (builder : ExecutionLayerWithdrawalOptionsBuilder.t)
  : ExecutionLayerWithdrawalOptionsBuilder.t :=
  foldl (fun builder '(pubKey, amount) =>
           ExecutionLayerWithdrawalOptionsBuilder.addValidatorWithdrawal
             pubKey amount builder)
        builder withdrawals.

(** The properties of a plain object that are named by an array index,
    sorted by index, as [Dict.entries] puts them first. *)
Definition indexed {V : Type} (o : Dict.t V) : list (Z * (string * V)) :=
  foldr (fun p l =>
           match Dict.array_index p.1 with
           | Some n => Dict.insert_by_index n p l
           | None => l
           end) [] o.

Definition by_index {V : Type} (x y : Z * (string * V)) : Prop := x.1 <= y.1.

(** A property with its value changed by [f]. *)
Definition on_value {V W : Type} (f : V -> W) (p : string * V) : string * W :=
  (p.1, f p.2).

(** The characters of a string as [QuoteJSONString] puts them between the
    quotation marks. *)
Definition escaped (s : string) : string :=
  string_rec (fun _ => string) EmptyString
    (fun c _ r => String.append (quote_char c) r) s.

(** A character that [JSON.stringify] prints as it is, neither escaped nor
    the end of a string, and a string made of such characters. *)
Definition plain_char (c : ascii) : bool :=
  let n := nat_of_ascii c in
  ((32 <=? n) && negb (n =? 34) && negb (n =? 92))%nat.

Fixpoint plain (s : string) : bool :=
  match s with
  | EmptyString => true
  | String c s' => plain_char c && plain s'
  end.

(** A string between quotation marks. *)
Definition quoted (s : string) : string :=
  String "034" (String.append s (String "034" EmptyString)).

(** The printed atomic amount of [amount], empty when the conversion
    throws. *)
Definition atomic_text (asset : Asset.t) (amount : Decimal.t) : string :=
  match Asset.toAtomicAmount asset amount with
  | inr atomic => Decimal.string_of_Z atomic
  | inl _ => EmptyString
  end.

(** The options that [ExecutionLayerWithdrawalOptionsBuilder.build] merges
    over the caller's. *)
Definition execution_options (validatorAmounts : Dict.t string) (o : Options)
  : Options :=
  <["validator_unstake_amounts"%string := JSON_stringify validatorAmounts]>
    (<["unstake_type"%string := "execution"%string]> o).

(** Withdrawals for two validators, the first of them stated twice, and the
    builder that holds them. *)
Definition example_withdrawals : list (string * Decimal.t) :=
  [("0xk1"%string, Decimal.mk 15 (-1)); ("0xk2"%string, Decimal.of_Z 2);
   ("0xk1"%string, Decimal.of_Z 3)].

Definition example_builder : ExecutionLayerWithdrawalOptionsBuilder.t :=
  addValidatorWithdrawals example_withdrawals
    (ExecutionLayerWithdrawalOptionsBuilder.new "ethereum_mainnet").

(** Options that ask for the exit of two validators on the consensus
    layer, as [ConsensusLayerExitOptionBuilder] builds them. *)
Definition exit_options : Options :=
  <["validator_pub_keys"%string := "0xk1,0xk2"%string]>
    (<["unstake_type"%string := "consensus"%string]> ∅).

(** ** Vocabulary of the statements on the builders of operations *)

(** Every object of [st] is in [st'], unchanged. *)
Definition preserved (st st' : State) : Prop :=
  forall l, is_Some (heap st !! l) -> heap st' !! l = heap st !! l.

(** The index a broadcast request carries. *)
Definition broadcast_index (c : ApiCall) : option nat :=
  match c with
  | BroadcastStakingOperation _ _ _ _ transactionIndex => Some transactionIndex
  | _ => None
  end.

(** The request that the wallet path sends to create an operation. *)
Definition create_call (w : WalletAddress.t) (assetId action : string)
    (sent : Options) : ApiCall :=
  CreateStakingOperation (WalletAddress.getWalletId w) (WalletAddress.getId w)
    {| req_network_id := WalletAddress.getNetworkId w;
       req_asset_id := Asset.primaryDenomination assetId;
       req_address_id := WalletAddress.getId w;
       req_action := action;
       req_options := sent |}.



(** A broadcast of wallet address [w]. *)
Definition broadcast_of (w : WalletAddress.t) (c : ApiCall) : Prop :=
  match c with
  | BroadcastStakingOperation walletId addressId _ _ _ =>
      walletId = WalletAddress.getWalletId w /\ addressId = WalletAddress.getId w
  | _ => False
  end.


(** A wallet address with a key that signs by appending a suffix. *)
Definition example_wallet_address : WalletAddress.t :=
  WalletAddress.mk example_address "wallet-1" (Some (suffix_key "-signed")).

(** Rounds during which the backend answers with a pending snapshot of two
    unsigned transactions. *)
Definition two_transaction_rounds (i : nat) : Round :=
  {| backend := answering (snapshot_of (Some "wallet-1"%string) "pending"
                             ["0xaa"; "0xbb"]%string);
     latency := 10;
     oversleep := 1 |}.

(** Rounds during which the backend reports a completed operation of the
    wallet that has no transaction to sign, and the operation it reports. *)
Definition completing_rounds (i : nat) : Round :=
  {| backend := answering (snapshot_of (Some "wallet-1"%string)
                             StakingOperationStatusEnum.Complete []);
     latency := 10;
     oversleep := 1 |}.

Definition completed_wallet_operation : StakingOperation.t :=
  StakingOperation.mk
    (snapshot_of (Some "wallet-1"%string) StakingOperationStatusEnum.Complete [])
    [].

(** ** Tactics for closed instances *)

(** A decidable proposition on concrete data is settled by evaluation. *)
Ltac decide_by_computation :=
  apply (bool_decide_unpack _); vm_compute; exact I.

(** [supersets] on a concrete sequence, one call at a time. *)
Ltac step_supersets :=
  lazymatch goal with
  | |- supersets [] _ _ => exact I
  | |- supersets (?b :: ?bs) ?op ?st =>
      let r := eval vm_compute in (after_reload b op st) in
      let f := eval vm_compute in (fetched b op) in
      change (match f with
              | Some (inr snapshot) =>
                  keys (StakingOperation.transactions op) ⊆ payloads snapshot
              | _ => True
              end /\ let '(st', op') := r in supersets bs op' st');
      cbv beta iota; split; [decide_by_computation|]
  end.


(** * Properties *)

(** ** Atomic-unit conversion *)

Section DecimalFacts.

Import Decimal.

Lemma ndigits_fuel_le (fuel : nat) :
  forall n q, 0 <= q -> n < 10 ^ q -> ndigits_fuel fuel n <= q.
Proof.
  induction fuel as [|fuel IH]; intros n q Hq Hn; simpl; [lia|].
  destruct (Z.ltb_spec n 1) as [|H1]; [lia|].
  assert (Hq1 : 1 <= q).
  { destruct (Z.eq_dec q 0) as [->|]; [simpl in Hn; lia|lia]. }
  assert (n / 10 < 10 ^ (q - 1)).
  { apply Z.div_lt_upper_bound; [lia|].
    replace (10 * 10 ^ (q - 1)) with (10 ^ q); [lia|].
    replace q with (Z.succ (q - 1)) at 1 by lia.
    rewrite Z.pow_succ_r by lia. reflexivity. }
  specialize (IH (n / 10) (q - 1)). lia.
Qed.

Lemma ndigits_le (n q : Z) : 0 <= q -> n < 10 ^ q -> ndigits n <= q.
Proof. apply ndigits_fuel_le. Qed.

Lemma ndigits_fuel_zero (fuel : nat) (n : Z) : n < 1 -> ndigits_fuel fuel n = 0.
Proof.
  intros Hn. destruct fuel; [reflexivity|]. simpl.
  now destruct (Z.ltb_spec n 1); [|lia].
Qed.

(** With fuel beyond the binary length the count is the number of decimal
    digits. *)
Lemma ndigits_fuel_spec (fuel : nat) :
  forall n, 0 < n -> n < 2 ^ Z.of_nat fuel ->
    0 < ndigits_fuel fuel n
    /\ 10 ^ (ndigits_fuel fuel n - 1) <= n < 10 ^ ndigits_fuel fuel n.
Proof.
  induction fuel as [|fuel IH]; intros n Hpos Hn; [simpl in Hn; lia|].
  cbn [ndigits_fuel]. destruct (Z.ltb_spec n 1) as [|_]; [lia|].
  destruct (Z_lt_le_dec n 10) as [Hsmall|Hbig].
  - rewrite ndigits_fuel_zero by (rewrite Z.div_small; lia).
    change (1 + 0) with 1. simpl. lia.
  - assert (Hq : 0 < n / 10) by (apply Z.div_str_pos; lia).
    assert (Hfuel : n / 10 < 2 ^ Z.of_nat fuel).
    { apply Z.div_lt_upper_bound; [lia|].
      rewrite Nat2Z.inj_succ, Z.pow_succ_r in Hn by lia.
      assert (0 < 2 ^ Z.of_nat fuel) by (apply Z.pow_pos_nonneg; lia). lia. }
    destruct (IH (n / 10) Hq Hfuel) as (Hd & Hlo & Hhi).
    set (d := ndigits_fuel fuel (n / 10)) in *.
    replace (1 + d - 1) with (Z.succ (d - 1)) by lia.
    replace (1 + d) with (Z.succ d) by lia.
    rewrite !Z.pow_succ_r by lia.
    pose proof (Z.mul_div_le n 10 ltac:(lia)) as Hle.
    pose proof (Z_mod_lt n 10 ltac:(lia)) as Hmod.
    pose proof (Z_div_mod_eq_full n 10) as Heq.
    split; [lia|]. split; lia.
Qed.

Lemma ndigits_spec (n : Z) :
  0 < n -> 10 ^ (ndigits n - 1) <= n < 10 ^ ndigits n.
Proof.
  intros Hpos. apply ndigits_fuel_spec; [assumption|].
  rewrite Nat2Z.inj_succ, Z2Nat.id by apply Z.log2_nonneg.
  now apply Z.log2_spec.
Qed.

(** Rounding such a decimal only moves zeros from the coefficient to the
    exponent. *)
Lemma finalise_exact (m j e : Z) :
  0 <= j -> Z.abs m < 10 ^ precision ->
  exists k, 0 <= k <= j /\ finalise (mk (m * 10 ^ j) e) = mk (m * 10 ^ (j - k)) (e + k).
Proof.
  intros Hj Hm. unfold finalise. cbn [coef expn].
  set (k := ndigits (Z.abs (m * 10 ^ j)) - precision).
  destruct (Z.leb_spec k 0) as [Hk|Hk].
  - exists 0. split; [lia|]. f_equal; [|lia]. now rewrite Z.sub_0_r.
  - assert (Hp : 0 < 10 ^ j) by (apply Z.pow_pos_nonneg; lia).
    assert (Hkj : k <= j).
    { assert (ndigits (Z.abs (m * 10 ^ j)) <= precision + j); [|lia].
      apply ndigits_le; [unfold precision; lia|].
      rewrite Z.abs_mul, (Z.abs_eq (10 ^ j)) by lia.
      rewrite Z.pow_add_r by (unfold precision; lia).
      apply Z.mul_lt_mono_pos_r; assumption. }
    exists k. split; [lia|]. f_equal.
    assert (Hk10 : 0 < 10 ^ k) by (apply Z.pow_pos_nonneg; lia).
    assert (Hsplit : 10 ^ j = 10 ^ (j - k) * 10 ^ k).
    { rewrite <- Z.pow_add_r by lia. f_equal. lia. }
    assert (Hhalf : 5 * 10 ^ (k - 1) < 10 ^ k).
    { replace k with (Z.succ (k - 1)) at 2 by lia.
      rewrite Z.pow_succ_r by lia.
      assert (0 < 10 ^ (k - 1)) by (apply Z.pow_pos_nonneg; lia). lia. }
    assert (Hpos : 0 < 10 ^ (k - 1)) by (apply Z.pow_pos_nonneg; lia).
    rewrite Z.abs_mul, (Z.abs_eq (10 ^ j)) by lia.
    rewrite Hsplit at 2. rewrite Z.mul_assoc.
    rewrite Z.div_add_l by lia.
    rewrite (Z.div_small (5 * 10 ^ (k - 1))) by lia.
    rewrite Z.add_0_r, Z.sgn_mul.
    rewrite (Z.sgn_pos (10 ^ j)) by lia.
    rewrite Z.mul_1_r, Z.mul_assoc.
    rewrite (Z.mul_comm (Z.sgn m)), Z.abs_sgn. reflexivity.
Qed.

Lemma pow10_eq (n : Z) : pow10 n = mk 1 n.
Proof. reflexivity. Qed.

Lemma equals_spec (x y : t) :
  equals x y = true <->
  coef x * 10 ^ (expn x - Z.min (expn x) (expn y))
  = coef y * 10 ^ (expn y - Z.min (expn x) (expn y)).
Proof. unfold equals, align. apply Z.eqb_eq. Qed.

Lemma equals_refl (x : t) : equals x x = true.
Proof. apply equals_spec. reflexivity. Qed.

Lemma lessThan_equals (x y : t) : equals x y = true -> lessThan x y = false.
Proof.
  unfold equals, lessThan, align. intros H%Z.eqb_eq. apply Z.ltb_ge. lia.
Qed.

Lemma string_of_Z_inj_parse (z : Z) : BigInt (string_of_Z z) = inr z.
Proof.
  unfold BigInt, string_of_Z.
  rewrite NilZero.isi.
  - unfold ret. now rewrite DecimalZ.of_to.
  - destruct z; simpl; try discriminate.
    intros [= H]. now apply (DecimalPos.Unsigned.to_uint_nonnil p).
  - destruct z; simpl; try discriminate.
    intros [= H]. now apply (DecimalPos.Unsigned.to_uint_nonnil p).
Qed.

End DecimalFacts.

Lemma toAtomicAmount_exact (asset : Asset.t) (d : Decimal.t) :
  0 <= Decimal.expn d + Asset.decimals asset ->
  Decimal.fits_precision d ->
  Asset.toAtomicAmount asset d
  = inr (Decimal.coef d * 10 ^ (Decimal.expn d + Asset.decimals asset)).
Proof.
  intros He (m & j & Hj & Hm & Hc).
  unfold Asset.toAtomicAmount, Decimal.times. rewrite pow10_eq.
  cbn [Decimal.coef Decimal.expn]. rewrite Z.mul_1_r, Hc.
  destruct (finalise_exact m j (Decimal.expn d + Asset.decimals asset) Hj Hm)
    as (k & Hk & ->).
  unfold Decimal.toFixed. cbn [Decimal.coef Decimal.expn].
  destruct (Z.leb_spec 0 (Decimal.expn d + Asset.decimals asset + k)); [|lia].
  rewrite string_of_Z_inj_parse. f_equal.
  rewrite <- !Z.mul_assoc, <- !Z.pow_add_r by lia.
  do 2 f_equal. lia.
Qed.

Lemma fromAtomicAmount_exact (asset : Asset.t) (d : Decimal.t) :
  0 <= Decimal.expn d + Asset.decimals asset ->
  Decimal.fits_precision d ->
  Decimal.equals
    (Asset.fromAtomicAmount asset
       (Decimal.of_Z (Decimal.coef d * 10 ^ (Decimal.expn d + Asset.decimals asset))))
    d = true.
Proof.
  intros He (m & j & Hj & Hm & Hc).
  unfold Asset.fromAtomicAmount, Decimal.dividedBy. rewrite pow10_eq.
  cbn [Decimal.coef Decimal.expn Decimal.of_Z].
  change (Decimal.ndigits (Z.abs 1)) with 1.
  set (n := Decimal.coef d * 10 ^ (Decimal.expn d + Asset.decimals asset)).
  set (s := Z.max 0 (Decimal.precision + 1 + 1 - Decimal.ndigits (Z.abs n))).
  assert (Hs : 0 <= s) by lia.
  change (Z.sgn 1) with 1. change (Z.abs 1) with 1.
  rewrite Z.mul_1_r, Z.div_1_r.
  rewrite Z.mul_assoc, (Z.mul_comm (Z.sgn n)), Z.abs_sgn.
  assert (Hn : n * 10 ^ s
               = m * 10 ^ (j + (Decimal.expn d + Asset.decimals asset) + s)).
  { unfold n. rewrite Hc, <- !Z.mul_assoc, <- !Z.pow_add_r by lia.
    do 2 f_equal. lia. }
  rewrite Hn.
  destruct (finalise_exact m
              (j + (Decimal.expn d + Asset.decimals asset) + s)
              (0 - Asset.decimals asset - s)) as (k & Hk & ->); [lia|exact Hm|].
  apply equals_spec. cbn [Decimal.coef Decimal.expn]. rewrite Hc.
  rewrite <- !Z.mul_assoc, <- !Z.pow_add_r by lia.
  do 2 f_equal. lia.
Qed.

(** Up to 20 significant digits, the working precision of decimal.js, the
    conversion is exact: for every non-negative decimal [d] with at most
    [decimals] fractional digits and at most 20 significant digits,
    [toAtomicAmount] returns the integer [d * 10 ^ decimals] and converting
    that integer back with [fromAtomicAmount] gives a decimal equal to [d];
    1.5 at 18 decimals converts to 1500000000000000000, printed
    "1500000000000000000". *)
Theorem atomic_round_trip (asset : Asset.t) (d : Decimal.t) :
  0 <= Decimal.coef d ->
  0 <= Decimal.expn d + Asset.decimals asset ->
  Decimal.fits_precision d ->
  exists n : Z,
    Asset.toAtomicAmount asset d = inr n
    /\ n = Decimal.coef d * 10 ^ (Decimal.expn d + Asset.decimals asset)
    /\ Decimal.equals (Asset.fromAtomicAmount asset (Decimal.of_Z n)) d = true
    /\ (Asset.decimals asset = 18 ->
        Asset.toAtomicAmount asset (Decimal.mk 15 (-1)) = inr 1500000000000000000
        /\ Decimal.string_of_Z 1500000000000000000 = "1500000000000000000"%string).
Proof.
  intros _ He Hfit. eexists. split; [|split; [reflexivity|split]].
  - now apply toAtomicAmount_exact.
  - now apply fromAtomicAmount_exact.
  - intros H18. split; [|reflexivity].
    rewrite toAtomicAmount_exact; cbn [Decimal.coef Decimal.expn].
    + now rewrite H18.
    + rewrite H18. lia.
    + exists 15, 0. split; [lia|split; reflexivity].
Qed.

Lemma atomic_round_trip_witness :
  exists n : Z,
    Asset.toAtomicAmount eth18 (Decimal.mk 15 (-1)) = inr n
    /\ n = 15 * 10 ^ (-1 + 18)
    /\ Decimal.equals (Asset.fromAtomicAmount eth18 (Decimal.of_Z n))
         (Decimal.mk 15 (-1)) = true
    /\ (18 = 18 ->
        Asset.toAtomicAmount eth18 (Decimal.mk 15 (-1)) = inr 1500000000000000000
        /\ Decimal.string_of_Z 1500000000000000000 = "1500000000000000000"%string).
Proof.
  apply (atomic_round_trip eth18 (Decimal.mk 15 (-1))).
  - simpl. lia.
  - simpl. lia.
  - exists 15, 0. split; [lia|split; reflexivity].
Defined.

(** C4.  Beyond 20 significant digits the conversion is not exact.  The
    amount 123.456789012345678905 is not negative and has 18 fractional
    digits, so at 18 decimals it is the whole number 123456789012345678905 of
    atomic units; [toAtomicAmount] returns 123456789012345678910, five units
    more, and converting back gives another amount.  Likewise
    100.000000000000000001 converts to 100000000000000000000 atomic units,
    one unit less than it is, and back to 100. *)
Theorem toAtomicAmount_rounds_long_amount :
  let d := Decimal.mk 123456789012345678905 (-18) in
  let d' := Decimal.mk 100000000000000000001 (-18) in
  (0 <= Decimal.coef d
   /\ 0 <= Decimal.expn d + Asset.decimals eth18
   /\ Decimal.coef d * 10 ^ (Decimal.expn d + Asset.decimals eth18)
      = 123456789012345678905
   /\ Asset.toAtomicAmount eth18 d = inr 123456789012345678910
   /\ Decimal.equals
        (Asset.fromAtomicAmount eth18 (Decimal.of_Z 123456789012345678910)) d
      = false)
  /\ (0 <= Decimal.coef d'
      /\ 0 <= Decimal.expn d' + Asset.decimals eth18
      /\ Decimal.coef d' * 10 ^ (Decimal.expn d' + Asset.decimals eth18)
         = 100000000000000000001
      /\ Asset.toAtomicAmount eth18 d' = inr 100000000000000000000
      /\ Decimal.equals
           (Asset.fromAtomicAmount eth18 (Decimal.of_Z 100000000000000000000)) d'
         = false).
Proof. vm_compute. repeat split; discriminate. Qed.

(** ** Reconciliation of the transaction list *)

Section Reconciliation.

Import StakingOperation.

Implicit Types (op : StakingOperation.t) (b : Backend) (st : State).

Lemma elem_of_held (p : string) (txs : list Transaction.t) :
  p ∈ held txs <-> p ∈ keys txs.
Proof. unfold held. apply elem_of_list_to_set. Qed.

Lemma push_absent (seen : gset string) (l : list TransactionModel) :
  forall acc,
    foldl (fun txs transaction =>
             if negb (bool_decide (unsigned_payload transaction ∈ seen))
             then txs ++ [Transaction.mk transaction] else txs) acc l
    = acc ++ (Transaction.mk <$> filter (fun t => unsigned_payload t ∉ seen) l).
Proof.
  induction l as [|x l IH]; intros acc; simpl.
  - now rewrite app_nil_r.
  - rewrite IH. destruct (decide (unsigned_payload x ∈ seen)) as [Hin|Hin].
    + rewrite bool_decide_eq_true_2 by assumption. simpl.
      rewrite filter_cons_False; [reflexivity|]. intros H. now apply H.
    + rewrite bool_decide_eq_false_2 by assumption. simpl.
      rewrite filter_cons_True by assumption. simpl.
      now rewrite <- app_assoc.
Qed.

Lemma loadTransactionsFromModel_eq op :
  loadTransactionsFromModel op
  = mk (model op)
       (transactions op
        ++ (Transaction.mk
            <$> filter (fun t => unsigned_payload t ∉ held (transactions op))
                       (StakingOperationModel.transactions (model op)))).
Proof.
  unfold loadTransactionsFromModel.
  destruct (StakingOperationModel.transactions (model op)) as [|x l] eqn:E.
  - simpl. rewrite app_nil_r. now destruct op.
  - cbn [length]. change (0 <? S (length l))%nat with true. cbv iota.
    now rewrite push_absent.
Qed.

Lemma keys_filter (seen : gset string) (l : list TransactionModel) :
  keys (Transaction.mk <$> filter (fun t => unsigned_payload t ∉ seen) l)
  = filter (fun p => p ∉ seen) (unsigned_payload <$> l).
Proof.
  unfold keys. induction l as [|x l IH]; [reflexivity|].
  destruct (decide (unsigned_payload x ∈ seen)) as [Hin|Hin].
  - rewrite filter_cons_False by (intros H; now apply H).
    rewrite fmap_cons, filter_cons_False by (intros H; now apply H).
    exact IH.
  - rewrite filter_cons_True by assumption.
    rewrite (fmap_cons unsigned_payload), filter_cons_True by assumption.
    simpl. f_equal. exact IH.
Qed.

Lemma keys_loadTransactionsFromModel op :
  keys (transactions (loadTransactionsFromModel op))
  = keys (transactions op)
    ++ filter (fun p => p ∉ held (transactions op)) (payloads (model op)).
Proof.
  rewrite loadTransactionsFromModel_eq. cbn [transactions].
  unfold keys at 1. rewrite map_app. fold (keys (transactions op)).
  f_equal. apply keys_filter.
Qed.

Lemma loaded_after_load op : loaded (loadTransactionsFromModel op).
Proof.
  unfold loaded. rewrite keys_loadTransactionsFromModel.
  rewrite loadTransactionsFromModel_eq. cbn [model].
  intros p Hp. apply elem_of_app.
  destruct (decide (p ∈ held (transactions op))) as [Hin|Hin].
  - left. now apply elem_of_held.
  - right. apply list_elem_of_filter. split; assumption.
Qed.

Lemma filter_none {A : Type} (P : A -> Prop) `{!forall x, Decision (P x)}
    (l : list A) :
  (forall x, x ∈ l -> ~ P x) -> filter P l = [].
Proof.
  induction l as [|x l IH]; intros Hnone; [reflexivity|].
  rewrite filter_cons_False by (apply Hnone; left).
  apply IH. intros y Hy. apply Hnone. now right.
Qed.

Lemma load_loaded op : loaded op -> loadTransactionsFromModel op = op.
Proof.
  intros Hl. rewrite loadTransactionsFromModel_eq.
  rewrite filter_none.
  - simpl. rewrite app_nil_r. now destruct op.
  - intros t Ht Hn. apply Hn, elem_of_held, Hl.
    unfold payloads. now apply list_elem_of_fmap_2.
Qed.

Lemma after_reload_op b op st :
  (after_reload b op st).2
  = match fetched b op with
    | Some (inr snapshot) =>
        loadTransactionsFromModel (mk snapshot (transactions op))
    | Some (inl _) => op
    | None => loadTransactionsFromModel op
    end.
Proof.
  unfold after_reload, reload, fetched, bindM, request, retM.
  destruct (getWalletID op) as [w|]; [destruct (negb (w =? ""))%string|];
    simpl; try reflexivity.
  - destruct (getStakingOperation b w (getAddressID op) (getID op)); reflexivity.
  - destruct (getExternalStakingOperation b (getNetworkID op) (getAddressID op)
                (getID op)); reflexivity.
Qed.

Lemma keys_sign_each key (txs : list Transaction.t) :
  keys (sign_each key txs).1 = keys txs.
Proof.
  induction txs as [|tx txs IH]; [reflexivity|]. simpl.
  destruct (negb (Transaction.isSigned tx)).
  - unfold Transaction.sign.
    destruct (key (Transaction.getUnsignedPayload tx)); simpl; [reflexivity|].
    destruct (sign_each key txs) as [rest e]. simpl in *. now rewrite IH.
  - destruct (sign_each key txs) as [rest e]. simpl in *. now rewrite IH.
Qed.

Lemma reachable_loaded op : reachable op -> loaded op.
Proof.
  induction 1 as [m op Hnew|b op st st' op' Hr IH Hreload|key op Hr IH].
  - injection Hnew as <-. apply loaded_after_load.
  - pose proof (after_reload_op b op st) as Hstep.
    unfold after_reload in Hstep. rewrite Hreload in Hstep. simpl in Hstep.
    subst op'. destruct (fetched b op) as [[e|snapshot]|].
    + exact IH.
    + apply loaded_after_load.
    + apply loaded_after_load.
  - unfold loaded, sign in *.
    pose proof (keys_sign_each key (transactions op)) as Hk.
    destruct (sign_each key (transactions op)) as [txs e]. simpl in *.
    now rewrite Hk.
Qed.

(** *** First-seen order *)

Lemma filter_agree {A : Type} (P Q : A -> Prop)
    `{!forall x, Decision (P x)} `{!forall x, Decision (Q x)} (l : list A) :
  (forall x, x ∈ l -> P x <-> Q x) -> filter P l = filter Q l.
Proof.
  induction l as [|x l IH]; intros Hpq; [reflexivity|].
  assert (Hl : filter P l = filter Q l).
  { apply IH. intros y Hy. apply Hpq. now right. }
  destruct (decide (P x)) as [Hp|Hp].
  - rewrite !filter_cons_True; [now rewrite Hl| |assumption].
    apply Hpq; [left|assumption].
  - rewrite !filter_cons_False; [exact Hl| |assumption].
    intros Hq. apply Hp, Hpq; [left|assumption].
Qed.

Lemma first_seen_NoDup (l : list string) :
  forall seen : gset string,
    NoDup l -> first_seen seen l = filter (fun p => p ∉ seen) l.
Proof.
  induction l as [|x l IH]; intros seen Hnd; [reflexivity|].
  apply NoDup_cons in Hnd as [Hx Hnd]. simpl.
  destruct (decide (x ∈ seen)) as [Hin|Hin].
  - rewrite bool_decide_eq_true_2 by assumption.
    rewrite filter_cons_False by (intros H; now apply H). now apply IH.
  - rewrite bool_decide_eq_false_2 by assumption.
    rewrite filter_cons_True by assumption. f_equal.
    rewrite IH by assumption. apply filter_agree.
    intros y Hy. set_solver.
Qed.

Lemma first_seen_app (l1 l2 : list string) :
  forall seen : gset string,
    first_seen seen (l1 ++ l2)
    = first_seen seen l1 ++ first_seen (seen ∪ list_to_set l1) l2.
Proof.
  induction l1 as [|x l1 IH]; intros seen; simpl.
  - f_equal. set_solver.
  - destruct (decide (x ∈ seen)) as [Hin|Hin].
    + rewrite bool_decide_eq_true_2 by assumption. rewrite IH.
      do 2 f_equal. set_solver.
    + rewrite bool_decide_eq_false_2 by assumption. rewrite IH.
      simpl. do 3 f_equal. set_solver.
Qed.

End Reconciliation.

Section Sequences.

Import StakingOperation.

Implicit Types (op : StakingOperation.t) (b : Backend) (st : State).

Lemma held_after_merge (txs : list Transaction.t) (l : list string) :
  (list_to_set (keys txs ++ filter (fun p => p ∉ held txs) l) : gset string)
  = held txs ∪ list_to_set l.
Proof.
  apply set_eq. intros p.
  rewrite list_to_set_app, !elem_of_union, !elem_of_list_to_set,
    list_elem_of_filter, elem_of_held.
  destruct (decide (p ∈ keys txs)); tauto.
Qed.

(** One successful fetch of a snapshot without repeated payloads. *)
Lemma merge_step (snapshot : StakingOperationModel.t) (txs : list Transaction.t) :
  NoDup (keys txs) -> NoDup (payloads snapshot) ->
  let op' := loadTransactionsFromModel (mk snapshot txs) in
  txs `prefix_of` transactions op'
  /\ NoDup (keys (transactions op'))
  /\ keys (transactions op') = keys txs ++ first_seen (held txs) (payloads snapshot)
  /\ (keys txs ⊆ payloads snapshot -> keys (transactions op') ≡ₚ payloads snapshot).
Proof.
  intros Hnd Hsnap op'.
  assert (Hk : keys (transactions op')
               = keys txs ++ filter (fun p => p ∉ held txs) (payloads snapshot)).
  { unfold op'. now rewrite keys_loadTransactionsFromModel. }
  assert (Hnd' : NoDup (keys (transactions op'))).
  { rewrite Hk. apply NoDup_app. split; [assumption|split].
    - intros p Hp [Hq _]%list_elem_of_filter. now apply Hq, elem_of_held.
    - now apply NoDup_filter. }
  repeat split.
  - unfold op'. rewrite loadTransactionsFromModel_eq. cbn [transactions model].
    now eexists.
  - exact Hnd'.
  - rewrite Hk. f_equal. symmetry. now apply first_seen_NoDup.
  - intros Hsub. apply NoDup_Permutation; [assumption|assumption|].
    intros p. rewrite Hk, elem_of_app, list_elem_of_filter, elem_of_held.
    split.
    + intros [Hp|[_ Hp]]; [now apply Hsub|assumption].
    + intros Hp. destruct (decide (p ∈ keys txs)); tauto.
Qed.

Lemma reloads_merge (bs : list Backend) :
  forall op st,
    loaded op ->
    NoDup (keys (transactions op)) ->
    distinct_snapshots bs op st ->
    supersets bs op st ->
    let op' := (reloads bs op st).2 in
    transactions op `prefix_of` transactions op'
    /\ NoDup (keys (transactions op'))
    /\ loaded op'
    /\ keys (transactions op')
       = keys (transactions op)
         ++ first_seen (held (transactions op))
              (concat (payloads <$> snapshots bs op st))
    /\ (forall snapshot, last (snapshots bs op st) = Some snapshot ->
        keys (transactions op') ≡ₚ payloads snapshot).
Proof.
  induction bs as [|b bs IH]; intros op st Hl Hnd Hdist Hsup; simpl.
  - repeat split; try assumption; try reflexivity.
    + symmetry. apply app_nil_r.
    + discriminate.
  - unfold distinct_snapshots in Hdist. simpl in Hdist, Hsup.
    pose proof (after_reload_op b op st) as Hstep.
    destruct (after_reload b op st) as [st1 op1]. simpl in Hstep.
    apply Forall_app in Hdist as [Hthis Hrest]. destruct Hsup as [Hsub Hsup].
    destruct (fetched b op) as [[e|snapshot]|].
    + (* the request failed *)
      subst op1. simpl. now apply IH.
    + (* a snapshot arrived *)
      apply Forall_inv in Hthis.
      destruct (merge_step snapshot (transactions op) Hnd Hthis)
        as (Hpre & Hnd1 & Hk1 & Hperm).
      rewrite <- Hstep in Hpre, Hnd1, Hk1, Hperm.
      assert (Hl1 : loaded op1) by (subst op1; apply loaded_after_load).
      destruct (IH op1 st1 Hl1 Hnd1 Hrest Hsup) as (Hp & Hn & Hlo & Hk & Hlast).
      repeat split; try assumption.
      * now transitivity (transactions op1).
      * rewrite Hk, Hk1, <- app_assoc. f_equal. simpl.
        rewrite first_seen_app. f_equal. f_equal.
        unfold held at 1. rewrite Hk1.
        rewrite first_seen_NoDup by assumption. apply held_after_merge.
      * intros s Hs. simpl in Hs.
        destruct (snapshots bs op1 st1) as [|s1 rest] eqn:Hsn.
        -- simpl in Hs. injection Hs as <-.
           rewrite Hk. simpl. rewrite app_nil_r. now apply Hperm.
        -- apply Hlast. rewrite <- Hs. reflexivity.
    + (* nothing was fetched *)
      rewrite (load_loaded op Hl) in Hstep. subst op1. simpl. now apply IH.
Qed.

End Sequences.

Lemma elem_of_first_seen (l : list string) :
  forall (seen : gset string) (p : string),
    p ∈ l -> p ∈ seen \/ p ∈ first_seen seen l.
Proof.
  induction l as [|x l IH]; intros seen p Hp; [now apply elem_of_nil in Hp|].
  simpl. apply elem_of_cons in Hp as [->|Hp].
  - destruct (decide (x ∈ seen)) as [Hin|Hin]; [now left|].
    rewrite bool_decide_eq_false_2 by assumption. right. left.
  - destruct (decide (x ∈ seen)) as [Hin|Hin].
    + rewrite bool_decide_eq_true_2 by assumption. now apply IH.
    + rewrite bool_decide_eq_false_2 by assumption.
      destruct (IH ({[x]} ∪ seen) p Hp) as [Hs|Hs].
      * apply elem_of_union in Hs as [->%elem_of_singleton|Hs];
          [right; left|now left].
      * right. now right.
Qed.

(** C1, amended.  Take a staking operation object whose local list holds no
    payload twice, and any sequence of [reload] calls in which every fetched
    snapshot holds no unsigned payload twice and contains the payloads of the
    local list.  Then the local list before the calls is a prefix of the list
    after them (nothing is removed, reordered or replaced), the list after
    them holds no payload twice, every transaction of every fetched snapshot
    occurs in it exactly once, its payloads are the old ones followed by the
    new ones in the order in which the snapshots first showed them, and they
    are a permutation of the payloads of the last fetched snapshot. *)
Theorem reload_merges_each_transaction_once
    (bs : list Backend) (op : StakingOperation.t) (st : State) :
  StakingOperation.reachable op ->
  NoDup (keys (StakingOperation.transactions op)) ->
  distinct_snapshots bs op st ->
  supersets bs op st ->
  let op' := (reloads bs op st).2 in
  StakingOperation.transactions op `prefix_of` StakingOperation.transactions op'
  /\ NoDup (keys (StakingOperation.transactions op'))
  /\ (forall snapshot tx,
        snapshot ∈ snapshots bs op st ->
        tx ∈ StakingOperationModel.transactions snapshot ->
        count_occ string_dec (keys (StakingOperation.transactions op'))
          (unsigned_payload tx) = 1%nat)
  /\ keys (StakingOperation.transactions op')
     = keys (StakingOperation.transactions op)
       ++ first_seen (held (StakingOperation.transactions op))
            (concat (payloads <$> snapshots bs op st))
  /\ (forall snapshot,
        last (snapshots bs op st) = Some snapshot ->
        keys (StakingOperation.transactions op') ≡ₚ payloads snapshot).
Proof.
  intros Hreach Hnd Hdist Hsup op'.
  destruct (reloads_merge bs op st (reachable_loaded op Hreach) Hnd Hdist Hsup)
    as (Hpre & Hnd' & _ & Hk & Hlast).
  fold op' in Hpre, Hnd', Hk, Hlast.
  repeat split; try assumption.
  intros snapshot tx Hs Htx.
  apply (proj1 (NoDup_count_occ' string_dec _) (proj1 (NoDup_ListNoDup _) Hnd')).
  apply list_elem_of_In. rewrite Hk.
  assert (Hp : unsigned_payload tx ∈ concat (payloads <$> snapshots bs op st)).
  { apply list_elem_of_In, in_concat. exists (payloads snapshot).
    split; apply list_elem_of_In.
    - now apply list_elem_of_fmap_2.
    - unfold payloads. now apply list_elem_of_fmap_2. }
  apply elem_of_app.
  destruct (elem_of_first_seen _ (held (StakingOperation.transactions op)) _ Hp)
    as [H|H]; [left; now apply elem_of_held|now right].
Qed.

Lemma reload_merges_each_transaction_once_witness :
  let op' := (reloads example_backends example_operation initial_state).2 in
  StakingOperation.transactions example_operation
    `prefix_of` StakingOperation.transactions op'
  /\ NoDup (keys (StakingOperation.transactions op'))
  /\ (forall snapshot tx,
        snapshot ∈ snapshots example_backends example_operation initial_state ->
        tx ∈ StakingOperationModel.transactions snapshot ->
        count_occ string_dec (keys (StakingOperation.transactions op'))
          (unsigned_payload tx) = 1%nat)
  /\ keys (StakingOperation.transactions op')
     = keys (StakingOperation.transactions example_operation)
       ++ first_seen (held (StakingOperation.transactions example_operation))
            (concat (payloads
                     <$> snapshots example_backends example_operation initial_state))
  /\ (forall snapshot,
        last (snapshots example_backends example_operation initial_state)
        = Some snapshot ->
        keys (StakingOperation.transactions op') ≡ₚ payloads snapshot).
Proof.
  apply (reload_merges_each_transaction_once
           example_backends example_operation initial_state).
  - apply (StakingOperation.reachable_new (snapshot_of None "pending" ["0xaa"%string])).
    reflexivity.
  - decide_by_computation.
  - unfold distinct_snapshots. decide_by_computation.
  - unfold example_backends. repeat step_supersets.
Defined.

(** C1 as stated fails when a snapshot itself lists a payload twice: the set
    of held payloads is computed before the loop and not extended by the
    pushes, so both entries are appended. *)
Lemma reload_repeated_payload_counterexample :
  StakingOperation.reachable empty_operation
  /\ StakingOperation.transactions empty_operation = []
  /\ supersets [repeating_backend] empty_operation initial_state
  /\ payloads <$> snapshots [repeating_backend] empty_operation initial_state
     = [["0xaa"; "0xaa"]%string]
  /\ keys (StakingOperation.transactions
             (reloads [repeating_backend] empty_operation initial_state).2)
     = ["0xaa"; "0xaa"]%string
  /\ count_occ string_dec
       (keys (StakingOperation.transactions
                (reloads [repeating_backend] empty_operation initial_state).2))
       "0xaa"%string = 2%nat.
Proof.
  split; [|split; [|split; [|split; [|split]]]].
  - apply (StakingOperation.reachable_new (snapshot_of None "pending" [])).
    reflexivity.
  - reflexivity.
  - unfold repeating_backend. repeat step_supersets.
  - vm_compute. reflexivity.
  - vm_compute. reflexivity.
  - vm_compute. reflexivity.
Qed.

(** ** Status after a reload *)

Lemma reload_eq (b : Backend) (op : StakingOperation.t) (st : State) :
  StakingOperation.reload b op st
  = match fetched b op with
    | None => (st, inr (StakingOperation.loadTransactionsFromModel op))
    | Some answer =>
        ({| heap := heap st;
            log := log st ++ [match StakingOperation.getWalletID op with
                              | None =>
                                  GetExternalStakingOperation
                                    (StakingOperation.getNetworkID op)
                                    (StakingOperation.getAddressID op)
                                    (StakingOperation.getID op)
                              | Some walletId =>
                                  GetStakingOperation walletId
                                    (StakingOperation.getAddressID op)
                                    (StakingOperation.getID op)
                              end];
            now := now st |},
         match answer with
         | inl e => inl e
         | inr snapshot =>
             inr (StakingOperation.loadTransactionsFromModel
                    (StakingOperation.mk snapshot (StakingOperation.transactions op)))
         end)
    end.
Proof.
  unfold StakingOperation.reload, fetched, bindM, request, retM.
  destruct (StakingOperation.getWalletID op) as [w|];
    [destruct (negb (w =? ""))%string|]; simpl; try reflexivity.
  - destruct (getStakingOperation b w _ _); reflexivity.
  - destruct (getExternalStakingOperation b _ _ _); reflexivity.
Qed.

Lemma model_loadTransactionsFromModel (op : StakingOperation.t) :
  StakingOperation.model (StakingOperation.loadTransactionsFromModel op)
  = StakingOperation.model op.
Proof. now rewrite loadTransactionsFromModel_eq. Qed.

(** C2, amended.  For an operation whose status is Complete or Failed, a
    [reload] that returns has replaced the stored snapshot by the fetched
    one: the status afterwards is the status of the fetched snapshot, so it
    keeps the terminal value exactly when the fetched snapshot still reports
    that value; when nothing is fetched the snapshot, and with it the status,
    is unchanged. *)
Theorem reload_status_is_snapshot_status
    (b : Backend) (op op' : StakingOperation.t) (st st' : State) :
  StakingOperation.isTerminalState op = true ->
  StakingOperation.reload b op st = (st', inr op') ->
  match fetched b op with
  | Some (inr snapshot) =>
      StakingOperation.model op' = snapshot
      /\ (StakingOperation.getStatus op' = StakingOperation.getStatus op
          <-> StakingOperationModel.status snapshot = StakingOperation.getStatus op)
  | Some (inl _) => False
  | None => StakingOperation.model op' = StakingOperation.model op
  end.
Proof.
  intros _ Hreload. rewrite reload_eq in Hreload.
  destruct (fetched b op) as [[e|snapshot]|].
  - discriminate.
  - injection Hreload as _ <-. rewrite model_loadTransactionsFromModel.
    split; [reflexivity|]. unfold StakingOperation.getStatus.
    rewrite model_loadTransactionsFromModel. reflexivity.
  - injection Hreload as _ <-. apply model_loadTransactionsFromModel.
Qed.

Lemma reload_status_is_snapshot_status_witness :
  StakingOperation.model
    (StakingOperation.loadTransactionsFromModel
       (StakingOperation.mk
          (snapshot_of None StakingOperationStatusEnum.Complete
             ["0xaa"; "0xbb"]%string)
          (StakingOperation.transactions completed_operation)))
  = snapshot_of None StakingOperationStatusEnum.Complete ["0xaa"; "0xbb"]%string
  /\ (StakingOperation.getStatus
        (StakingOperation.loadTransactionsFromModel
           (StakingOperation.mk
              (snapshot_of None StakingOperationStatusEnum.Complete
                 ["0xaa"; "0xbb"]%string)
              (StakingOperation.transactions completed_operation)))
      = StakingOperation.getStatus completed_operation
      <-> StakingOperationModel.status
            (snapshot_of None StakingOperationStatusEnum.Complete
               ["0xaa"; "0xbb"]%string)
          = StakingOperation.getStatus completed_operation).
Proof.
  apply (reload_status_is_snapshot_status
           (answering (snapshot_of None StakingOperationStatusEnum.Complete
                         ["0xaa"; "0xbb"]%string))
           completed_operation _ initial_state
           {| heap := ∅;
              log := [GetExternalStakingOperation "ethereum-mainnet" "0xf00d" "op-1"];
              now := 0 |}).
  - reflexivity.
  - reflexivity.
Defined.

(** C2 as stated fails: the backend answers a completed operation with an
    "initialized" snapshot, and after [reload] the operation is no longer in
    a terminal state. *)
Lemma reload_reverts_terminal_status_counterexample :
  StakingOperation.isTerminalState completed_operation = true
  /\ exists st' op',
       StakingOperation.reload reverting_backend completed_operation initial_state
       = (st', inr op')
       /\ StakingOperation.getStatus op' = StakingOperationStatusEnum.Initialized
       /\ StakingOperation.isTerminalState op' = false.
Proof.
  split; [reflexivity|]. eexists _, _. split; [reflexivity|].
  split; reflexivity.
Qed.

(** ** The empty wallet id *)

(** C10.  For an operation object whose wallet id is the empty string,
    [reload] sends no request and returns the object as it was, snapshot and
    local list unchanged; [fetch] with the empty string as wallet id throws
    "Invalid wallet ID" without sending a request. *)
Theorem reload_with_blank_wallet_id
    (b : Backend) (op : StakingOperation.t) (st : State)
    (networkId addressId operationId : string) :
  StakingOperation.reachable op ->
  StakingOperation.getWalletID op = Some ""%string ->
  StakingOperation.reload b op st = (st, inr op)
  /\ fetched b op = None
  /\ StakingOperation.fetch b networkId addressId operationId (Some ""%string) st
     = (st, inl (JsError "Invalid wallet ID")).
Proof.
  intros Hreach Hw.
  assert (Hf : fetched b op = None) by (unfold fetched; now rewrite Hw).
  split; [|split; [exact Hf|reflexivity]].
  rewrite reload_eq, Hf. do 2 f_equal.
  apply load_loaded, reachable_loaded, Hreach.
Qed.

Lemma reload_with_blank_wallet_id_witness :
  StakingOperation.reload reverting_backend blank_wallet_operation initial_state
  = (initial_state, inr blank_wallet_operation)
  /\ fetched reverting_backend blank_wallet_operation = None
  /\ StakingOperation.fetch reverting_backend "ethereum-mainnet" "0xf00d" "op-1"
       (Some ""%string) initial_state
     = (initial_state, inl (JsError "Invalid wallet ID")).
Proof.
  apply (reload_with_blank_wallet_id reverting_backend blank_wallet_operation
           initial_state "ethereum-mainnet" "0xf00d" "op-1").
  - apply (StakingOperation.reachable_new
             (snapshot_of (Some ""%string) "pending" ["0xaa"%string])).
    reflexivity.
  - reflexivity.
Defined.

(** ** The consensus-layer exit options builder *)

Section Builder.

Import ConsensusLayerExitOptionBuilder.

Lemma first_seen_fresh (l : list string) :
  forall seen : gset string,
    NoDup (first_seen seen l)
    /\ forall x, x ∈ first_seen seen l -> x ∉ seen.
Proof.
  induction l as [|x l IH]; intros seen; simpl.
  - split; [constructor|]. intros y Hy. now apply elem_of_nil in Hy.
  - destruct (decide (x ∈ seen)) as [Hin|Hin].
    + rewrite bool_decide_eq_true_2 by assumption. apply IH.
    + rewrite bool_decide_eq_false_2 by assumption.
      destruct (IH ({[x]} ∪ seen)) as [Hnd Hfresh]. split.
      * constructor; [|assumption]. intros Hx. apply (Hfresh x Hx). set_solver.
      * intros y [->|Hy]%elem_of_cons; [assumption|].
        specialize (Hfresh y Hy). set_solver.
Qed.

Lemma addValidators_eq (pubKeys : list string) :
  forall acc : list string,
    validatorPubKeys (addValidators pubKeys (mk acc))
    = acc ++ first_seen (list_to_set acc) pubKeys.
Proof.
  unfold addValidators.
  induction pubKeys as [|k ks IH]; intros acc; simpl.
  - now rewrite app_nil_r.
  - unfold addValidator at 2. cbn [validatorPubKeys].
    destruct (decide (k ∈ acc)) as [Hin|Hin].
    + rewrite !bool_decide_eq_true_2; [|now apply elem_of_list_to_set|assumption].
      simpl. apply IH.
    + rewrite !bool_decide_eq_false_2;
        [|now rewrite elem_of_list_to_set|assumption].
      simpl. rewrite IH, <- app_assoc. simpl. do 2 f_equal.
      rewrite list_to_set_app_L. simpl. f_equal. set_solver.
Qed.

Lemma append_empty_r (s : string) : String.append s EmptyString = s.
Proof.
  induction s as [|c s IH]; [reflexivity|].
  change (String c (String.append s EmptyString) = String c s). now rewrite IH.
Qed.

Lemma join_eq (sep k : string) (ks : list string) :
  join sep (k :: ks)
  = String.append k
      (foldr (fun x r => String.append sep (String.append x r)) EmptyString ks).
Proof.
  unfold join. revert k. induction ks as [|x ks IH]; intros k.
  - cbn [foldr]. now rewrite append_empty_r.
  - change (String.concat sep (k :: x :: ks))
      with (String.append k (String.append sep (String.concat sep (x :: ks)))).
    now rewrite IH.
Qed.

(** Assigning onto an object made by [{}]. *)
Lemma assign_all_fresh (source : Options) :
  assign_all source ∅ = delete "__proto__"%string source.
Proof.
  unfold assign_all. rewrite lookup_empty.
  destruct (decide (is_Some None)) as [[? [=]]|_].
  apply (right_id_L ∅ (∪)).
Qed.

(** Assigning the fields a builder computes onto an object that has no
    property "__proto__". *)
Lemma assign_all_computed (k1 v1 k2 v2 : string) (target : Options) :
  k1 <> "__proto__"%string -> k2 <> "__proto__"%string ->
  target !! "__proto__"%string = None ->
  assign_all (<[k1 := v1]> (<[k2 := v2]> ∅)) target
  = <[k1 := v1]> (<[k2 := v2]> target).
Proof.
  intros H1 H2 Ht. unfold assign_all. rewrite Ht.
  destruct (decide (is_Some None)) as [[? [=]]|_].
  rewrite delete_id by now rewrite !lookup_insert_ne.
  now rewrite <- !insert_union_l, (left_id_L ∅ (∪)).
Qed.

Lemma build_eq (builder : t) (st : State) (options : loc) (o : Options) :
  heap st !! options = Some o ->
  let computed : Options :=
    <["validator_pub_keys"%string := join "," (validatorPubKeys builder)]>
      (<["unstake_type"%string := UnstakeTypeConsensus]> ∅) in
  let l1 := fresh (dom (heap st)) in
  let l2 := fresh (dom (<[l1 := computed]> (heap st))) in
  build builder (Some options) st
  = ({| heap := <[l2 := <["validator_pub_keys"%string :=
                           join "," (validatorPubKeys builder)]>
                          (<["unstake_type"%string := UnstakeTypeConsensus]>
                             (delete "__proto__"%string o))]>
                  (<[l2 := ∅]> (<[l1 := computed]> (heap st)));
        log := log st; now := now st |}, inr l2).
Proof.
  intros Ho computed l1 l2.
  assert (H1 : l1 ∉ dom (heap st)) by apply is_fresh.
  assert (H2 : l2 ∉ dom (<[l1 := computed]> (heap st))) by apply is_fresh.
  assert (Hne1 : l1 <> options).
  { intros ->. apply H1, elem_of_dom. now exists o. }
  assert (Hne2 : l2 <> l1).
  { intros Heq. apply H2. rewrite Heq, dom_insert_L. set_solver. }
  assert (Hne3 : l2 <> options).
  { intros Heq. apply H2. rewrite Heq, dom_insert_L.
    apply elem_of_union_r, elem_of_dom. now exists o. }
  unfold build, bindM, retM, alloc, Object_assign. cbn [heap log now].
  fold computed. fold l1. fold l2. cbn [foldl].
  rewrite lookup_insert_eq.
  rewrite (lookup_insert_ne _ l2 options) by assumption.
  rewrite (lookup_insert_ne _ l1 options) by assumption.
  rewrite (lookup_insert_ne _ l2 l1) by assumption.
  rewrite lookup_insert_eq, Ho. cbn [default]. unfold id.
  rewrite assign_all_fresh. unfold computed.
  rewrite assign_all_computed; [reflexivity|discriminate|discriminate|].
  apply lookup_delete_eq.
Qed.

End Builder.

(** C9, amended.  After any sequence of [addValidator] calls the builder
    holds the keys without repetition, in the order of their first
    insertion.  [build(options)] sends no request and returns a new object:
    [unstake_type] is "consensus", [validator_pub_keys] is the text of the
    held keys with a comma between neighbours, and every other entry is the
    caller's, except an entry named "__proto__", which the new object never
    has.  The two computed fields overwrite entries of the caller under the
    same names.  No object that existed before the call is changed, in
    particular the caller's options, so [build] can be called again with
    other options over the same keys. *)
Theorem consensus_builder_builds_merged_options
    (pubKeys : list string) (st : State) (options : loc) (o : Options) :
  heap st !! options = Some o ->
  let builder := addValidators pubKeys ConsensusLayerExitOptionBuilder.new in
  let held := first_seen ∅ pubKeys in
  let joined : string :=
    match held with
    | [] => EmptyString
    | k :: ks =>
        String.append k
          (foldr (fun x r => String.append "," (String.append x r)) EmptyString ks)
    end in
  ConsensusLayerExitOptionBuilder.validatorPubKeys builder = held
  /\ NoDup (ConsensusLayerExitOptionBuilder.validatorPubKeys builder)
  /\ exists st' result merged,
       ConsensusLayerExitOptionBuilder.build builder (Some options) st
       = (st', inr result)
       /\ heap st' !! result = Some merged
       /\ merged !! "unstake_type"%string = Some "consensus"%string
       /\ merged !! "validator_pub_keys"%string = Some joined
       /\ (forall k : string,
             k <> "unstake_type"%string -> k <> "validator_pub_keys"%string ->
             k <> "__proto__"%string ->
             merged !! k = o !! k)
       /\ merged !! "__proto__"%string = None
       /\ heap st !! result = None
       /\ (forall l, is_Some (heap st !! l) -> heap st' !! l = heap st !! l)
       /\ heap st' !! options = Some o
       /\ log st' = log st.
Proof.
  intros Ho builder held joined.
  assert (Hkeys : ConsensusLayerExitOptionBuilder.validatorPubKeys builder = held).
  { unfold builder, ConsensusLayerExitOptionBuilder.new.
    now rewrite addValidators_eq. }
  assert (Hjoin : join "," held = joined).
  { unfold joined. destruct held as [|k ks]; [reflexivity|apply join_eq]. }
  split; [exact Hkeys|]. split.
  { rewrite Hkeys. apply first_seen_fresh. }
  rewrite (build_eq builder st options o Ho), Hkeys, Hjoin.
  set (computed := <["validator_pub_keys"%string := _]> (<[_ := _]> ∅)).
  set (l1 := fresh (dom (heap st))).
  set (l2 := fresh (dom (<[l1 := computed]> (heap st)))).
  set (merged := <["validator_pub_keys"%string := joined]> _).
  assert (H1 : l1 ∉ dom (heap st)) by apply is_fresh.
  assert (H2 : l2 ∉ dom (<[l1 := computed]> (heap st))) by apply is_fresh.
  assert (Hold : forall l, is_Some (heap st !! l) -> l <> l1 /\ l <> l2).
  { intros l Hl%elem_of_dom. split; intros ->; [now apply H1|].
    apply H2. rewrite dom_insert_L. now apply elem_of_union_r. }
  assert (Hkeep : forall l, is_Some (heap st !! l) ->
            <[l2 := merged]> (<[l2 := ∅]> (<[l1 := computed]> (heap st))) !! l
            = heap st !! l).
  { intros l Hl. destruct (Hold l Hl) as [Hl1 Hl2].
    now rewrite !lookup_insert_ne by congruence. }
  exists {| heap := <[l2 := merged]> (<[l2 := ∅]> (<[l1 := computed]> (heap st)));
            log := log st; now := now st |}, l2, merged.
  split; [reflexivity|]. cbn [heap log].
  split; [apply lookup_insert_eq|]. split.
  { unfold merged. rewrite lookup_insert_ne by discriminate.
    apply lookup_insert_eq. }
  split; [apply lookup_insert_eq|]. split.
  { intros k Hk1 Hk2 Hk3. unfold merged.
    rewrite !lookup_insert_ne by congruence. now apply lookup_delete_ne. }
  split.
  { unfold merged. rewrite !lookup_insert_ne by discriminate.
    apply lookup_delete_eq. }
  split.
  { apply not_elem_of_dom. intros Hin. apply H2. rewrite dom_insert_L.
    now apply elem_of_union_r. }
  split; [exact Hkeep|]. split; [|reflexivity].
  rewrite Hkeep, Ho; [reflexivity|now rewrite Ho].
Qed.

Lemma consensus_builder_builds_merged_options_witness :
  let pubKeys := ["0xk1"; "0xk2"; "0xk1"]%string in
  let o : Options :=
    <["unstake_type"%string := "execution"%string]>
      (<["immediate"%string := "true"%string]> ∅) in
  let st := state_with_options o in
  let builder := addValidators pubKeys ConsensusLayerExitOptionBuilder.new in
  ConsensusLayerExitOptionBuilder.validatorPubKeys builder = ["0xk1"; "0xk2"]%string
  /\ NoDup (ConsensusLayerExitOptionBuilder.validatorPubKeys builder)
  /\ exists st' result merged,
       ConsensusLayerExitOptionBuilder.build builder (Some 0%nat) st
       = (st', inr result)
       /\ heap st' !! result = Some merged
       /\ merged !! "unstake_type"%string = Some "consensus"%string
       /\ merged !! "validator_pub_keys"%string = Some "0xk1,0xk2"%string
       /\ (forall k : string,
             k <> "unstake_type"%string -> k <> "validator_pub_keys"%string ->
             k <> "__proto__"%string ->
             merged !! k = o !! k)
       /\ merged !! "__proto__"%string = None
       /\ heap st !! result = None
       /\ (forall l, is_Some (heap st !! l) -> heap st' !! l = heap st !! l)
       /\ heap st' !! 0%nat = Some o
       /\ log st' = log st.
Proof.
  intros pubKeys o st.
  apply (consensus_builder_builds_merged_options pubKeys st 0%nat o).
  reflexivity.
Defined.

(** C9 as stated fails for options that have an entry named "__proto__":
    [Object.assign] writes it by assignment onto the new object, where it
    makes no property, so the object that [build] returns is not the
    caller's options merged with the two computed fields. *)
Lemma consensus_builder_proto_entry_counterexample :
  let o : Options := <["__proto__"%string := "x"%string]> ∅ in
  let st := state_with_options o in
  let builder := addValidators ["0xk1"%string] ConsensusLayerExitOptionBuilder.new in
  let run := ConsensusLayerExitOptionBuilder.build builder (Some 0%nat) st in
  exists result merged,
    run.2 = inr result
    /\ heap run.1 !! result = Some merged
    /\ o !! "__proto__"%string = Some "x"%string
    /\ merged !! "__proto__"%string = None
    /\ merged
       <> <["validator_pub_keys"%string := "0xk1"%string]>
            (<["unstake_type"%string := "consensus"%string]> o).
Proof.
  intros o st builder run.
  exists 2%nat,
    (<["validator_pub_keys"%string := "0xk1"%string]>
       (<["unstake_type"%string := "consensus"%string]> ∅)).
  split; [reflexivity|]. split; [reflexivity|]. split; [reflexivity|].
  split; [reflexivity|].
  intros Heq.
  apply (f_equal (fun m : Options => m !! "__proto__"%string)) in Heq.
  vm_compute in Heq. discriminate.
Qed.

(** ** The balance gate *)

Section Gate.

Variable Balance_amount : BalanceModel -> string -> Decimal.t.
Variable render : Decimal.t -> string.

Implicit Types (b : Backend) (a : Address.t) (st : State).

Lemma getStakingBalances_eq b a assetId mode options st :
  let o := default ∅ (heap st !! options) in
  let req := context_request a assetId mode o in
  Address.getStakingBalances Balance_amount b a assetId mode options st
  = (with_copy st (<["mode"%string := mode_string mode]> o) [GetStakingContext req],
     match getStakingContext b req with
     | inl e => inl e
     | inr response =>
         inr {| stakeableBalance_ :=
                  Balance_amount (stakeable_balance response) assetId;
                unstakeableBalance_ :=
                  Balance_amount (unstakeable_balance response) assetId;
                pendingClaimableBalance_ :=
                  Balance_amount (pending_claimable_balance response) assetId;
                claimableBalance_ :=
                  Balance_amount (claimable_balance response) assetId |}
     end).
Proof.
  intros o req.
  unfold Address.getStakingBalances, Address.copyOptions, bindM, deref, alloc,
    assign, request, retM, with_copy.
  cbn [heap log now]. rewrite !lookup_insert_eq. cbn [default]. unfold id.
  fold o. rewrite insert_insert_eq.
  change {| ctx_network_id := _; ctx_asset_id := _; ctx_address_id := _;
            ctx_options := _ |} with req.
  destruct (getStakingContext b req); reflexivity.
Qed.

Lemma validateCanStake_eq b a amount assetId mode options st :
  let o := default ∅ (heap st !! options) in
  let req := context_request a assetId mode o in
  Address.validateCanStake Balance_amount render b a amount assetId mode options st
  = (with_copy st (<["mode"%string := mode_string mode]> o) [GetStakingContext req],
     match getStakingContext b req with
     | inl e => inl e
     | inr response =>
         let available := Balance_amount (stakeable_balance response) assetId in
         if Decimal.lessThan available amount
         then inl (JsError (Address.insufficient render amount "stake" available))
         else inr tt
     end).
Proof.
  intros o req.
  unfold Address.validateCanStake, Address.stakeableBalance, bindM at 1 2.
  rewrite getStakingBalances_eq. fold o req.
  destruct (getStakingContext b req) as [e|response]; [reflexivity|].
  cbn [stakeableBalance_ retM].
  destruct (Decimal.lessThan _ amount); reflexivity.
Qed.

Lemma validateCanUnstake_eq b a amount assetId mode options st :
  let o := default ∅ (heap st !! options) in
  let req := context_request a assetId mode o in
  Address.validateCanUnstake Balance_amount render b a amount assetId mode options st
  = (with_copy st (<["mode"%string := mode_string mode]> o) [GetStakingContext req],
     match getStakingContext b req with
     | inl e => inl e
     | inr response =>
         let available := Balance_amount (unstakeable_balance response) assetId in
         if Decimal.lessThan available amount
         then inl (JsError (Address.insufficient render amount "unstake" available))
         else inr tt
     end).
Proof.
  intros o req.
  unfold Address.validateCanUnstake, Address.unstakeableBalance, bindM at 1 2.
  rewrite getStakingBalances_eq. fold o req.
  destruct (getStakingContext b req) as [e|response]; [reflexivity|].
  cbn [unstakeableBalance_ retM].
  destruct (Decimal.lessThan _ amount); reflexivity.
Qed.

Lemma validateCanClaimStake_eq b a amount assetId mode options st :
  let o := default ∅ (heap st !! options) in
  let req := context_request a assetId mode o in
  Address.validateCanClaimStake Balance_amount render b a amount assetId mode
    options st
  = if String.eqb assetId "eth" && bool_decide (mode = NATIVE) then
      (st, inl (JsError "Claiming stake for ETH is not supported in native mode."))
    else
      (with_copy st (<["mode"%string := mode_string mode]> o) [GetStakingContext req],
       match getStakingContext b req with
       | inl e => inl e
       | inr response =>
           let available := Balance_amount (claimable_balance response) assetId in
           if Decimal.lessThan available amount
           then inl (JsError
                       (Address.insufficient render amount "claim stake" available))
           else inr tt
       end).
Proof.
  intros o req. unfold Address.validateCanClaimStake.
  destruct (String.eqb assetId "eth" && bool_decide (mode = NATIVE));
    [reflexivity|].
  unfold Address.claimableBalance, bindM at 1 2.
  rewrite getStakingBalances_eq. fold o req.
  destruct (getStakingContext b req) as [e|response]; [reflexivity|].
  cbn [claimableBalance_ retM].
  destruct (Decimal.lessThan _ amount); reflexivity.
Qed.

(** C6.  Let the backend answer the staking-context request of the gate
    with [context].  [validateCanStake] and [validateCanUnstake] always
    fetch it and compare the amount with the stakeable, respectively
    unstakeable, balance; [validateCanClaimStake] fetches it, and compares
    the amount with the claimable balance, in every case but that of the
    asset "eth" in NATIVE mode, where it asks for nothing.  Whenever a
    validation has fetched the balance: with the amount equal to the
    fetched balance it returns, and with the amount above it, it throws
    the insufficiency error whose message prints the requested amount and
    the available balance. *)
Theorem balance_gate_boundary b a amount assetId mode options st context :
  getStakingContext b
    (context_request a assetId mode (default ∅ (heap st !! options)))
  = inr context ->
  let req := context_request a assetId mode (default ∅ (heap st !! options)) in
  let asked (run : State * Result unit) : Prop :=
    log run.1 = log st ++ [GetStakingContext req] in
  let stake :=
    Address.validateCanStake Balance_amount render b a amount assetId mode options st in
  let unstake :=
    Address.validateCanUnstake Balance_amount render b a amount assetId mode options st in
  let claim :=
    Address.validateCanClaimStake Balance_amount render b a amount assetId mode
      options st in
  let stakeable := Balance_amount (stakeable_balance context) assetId in
  let unstakeable := Balance_amount (unstakeable_balance context) assetId in
  let claimable := Balance_amount (claimable_balance context) assetId in
  (asked stake
   /\ (Decimal.equals amount stakeable = true -> stake.2 = inr tt)
   /\ (Decimal.lessThan stakeable amount = true ->
       stake.2 = inl (JsError (Address.insufficient render amount "stake" stakeable))))
  /\ (asked unstake
      /\ (Decimal.equals amount unstakeable = true -> unstake.2 = inr tt)
      /\ (Decimal.lessThan unstakeable amount = true ->
          unstake.2
          = inl (JsError (Address.insufficient render amount "unstake" unstakeable))))
  /\ ((asked claim <-> ~ (assetId = "eth"%string /\ mode = NATIVE))
      /\ (~ asked claim -> claim.1 = st)
      /\ (asked claim ->
          (Decimal.equals amount claimable = true -> claim.2 = inr tt)
          /\ (Decimal.lessThan claimable amount = true ->
              claim.2
              = inl (JsError
                       (Address.insufficient render amount "claim stake"
                          claimable))))).
Proof.
  intros Hctx req asked stake unstake claim stakeable unstakeable claimable.
  change (getStakingContext b req = inr context) in Hctx.
  assert (Hle : forall x y, Decimal.equals x y = true -> Decimal.lessThan y x = false).
  { intros x y H. unfold Decimal.equals, Decimal.lessThan, Decimal.align in *.
    apply Z.eqb_eq in H. apply Z.ltb_ge.
    rewrite (Z.min_comm (Decimal.expn y)). lia. }
  split; [|split].
  - unfold asked, stake. rewrite validateCanStake_eq. cbv zeta. fold req.
    rewrite Hctx. cbn [fst snd with_copy log]. fold stakeable.
    split; [reflexivity|split]; intros H.
    + now rewrite (Hle _ _ H).
    + now rewrite H.
  - unfold asked, unstake. rewrite validateCanUnstake_eq. cbv zeta. fold req.
    rewrite Hctx. cbn [fst snd with_copy log]. fold unstakeable.
    split; [reflexivity|split]; intros H.
    + now rewrite (Hle _ _ H).
    + now rewrite H.
  - unfold asked, claim. rewrite validateCanClaimStake_eq. cbv zeta. fold req.
    destruct (String.eqb assetId "eth" && bool_decide (mode = NATIVE)) eqn:Hg.
    + apply andb_true_iff in Hg as [Hasset Hmode].
      apply String.eqb_eq in Hasset. apply bool_decide_eq_true in Hmode.
      cbn [fst snd].
      assert (Hnot : log st <> log st ++ [GetStakingContext req]).
      { intros Heq. apply (f_equal length) in Heq.
        rewrite length_app in Heq. simpl in Heq. lia. }
      split; [|split].
      * split; [intros H; now destruct Hnot|intros H; now destruct H].
      * reflexivity.
      * intros H. now destruct Hnot.
    + rewrite Hctx. cbn [fst snd with_copy log]. fold claimable.
      split; [|split].
      * split; [|reflexivity]. intros _ [Hasset Hmode].
        apply andb_false_iff in Hg as [Hg|Hg].
        -- apply String.eqb_neq in Hg. contradiction.
        -- apply bool_decide_eq_false in Hg. contradiction.
      * intros H. now destruct H.
      * intros _. split; intros H.
        -- now rewrite (Hle _ _ H).
        -- now rewrite H.
Qed.

(** C7.  [validateCanClaimStake] for the asset "eth" in NATIVE mode throws,
    whatever the amount and the options, and the state is as before the
    call: no balance was requested. *)
Theorem claim_stake_native_eth_rejected b a amount options st :
  Address.validateCanClaimStake Balance_amount render b a amount "eth" NATIVE
    options st
  = (st, inl (JsError "Claiming stake for ETH is not supported in native mode.")).
Proof. reflexivity. Qed.

End Gate.

Lemma balance_gate_boundary_witness :
  (Address.validateCanStake example_balance_amount Decimal.toFixed gate_backend
     example_address (Decimal.of_Z 5) "wei" DEFAULT 0%nat (state_with_options ∅)).2
  = inr tt
  /\ (Address.validateCanUnstake example_balance_amount Decimal.toFixed gate_backend
        example_address (Decimal.of_Z 5) "wei" DEFAULT 0%nat (state_with_options ∅)).2
     = inl (JsError "Insufficient funds 5 requested to unstake, only 3 available.")
  /\ (Address.validateCanClaimStake example_balance_amount Decimal.toFixed
        gate_backend example_address (Decimal.of_Z 2) "wei" DEFAULT 0%nat
        (state_with_options ∅)).2
     = inr tt
  /\ (Address.validateCanClaimStake example_balance_amount Decimal.toFixed
        gate_backend example_address (Decimal.of_Z 3) "wei" NATIVE 0%nat
        (state_with_options ∅)).2
     = inl (JsError "Insufficient funds 3 requested to claim stake, only 2 available.")
  /\ (Address.validateCanClaimStake example_balance_amount Decimal.toFixed
        gate_backend example_address (Decimal.of_Z 2) "eth" NATIVE 0%nat
        (state_with_options ∅)).1
     = state_with_options ∅.
Proof.
  destruct (balance_gate_boundary example_balance_amount Decimal.toFixed
              gate_backend example_address (Decimal.of_Z 5) "wei" DEFAULT 0%nat
              (state_with_options ∅) _ eq_refl)
    as ((_ & Hstake & _) & (_ & _ & Hunstake) & _).
  destruct (balance_gate_boundary example_balance_amount Decimal.toFixed
              gate_backend example_address (Decimal.of_Z 2) "wei" DEFAULT 0%nat
              (state_with_options ∅) _ eq_refl)
    as (_ & _ & _ & _ & Hclaim).
  destruct (balance_gate_boundary example_balance_amount Decimal.toFixed
              gate_backend example_address (Decimal.of_Z 3) "wei" NATIVE 0%nat
              (state_with_options ∅) _ eq_refl)
    as (_ & _ & _ & _ & Habove).
  destruct (balance_gate_boundary example_balance_amount Decimal.toFixed
              gate_backend example_address (Decimal.of_Z 2) "eth" NATIVE 0%nat
              (state_with_options ∅) _ eq_refl)
    as (_ & _ & Hfetch & Hnothing & _).
  split; [|split; [|split; [|split]]].
  - apply Hstake. reflexivity.
  - apply Hunstake. reflexivity.
  - apply Hclaim; reflexivity.
  - apply Habove; reflexivity.
  - apply Hnothing. intros H. apply Hfetch in H. apply H. now split.
Defined.

(** ** Building the staking request *)

Section Build.

Implicit Types (b : Backend) (a : Address.t) (st : State).

Lemma HasUnstakeTypeOption_insert (key value : string) (o : Options) :
  key <> "unstake_type"%string ->
  HasUnstakeTypeOption (<[key := value]> o) = HasUnstakeTypeOption o.
Proof.
  intros Hk. unfold HasUnstakeTypeOption. now rewrite lookup_insert_ne.
Qed.

Lemma IsDedicated_mode assetId action mode (o : Options) :
  IsDedicatedEthUnstakeV2Operation assetId action mode
    (<["mode"%string := mode_string mode]> o)
  = IsDedicatedEthUnstakeV2Operation assetId action mode o.
Proof.
  unfold IsDedicatedEthUnstakeV2Operation.
  now rewrite HasUnstakeTypeOption_insert.
Qed.

Lemma IsDedicated_spec assetId action mode (o : Options) :
  IsDedicatedEthUnstakeV2Operation assetId action mode o = true
  <-> assetId = "eth"%string /\ action = "unstake"%string /\ mode = NATIVE
      /\ (o !! "unstake_type"%string = Some "consensus"%string
          \/ o !! "unstake_type"%string = Some "execution"%string).
Proof.
  unfold IsDedicatedEthUnstakeV2Operation, HasUnstakeTypeOption.
  rewrite !andb_true_iff, orb_true_iff, !bool_decide_eq_true, !String.eqb_eq.
  unfold Coinbase.Eth, UnstakeTypeConsensus, UnstakeTypeExecution. tauto.
Qed.

Lemma default_some {A : Type} (d x : A) : default d (Some x) = x.
Proof. reflexivity. Qed.

Lemma Asset_fetch_eq b a assetId st :
  Asset_fetch b (Address.getNetworkId a) assetId st
  = ({| heap := heap st; log := log st ++ [asset_lookup a assetId];
        now := now st |},
     match getAsset b (Coinbase.normalizeNetwork (Address.getNetworkId a))
             (Asset.primaryDenomination assetId) with
     | inl e => inl e
     | inr am => Asset.fromModel am (Some assetId)
     end).
Proof.
  unfold Asset_fetch, bindM, request, liftR, asset_lookup.
  destruct (getAsset b _ _); reflexivity.
Qed.

Lemma buildStakingOperation_eq b a amount assetId action mode options st :
  let o := default ∅ (heap st !! options) in
  let withMode := <["mode"%string := mode_string mode]> o in
  let call := asset_lookup a assetId in
  let send (sent : Options) : State * Result StakingOperation.t :=
    (with_copy st sent
       [call; BuildStakingOperation (staking_request a assetId action sent)],
     match buildStakingOperation b (staking_request a assetId action sent) with
     | inl e => inl e
     | inr response => StakingOperation.new (Some response)
     end) in
  ExternalAddress.buildStakingOperation b a amount assetId action mode options st
  = match (Asset_fetch b (Address.getNetworkId a) assetId st).2 with
    | inl e =>
        ({| heap := heap st; log := log st ++ [call]; now := now st |}, inl e)
    | inr asset =>
        if IsDedicatedEthUnstakeV2Operation assetId action mode o
        then send withMode
        else if Decimal.lessThanOrEqualTo amount (Decimal.of_Z 0)
        then (with_copy st withMode [call],
              inl (JsError "Amount required greater than zero."))
        else match Asset.toAtomicAmount asset amount with
             | inl e => (with_copy st withMode [call], inl e)
             | inr atomic =>
                 send (<["amount"%string := Decimal.string_of_Z atomic]> withMode)
             end
    end.
Proof.
  intros o withMode call send.
  unfold ExternalAddress.buildStakingOperation.
  unfold bindM at 1. rewrite Asset_fetch_eq. cbn [snd]. fold call.
  destruct (match getAsset b _ _ with inl e => inl e | inr am => _ end)
    as [e|asset]; [reflexivity|].
  unfold Address.copyOptions, bindM, deref, alloc, assign, retM, throwM, liftR.
  cbn [heap log now]. fold o.
  rewrite !lookup_insert_eq, !default_some, insert_insert_eq. fold withMode.
  pose proof (IsDedicated_mode assetId action mode o) as Hd.
  fold withMode in Hd. rewrite Hd. clear Hd.
  destruct (IsDedicatedEthUnstakeV2Operation assetId action mode o).
  - cbn [negb heap log now]. rewrite lookup_insert_eq, default_some.
    unfold send, with_copy, staking_request, request. cbn [heap log now].
    rewrite <- app_assoc.
    destruct (buildStakingOperation b _); reflexivity.
  - cbn [negb].
    destruct (Decimal.lessThanOrEqualTo amount (Decimal.of_Z 0)); [reflexivity|].
    destruct (Asset.toAtomicAmount asset amount) as [e|atomic]; [reflexivity|].
    cbn [heap log now]. rewrite !lookup_insert_eq, !default_some.
    rewrite insert_insert_eq.
    unfold send, with_copy, staking_request, request. cbn [heap log now].
    rewrite <- app_assoc.
    destruct (buildStakingOperation b _); reflexivity.
Qed.

Lemma drop_log (st : State) (c : list ApiCall) :
  drop (length (log st)) (log st ++ c) = c.
Proof. now rewrite drop_app_length. Qed.

(** C3, amended.  Let the asset be resolved.  The request is exempt exactly
    when the asset is "eth", the action "unstake", the mode NATIVE and the
    caller's options carry [unstake_type] "execution" or "consensus".  For
    an exempt request [buildStakingOperation] sends the caller's options
    with only the mode added: no amount is attached, and the request has an
    amount entry only if the caller's options had one.  For any other
    request with a positive amount whose conversion succeeds it sends the
    options with [amount] set to the printed atomic amount.  In every
    request it sends, the amount entry is missing exactly when the request
    is exempt and the caller's options had none, and for a request that is
    not exempt it is the printed atomic conversion of the amount. *)
Theorem amount_attached_unless_exempt
    b a amount assetId action mode options st asset :
  (Asset_fetch b (Address.getNetworkId a) assetId st).2 = inr asset ->
  let o := default ∅ (heap st !! options) in
  let withMode := <["mode"%string := mode_string mode]> o in
  let exempt := IsDedicatedEthUnstakeV2Operation assetId action mode o in
  let run :=
    ExternalAddress.buildStakingOperation b a amount assetId action mode options st in
  (exempt = true
   <-> assetId = "eth"%string /\ action = "unstake"%string /\ mode = NATIVE
       /\ (o !! "unstake_type"%string = Some "consensus"%string
           \/ o !! "unstake_type"%string = Some "execution"%string))
  /\ (exempt = true ->
      log run.1
      = log st ++ [asset_lookup a assetId;
                   BuildStakingOperation (staking_request a assetId action withMode)]
      /\ withMode !! "amount"%string = o !! "amount"%string)
  /\ (exempt = false ->
      forall atomic,
        Decimal.lessThanOrEqualTo amount (Decimal.of_Z 0) = false ->
        Asset.toAtomicAmount asset amount = inr atomic ->
        log run.1
        = log st ++ [asset_lookup a assetId;
                     BuildStakingOperation
                       (staking_request a assetId action
                          (<["amount"%string := Decimal.string_of_Z atomic]> withMode))])
  /\ (forall req,
        BuildStakingOperation req ∈ drop (length (log st)) (log run.1) ->
        (req_options req !! "amount"%string = None
         <-> exempt = true /\ o !! "amount"%string = None)
        /\ (exempt = false ->
            exists atomic,
              Asset.toAtomicAmount asset amount = inr atomic
              /\ req_options req !! "amount"%string
                 = Some (Decimal.string_of_Z atomic))).
Proof.
  intros Hasset o withMode exempt run.
  assert (Hrun : run
    = if exempt
      then (with_copy st withMode
              [asset_lookup a assetId;
               BuildStakingOperation (staking_request a assetId action withMode)],
            match buildStakingOperation b
                    (staking_request a assetId action withMode) with
            | inl e => inl e
            | inr response => StakingOperation.new (Some response)
            end)
      else if Decimal.lessThanOrEqualTo amount (Decimal.of_Z 0)
      then (with_copy st withMode [asset_lookup a assetId],
            inl (JsError "Amount required greater than zero."))
      else match Asset.toAtomicAmount asset amount with
           | inl e => (with_copy st withMode [asset_lookup a assetId], inl e)
           | inr atomic =>
               (with_copy st
                  (<["amount"%string := Decimal.string_of_Z atomic]> withMode)
                  [asset_lookup a assetId;
                   BuildStakingOperation
                     (staking_request a assetId action
                        (<["amount"%string := Decimal.string_of_Z atomic]> withMode))],
                match buildStakingOperation b
                        (staking_request a assetId action
                           (<["amount"%string := Decimal.string_of_Z atomic]>
                              withMode)) with
                | inl e => inl e
                | inr response => StakingOperation.new (Some response)
                end)
           end).
  { unfold run. rewrite buildStakingOperation_eq. cbv zeta. now rewrite Hasset. }
  assert (Hmode : withMode !! "amount"%string = o !! "amount"%string).
  { unfold withMode. now rewrite lookup_insert_ne. }
  split; [apply IsDedicated_spec|]. split; [|split].
  - intros He. rewrite Hrun, He. split; [reflexivity|exact Hmode].
  - intros He atomic Hpos Hatomic. now rewrite Hrun, He, Hpos, Hatomic.
  - intros req. rewrite Hrun.
    destruct exempt.
    + cbn [fst with_copy log]. rewrite drop_log.
      intros [Hin|Hin]%elem_of_cons; [discriminate|].
      apply list_elem_of_singleton in Hin. injection Hin as ->.
      cbn [staking_request req_options]. rewrite Hmode.
      split; [|discriminate]. split; [now split|now intros [_ H]].
    + destruct (Decimal.lessThanOrEqualTo amount (Decimal.of_Z 0)).
      { cbn [fst with_copy log]. rewrite drop_log.
        intros [Hin|Hin]%elem_of_cons; [discriminate|].
        now apply elem_of_nil in Hin. }
      destruct (Asset.toAtomicAmount asset amount) as [e|atomic].
      { cbn [fst with_copy log]. rewrite drop_log.
        intros [Hin|Hin]%elem_of_cons; [discriminate|].
        now apply elem_of_nil in Hin. }
      cbn [fst with_copy log]. rewrite drop_log.
      intros [Hin|Hin]%elem_of_cons; [discriminate|].
      apply list_elem_of_singleton in Hin. injection Hin as ->.
      cbn [staking_request req_options]. rewrite lookup_insert_eq.
      split; [split; [discriminate|now intros [? _]]|].
      intros _. now exists atomic.
Qed.

End Build.

Lemma amount_attached_unless_exempt_witness :
  (Asset_fetch building_backend (Address.getNetworkId example_address) "eth"
     (state_with_options ∅)).2 = inr eth18
  /\ log (ExternalAddress.buildStakingOperation building_backend example_address
            (Decimal.mk 15 (-1)) "eth" "stake" DEFAULT 0%nat (state_with_options ∅)).1
     = [GetAsset "ethereum-mainnet" "eth";
        BuildStakingOperation
          (staking_request example_address "eth" "stake"
             (<["amount"%string := "1500000000000000000"%string]>
                (<["mode"%string := "default"%string]> ∅)))].
Proof.
  split; [reflexivity|].
  destruct (amount_attached_unless_exempt building_backend example_address
              (Decimal.mk 15 (-1)) "eth" "stake" DEFAULT 0%nat
              (state_with_options ∅) eth18 eq_refl) as (_ & _ & Hsent & _).
  apply (Hsent eq_refl 1500000000000000000); reflexivity.
Defined.

(** C3 as stated fails for an exempt request whose options already carry an
    amount entry: the options are copied, so the request that is sent has an
    amount although the request is exempt. *)
Lemma exempt_request_with_amount_counterexample :
  let st := state_with_options exempt_options_with_amount in
  let run :=
    ExternalAddress.buildStakingOperation building_backend example_address
      (Decimal.of_Z 1) "eth" "unstake" NATIVE 0%nat st in
  IsDedicatedEthUnstakeV2Operation "eth" "unstake" NATIVE
    exempt_options_with_amount = true
  /\ is_thrown run.2 = false
  /\ exists req,
       log run.1 = [GetAsset "ethereum-mainnet" "eth"; BuildStakingOperation req]
       /\ req_options req !! "amount"%string = Some "7"%string.
Proof.
  split; [reflexivity|]. split; [reflexivity|].
  eexists. split; [reflexivity|]. vm_compute. reflexivity.
Qed.

(** ** Non-positive amounts *)

(** C5, amended.  For a request that is not exempt and whose amount is at
    most zero: the wallet path [createStakingOperation] throws "Amount
    required greater than zero." at once, sending nothing; the external path
    [buildStakingOperation] looks the asset up first, its only request, and
    then throws: that same error when the lookup resolved the asset, and the
    error of the lookup when it did not.  Neither path sends a build or
    create request nor returns a staking operation. *)
Theorem nonpositive_amount_rejected
    (amount : Decimal.t) (assetId action : string) (mode : StakeOptionsMode)
    (options : loc) (st : State) :
  IsDedicatedEthUnstakeV2Operation assetId action mode
    (default ∅ (heap st !! options)) = false ->
  Decimal.lessThanOrEqualTo amount (Decimal.of_Z 0) = true ->
  (forall fuel rounds w timeoutSeconds intervalSeconds,
      WalletAddress.createStakingOperation fuel rounds w amount assetId action
        mode options timeoutSeconds intervalSeconds st
      = (st, inl (JsError "Amount required greater than zero.")))
  /\ (forall b a,
        let run :=
          ExternalAddress.buildStakingOperation b a amount assetId action mode
            options st in
        log run.1 = log st ++ [asset_lookup a assetId]
        /\ Forall (fun c => is_build_or_create c = false)
             (drop (length (log st)) (log run.1))
        /\ is_thrown run.2 = true
        /\ (forall asset,
              (Asset_fetch b (Address.getNetworkId a) assetId st).2 = inr asset ->
              run.2 = inl (JsError "Amount required greater than zero."))
        /\ (forall e,
              (Asset_fetch b (Address.getNetworkId a) assetId st).2 = inl e ->
              run.2 = inl e)).
Proof.
  intros Hexempt Hamount. split.
  - intros fuel rounds w timeoutSeconds intervalSeconds.
    unfold WalletAddress.createStakingOperation, bindM at 1 2, deref.
    now rewrite Hexempt, Hamount.
  - intros b a run.
    assert (Hrun : run
      = match (Asset_fetch b (Address.getNetworkId a) assetId st).2 with
        | inl e =>
            ({| heap := heap st; log := log st ++ [asset_lookup a assetId];
                now := now st |}, inl e)
        | inr asset =>
            (with_copy st
               (<["mode"%string := mode_string mode]> (default ∅ (heap st !! options)))
               [asset_lookup a assetId],
             inl (JsError "Amount required greater than zero."))
        end).
    { unfold run. rewrite buildStakingOperation_eq. cbv zeta.
      now rewrite Hexempt, Hamount. }
    assert (Hlog : log run.1 = log st ++ [asset_lookup a assetId]).
    { rewrite Hrun. now destruct (Asset_fetch b _ assetId st).2. }
    split; [exact Hlog|]. split; [|split; [|split]].
    + rewrite Hlog, drop_log. now repeat constructor.
    + rewrite Hrun. now destruct (Asset_fetch b _ assetId st).2.
    + intros asset Hasset. now rewrite Hrun, Hasset.
    + intros e He. now rewrite Hrun, He.
Qed.

Lemma nonpositive_amount_rejected_witness :
  (forall fuel rounds w timeoutSeconds intervalSeconds,
      WalletAddress.createStakingOperation fuel rounds w (Decimal.of_Z 0) "eth"
        "stake" DEFAULT 0%nat timeoutSeconds intervalSeconds (state_with_options ∅)
      = (state_with_options ∅, inl (JsError "Amount required greater than zero.")))
  /\ (forall b a,
        let run :=
          ExternalAddress.buildStakingOperation b a (Decimal.of_Z 0) "eth" "stake"
            DEFAULT 0%nat (state_with_options ∅) in
        log run.1 = log (state_with_options ∅) ++ [asset_lookup a "eth"]
        /\ Forall (fun c => is_build_or_create c = false)
             (drop (length (log (state_with_options ∅))) (log run.1))
        /\ is_thrown run.2 = true
        /\ (forall asset,
              (Asset_fetch b (Address.getNetworkId a) "eth" (state_with_options ∅)).2
              = inr asset ->
              run.2 = inl (JsError "Amount required greater than zero."))
        /\ (forall e,
              (Asset_fetch b (Address.getNetworkId a) "eth" (state_with_options ∅)).2
              = inl e ->
              run.2 = inl e)).
Proof.
  apply (nonpositive_amount_rejected (Decimal.of_Z 0) "eth" "stake" DEFAULT 0%nat
           (state_with_options ∅)); reflexivity.
Defined.

(** C5 as stated fails on the external path when the asset lookup fails: the
    request is not exempt and the amount is zero, yet what
    [buildStakingOperation] throws is the error of the lookup, not the error
    about the amount. *)
Lemma nonpositive_amount_lookup_error_counterexample :
  let st := state_with_options ∅ in
  let run :=
    ExternalAddress.buildStakingOperation not_answering example_address
      (Decimal.of_Z 0) "eth" "stake" DEFAULT 0%nat st in
  IsDedicatedEthUnstakeV2Operation "eth" "stake" DEFAULT
    (default ∅ (heap st !! 0%nat)) = false
  /\ Decimal.lessThanOrEqualTo (Decimal.of_Z 0) (Decimal.of_Z 0) = true
  /\ run.2 = inl (APIError "not mocked")
  /\ run.2 <> inl (JsError "Amount required greater than zero.").
Proof. repeat split. discriminate. Qed.

(** ** Polling with [wait] *)

Section Wait.

Import StakingOperation.

Implicit Types (op : StakingOperation.t) (b : Backend) (st : State)
  (rounds : nat -> Round).


Lemma Qltb_false (x y : Q) : Qltb x y = false <-> (y <= x)%Q.
Proof.
  unfold Qltb. rewrite negb_false_iff. apply Qle_bool_iff.
Qed.





(** One turn of the loop. *)
Lemma wait_loop_step fuel rounds i startTime intervalSeconds timeoutSeconds op st :
  wait_loop (S fuel) rounds i startTime intervalSeconds timeoutSeconds op st
  = if Qltb (inject_Z (now st - startTime)) (timeoutSeconds * 1000)%Q then
      match reload (backend (rounds i)) op st with
      | (st1, inl e) => (st1, inl e)
      | (st1, inr op1) =>
          let st2 := later (latency (rounds i)) st1 in
          if isTerminalState op1 then (st2, inr (Some (model op1)))
          else if Qltb (timeoutSeconds * 1000)%Q (inject_Z (now st2 - startTime))
          then (st2, inl timed_out)
          else
            wait_loop fuel rounds (S i) startTime intervalSeconds timeoutSeconds
              op1 (later (pause intervalSeconds + oversleep (rounds i)) st2)
      end
    else (st, inl timed_out).
Proof.
  cbn [wait_loop]. unfold bindM at 1, Date_now at 1.
  destruct (Qltb (inject_Z (now st - startTime)) (timeoutSeconds * 1000)%Q);
    [|reflexivity].
  unfold bindM at 1, await, bindM at 1.
  destruct (reload (backend (rounds i)) op st) as [st1 [e|op1]]; [reflexivity|].
  unfold bindM at 1, elapse at 1, retM at 1. fold (later (latency (rounds i)) st1).
  destruct (isTerminalState op1); [reflexivity|].
  unfold bindM at 1, Date_now at 1.
  destruct (Qltb (timeoutSeconds * 1000)%Q _); [reflexivity|].
  unfold bindM at 1, delay, elapse. reflexivity.
Qed.







Lemma wait_eq fuel rounds intervalSeconds timeoutSeconds op st :
  wait fuel rounds intervalSeconds timeoutSeconds op st
  = if bool_decide (getWalletID op <> None)
    then (st, inl (JsError "cannot wait on staking operation for wallet address."))
    else wait_loop fuel rounds 0 (now st) intervalSeconds timeoutSeconds op st.
Proof. unfold wait. now destruct (bool_decide (getWalletID op <> None)). Qed.


End Wait.



(** ** Network and asset identifiers *)

Section Identifiers.

Import Coinbase.

Lemma replace_char_cons (a b c : ascii) (s : string) :
  replace_char a b (String c s)
  = String (if Ascii.eqb c a then b else c) (replace_char a b s).
Proof. reflexivity. Qed.

Lemma replace_char_back (a b : ascii) (s : string) :
  replace_char a b (replace_char b a s) = replace_char a b s.
Proof.
  induction s as [|c s IH]; [reflexivity|]. rewrite !replace_char_cons, IH.
  f_equal.
  destruct (Ascii.eqb_spec c b) as [->|Hb].
  - rewrite Ascii.eqb_refl. now destruct (Ascii.eqb_spec b a) as [->|_].
  - reflexivity.
Qed.

Lemma occurs_replace_char (a b : ascii) (s : string) :
  a <> b -> occurs a (replace_char a b s) = false.
Proof.
  intros Hab. induction s as [|c s IH]; [reflexivity|].
  rewrite replace_char_cons. cbn [occurs]. rewrite IH, orb_false_r.
  destruct (Ascii.eqb_spec c a) as [->|Hc].
  - apply Ascii.eqb_neq. congruence.
  - now apply Ascii.eqb_neq.
Qed.

Lemma replace_char_absent (a b : ascii) (s : string) :
  occurs a s = false -> replace_char a b s = s.
Proof.
  induction s as [|c s IH]; [reflexivity|].
  rewrite replace_char_cons. cbn [occurs].
  intros [Hc Hs]%orb_false_iff. now rewrite Hc, IH.
Qed.

Lemma length_replace_char (a b : ascii) (s : string) :
  String.length (replace_char a b s) = String.length s.
Proof.
  induction s as [|c s IH]; [reflexivity|].
  rewrite replace_char_cons. cbn [String.length]. now rewrite IH.
Qed.

End Identifiers.

(** X1.  [normalizeNetwork] writes every underscore as a hyphen and
    [toAssetId] every hyphen as an underscore, character by character: the
    result of the first has no underscore, that of the second no hyphen, and
    both have the length of the argument.  Each conversion undoes the other
    on the strings it produces: converting to the asset form and back gives
    the network form, and it gives the string itself when the string had no
    underscore; likewise with the two forms exchanged. *)
Theorem network_and_asset_forms_convert (s : string) :
  occurs "_" (Coinbase.normalizeNetwork s) = false
  /\ occurs "-" (Coinbase.toAssetId s) = false
  /\ String.length (Coinbase.normalizeNetwork s) = String.length s
  /\ String.length (Coinbase.toAssetId s) = String.length s
  /\ Coinbase.normalizeNetwork (Coinbase.toAssetId s) = Coinbase.normalizeNetwork s
  /\ Coinbase.toAssetId (Coinbase.normalizeNetwork s) = Coinbase.toAssetId s
  /\ (occurs "_" s = false -> Coinbase.normalizeNetwork (Coinbase.toAssetId s) = s)
  /\ (occurs "-" s = false -> Coinbase.toAssetId (Coinbase.normalizeNetwork s) = s).
Proof.
  unfold Coinbase.normalizeNetwork, Coinbase.toAssetId.
  repeat split.
  - now apply occurs_replace_char.
  - now apply occurs_replace_char.
  - apply length_replace_char.
  - apply length_replace_char.
  - apply replace_char_back.
  - apply replace_char_back.
  - intros H. rewrite replace_char_back. now apply replace_char_absent.
  - intros H. rewrite replace_char_back. now apply replace_char_absent.
Qed.

(** ** The retry condition *)


(** ** Assets from their API record *)

Section FromModel.

Lemma toLowerCase_cons (c : ascii) (s : string) :
  toLowerCase (String c s) = String (lower_char c) (toLowerCase s).
Proof. reflexivity. Qed.

(** The character that the comparison of [Asset.fromModel] makes of a
    character, by its code. *)
Lemma code_lower_char (c : ascii) :
  nat_of_ascii (lower_char c)
  = if ((65 <=? nat_of_ascii c) && (nat_of_ascii c <=? 90))%nat
    then (nat_of_ascii c + 32)%nat else nat_of_ascii c.
Proof.
  unfold lower_char. cbv zeta.
  destruct ((65 <=? nat_of_ascii c) && (nat_of_ascii c <=? 90))%nat eqn:Hc;
    [|reflexivity].
  apply andb_true_iff in Hc as [_ Hc%Nat.leb_le].
  apply nat_ascii_embedding. lia.
Qed.

Lemma code_inj (c d : ascii) : nat_of_ascii c = nat_of_ascii d -> c = d.
Proof.
  intros H. rewrite <- (ascii_nat_embedding c), <- (ascii_nat_embedding d).
  now rewrite H.
Qed.

Lemma code_eqb (c d : ascii) :
  Ascii.eqb c d = (nat_of_ascii c =? nat_of_ascii d)%nat.
Proof.
  destruct (Ascii.eqb_spec c d) as [->|Hne].
  - now rewrite Nat.eqb_refl.
  - symmetry. apply Nat.eqb_neq. intros H. now apply Hne, code_inj.
Qed.

Lemma code_normal (c : ascii) :
  nat_of_ascii (normal c)
  = let n := nat_of_ascii c in
    let l := if ((65 <=? n) && (n <=? 90))%nat then (n + 32)%nat else n in
    if (l =? 45)%nat then 95%nat else l.
Proof.
  unfold normal. rewrite code_eqb, code_lower_char. cbv zeta.
  change (nat_of_ascii "-") with 45%nat.
  destruct (_ =? 45)%nat; [reflexivity|apply code_lower_char].
Qed.

Lemma normal_same (c d : ascii) : same_character c d <-> normal c = normal d.
Proof.
  split.
  - intros [c'|n Hn|n Hn| |]; try reflexivity.
    + do 26 (destruct n as [|n]; [reflexivity|]). lia.
    + do 26 (destruct n as [|n]; [reflexivity|]). lia.
  - intros H. apply (f_equal nat_of_ascii) in H. rewrite !code_normal in H.
    cbv zeta in H.
    pose proof (nat_ascii_bounded c) as Hc. pose proof (nat_ascii_bounded d) as Hd.
    set (n := nat_of_ascii c) in *. set (m := nat_of_ascii d) in *.
    assert (Hcases : n = m
                     \/ (65 <= n <= 90 /\ m = n + 32)%nat
                     \/ (65 <= m <= 90 /\ n = m + 32)%nat
                     \/ (n = 45 /\ m = 95)%nat
                     \/ (n = 95 /\ m = 45)%nat).
    { destruct (Nat.leb_spec 65 n), (Nat.leb_spec n 90),
        (Nat.leb_spec 65 m), (Nat.leb_spec m 90); cbn [andb] in H;
        repeat match type of H with
               | context [(?x =? 45)%nat] => destruct (Nat.eqb_spec x 45)
               end; lia. }
    rewrite <- (ascii_nat_embedding c), <- (ascii_nat_embedding d).
    fold n m.
    destruct Hcases as [->|[[Hn ->]|[[Hm ->]|[[-> ->]|[-> ->]]]]].
    + constructor.
    + replace n with (65 + (n - 65))%nat at 1 by lia.
      replace (n + 32)%nat with (97 + (n - 65))%nat by lia.
      apply same_capital. lia.
    + replace m with (65 + (m - 65))%nat at 2 by lia.
      replace (m + 32)%nat with (97 + (m - 65))%nat by lia.
      apply same_small. lia.
    + apply same_hyphen.
    + apply same_underscore.
Qed.

Lemma normalized_cons (c : ascii) (s : string) :
  Coinbase.toAssetId (toLowerCase (String c s))
  = String (normal c) (Coinbase.toAssetId (toLowerCase s)).
Proof. reflexivity. Qed.

(** Two ids pass the comparison of [Asset.fromModel] exactly when they
    agree character by character. *)
Lemma normalized_same (s t : string) :
  same_id s t
  <-> Coinbase.toAssetId (toLowerCase s) = Coinbase.toAssetId (toLowerCase t).
Proof.
  revert t. induction s as [|c s IH]; intros [|d t].
  - split; [reflexivity|constructor].
  - split; [inversion 1|discriminate].
  - split; [inversion 1|discriminate].
  - rewrite !normalized_cons. split.
    + inversion 1 as [|? ? ? ? Hc Hs]; subst.
      f_equal; [now apply normal_same|now apply IH].
    + intros [= Hc Hs]. constructor; [now apply normal_same|now apply IH].
Qed.

Lemma toAssetId_without_underscore (x y : string) :
  Coinbase.toAssetId x = y -> occurs "_" y = false -> x = y.
Proof.
  unfold Coinbase.toAssetId. revert y.
  induction x as [|c x IH]; intros y; [now intros <-|].
  rewrite replace_char_cons. intros <-. cbn [occurs].
  intros [Hc Hy]%orb_false_iff. f_equal; [|now apply IH].
  destruct (Ascii.eqb_spec c "-") as [->|_]; [discriminate Hc|reflexivity].
Qed.

(** An id is one of the three denominations of ether up to letter case
    exactly when its lower-case form is that denomination. *)
Lemma lower_same (a denomination : string) :
  toLowerCase denomination = denomination ->
  occurs "_" denomination = false ->
  occurs "-" denomination = false ->
  same_id a denomination <-> toLowerCase a = denomination.
Proof.
  intros Hlow Hunder Hhyphen. rewrite normalized_same, Hlow.
  assert (Hd : Coinbase.toAssetId denomination = denomination).
  { now apply replace_char_absent. }
  rewrite Hd. split.
  - intros H. now apply toAssetId_without_underscore.
  - now intros ->.
Qed.

End FromModel.

(** X3.  [Asset.fromModel] compares the requested asset id with the id of the
    API record loosely.  For ids made of ASCII characters: when the two ids
    agree character by character up to letter case and the difference
    between hyphen and underscore, the asset is made as the record describes
    it, with the decimals, the network and the contract address of the
    record and the id as it was requested.  When they do not, the requested
    id decides: up to letter case, "gwei" gives 9 decimals, "wei" gives none,
    "eth" gives the decimals of the record, and any other id makes the call
    throw an [ArgumentError] that names the id. *)
Theorem fromModel_compares_ids_loosely (model : AssetModel) (held a : string) :
  am_asset_id model = Some held ->
  held <> EmptyString -> a <> EmptyString ->
  ascii_only held = true -> ascii_only a = true ->
  let made (decimals : Z) : Result Asset.t :=
    inr (Asset.mk (am_network_id model) a (am_contract_address model) decimals) in
  let run := Asset.fromModel (Some model) (Some a) in
  (same_id held a -> run = made (am_decimals model))
  /\ (~ same_id held a ->
      (same_id a "gwei" -> run = made 9)
      /\ (same_id a "wei" -> run = made 0)
      /\ (same_id a "eth" -> run = made (am_decimals model))
      /\ (~ same_id a "gwei" -> ~ same_id a "wei" -> ~ same_id a "eth" ->
          run = inl (ArgumentError (String.append "Invalid asset ID: " a)))).
Proof.
  intros Hid Hheld Ha _ _ made run.
  assert (Hrun : run
    = if negb (String.eqb (Coinbase.toAssetId (toLowerCase held))
                          (Coinbase.toAssetId (toLowerCase a)))
      then
        if String.eqb (toLowerCase a) "gwei" then made 9
        else if String.eqb (toLowerCase a) "wei" then made 0
        else if String.eqb (toLowerCase a) "eth" then made (am_decimals model)
        else inl (ArgumentError (String.append "Invalid asset ID: " a))
      else made (am_decimals model)).
  { unfold run, Asset.fromModel. rewrite Hid.
    rewrite (proj2 (String.eqb_neq a "") Ha), (proj2 (String.eqb_neq held "") Hheld).
    cbv zeta.
    destruct (negb _); [|reflexivity].
    destruct (String.eqb (toLowerCase a) "gwei"); [reflexivity|].
    destruct (String.eqb (toLowerCase a) "wei"); [reflexivity|].
    destruct (String.eqb (toLowerCase a) "eth"); reflexivity. }
  assert (Hgwei := lower_same a "gwei" eq_refl eq_refl eq_refl).
  assert (Hwei := lower_same a "wei" eq_refl eq_refl eq_refl).
  assert (Heth := lower_same a "eth" eq_refl eq_refl eq_refl).
  split.
  - intros Hsame%normalized_same. rewrite Hrun.
    now rewrite (proj2 (String.eqb_eq _ _) Hsame).
  - intros Hdiff.
    assert (Hne : String.eqb (Coinbase.toAssetId (toLowerCase held))
                    (Coinbase.toAssetId (toLowerCase a)) = false).
    { apply String.eqb_neq. intros H. now apply Hdiff, normalized_same. }
    rewrite Hrun, Hne. cbn [negb].
    destruct (String.eqb_spec (toLowerCase a) "gwei") as [Hg|Hg].
    { split; [reflexivity|]. split; [|split; [|intros H; now destruct H; apply Hgwei]].
      - intros H%Hwei. congruence.
      - intros H%Heth. congruence. }
    destruct (String.eqb_spec (toLowerCase a) "wei") as [Hw|Hw].
    { split; [intros H%Hgwei; contradiction|]. split; [reflexivity|].
      split; [intros H%Heth; congruence|].
      intros _ H. now destruct H; apply Hwei. }
    destruct (String.eqb_spec (toLowerCase a) "eth") as [He|He].
    { split; [intros H%Hgwei; contradiction|].
      split; [intros H%Hwei; contradiction|]. split; [reflexivity|].
      intros _ _ H. now destruct H; apply Heth. }
    split; [intros H%Hgwei; contradiction|].
    split; [intros H%Hwei; contradiction|].
    split; [intros H%Heth; contradiction|]. reflexivity.
Qed.

Lemma fromModel_compares_ids_loosely_witness :
  Asset.fromModel
    (Some {| am_network_id := "base-mainnet"; am_asset_id := Some "some_Token"%string;
             am_contract_address := None; am_decimals := 6 |})
    (Some "SOME-token"%string)
  = inr (Asset.mk "base-mainnet" "SOME-token" None 6).
Proof.
  refine (proj1 (fromModel_compares_ids_loosely
                   {| am_network_id := "base-mainnet";
                      am_asset_id := Some "some_Token"%string;
                      am_contract_address := None; am_decimals := 6 |}
                   "some_Token" "SOME-token" eq_refl _ _ eq_refl eq_refl) _);
    [discriminate|discriminate|].
  apply same_id_next; [apply (same_small 18); lia|].
  apply same_id_next; [apply (same_small 14); lia|].
  apply same_id_next; [apply (same_small 12); lia|].
  apply same_id_next; [apply (same_small 4); lia|].
  apply same_id_next; [apply same_underscore|].
  apply same_id_next; [apply (same_capital 19); lia|].
  repeat (apply same_id_next; [apply same_same|]).
  apply same_id_empty.
Defined.

(** ** Amounts that are, or are not, whole numbers of atomic units *)

Section Integrality.

Import Decimal.

Lemma string_of_Z_negative (n : Z) :
  n < 0 -> String "-" (string_of_Z (Z.abs n)) = string_of_Z n.
Proof. destruct n; [lia|lia|reflexivity]. Qed.

Lemma occurs_append (c : ascii) (s1 s2 : string) :
  occurs c (String.append s1 s2) = occurs c s1 || occurs c s2.
Proof.
  induction s1 as [|a s1 IH]; [reflexivity|].
  change (occurs c (String a (String.append s1 s2))
          = occurs c (String a s1) || occurs c s2).
  cbn [occurs]. now rewrite IH, orb_assoc.
Qed.

Lemma uint_of_string_point (s : string) :
  occurs "." s = true -> NilEmpty.uint_of_string s = None.
Proof.
  induction s as [|a s IH]; [discriminate|].
  cbn [occurs NilEmpty.uint_of_string].
  destruct (Ascii.eqb_spec a ".") as [->|_].
  - intros _. now destruct (NilEmpty.uint_of_string s).
  - intros H. now rewrite (IH H).
Qed.

(** [BigInt] rejects every string with a decimal point. *)
Lemma BigInt_point (s : string) :
  occurs "." s = true -> exists message, BigInt s = inl (SyntaxError message).
Proof.
  intros Hs. unfold BigInt, NilZero.int_of_string.
  destruct s as [|a s]; [discriminate|].
  destruct (Ascii.eqb_spec a "-") as [->|Hminus].
  - cbn [occurs] in Hs. change (Ascii.eqb "-" ".") with false in Hs.
    unfold NilZero.uint_of_string.
    destruct s as [|a' s']; [discriminate|].
    rewrite (uint_of_string_point _ Hs). now eexists.
  - unfold NilZero.uint_of_string.
    rewrite (uint_of_string_point _ Hs). now eexists.
Qed.

(** The plain notation of a decimal whose value is the integer [n] is the
    decimal string of [n]. *)
Lemma BigInt_toFixed_integer (c e n : Z) :
  (0 <= e -> n = c * 10 ^ e) ->
  (e < 0 -> c = n * 10 ^ (- e)) ->
  BigInt (toFixed (mk c e)) = inr n.
Proof.
  intros Hpos Hneg. unfold toFixed. cbn [coef expn].
  destruct (Z.leb_spec 0 e) as [He|He].
  - rewrite (Hpos He). apply string_of_Z_inj_parse.
  - specialize (Hneg He).
    assert (Hp : 0 < 10 ^ (- e)) by (apply Z.pow_pos_nonneg; lia).
    assert (Habs : Z.abs c = Z.abs n * 10 ^ (- e)).
    { rewrite Hneg, Z.abs_mul. f_equal. lia. }
    rewrite Habs, Z.mod_mul, Z.div_mul by lia.
    change (0 =? 0) with true. cbv iota.
    destruct (Z.ltb_spec c 0) as [Hc|Hc].
    + assert (n < 0) by nia.
      change (String.append "-" (string_of_Z (Z.abs n)))
        with (String "-" (string_of_Z (Z.abs n))).
      rewrite string_of_Z_negative by assumption.
      apply string_of_Z_inj_parse.
    + assert (0 <= n) by nia.
      change (String.append "" (string_of_Z (Z.abs n)))
        with (string_of_Z (Z.abs n)).
      rewrite Z.abs_eq by assumption.
      apply string_of_Z_inj_parse.
Qed.

(** The plain notation of a decimal that is not an integer has a decimal
    point. *)
Lemma toFixed_fraction (c e : Z) :
  e < 0 -> Z.abs c mod 10 ^ (- e) <> 0 -> occurs "." (toFixed (mk c e)) = true.
Proof.
  intros He Hr. unfold toFixed. cbn [coef expn].
  destruct (Z.leb_spec 0 e); [lia|].
  destruct (Z.eqb_spec (Z.abs c mod 10 ^ (- e)) 0); [contradiction|].
  rewrite !occurs_append. cbn [occurs]. rewrite Ascii.eqb_refl.
  now rewrite orb_true_r, orb_true_r.
Qed.

End Integrality.

(** An amount of at most 20 significant digits whose value in atomic units is
    the integer [n] converts to [n], whichever way the digits are split
    between coefficient and exponent. *)
Lemma toAtomicAmount_integer (asset : Asset.t) (d : Decimal.t) (n : Z) :
  Decimal.fits_precision d ->
  (0 <= Decimal.expn d + Asset.decimals asset ->
   n = Decimal.coef d * 10 ^ (Decimal.expn d + Asset.decimals asset)) ->
  (Decimal.expn d + Asset.decimals asset < 0 ->
   Decimal.coef d = n * 10 ^ (- (Decimal.expn d + Asset.decimals asset))) ->
  Asset.toAtomicAmount asset d = inr n.
Proof.
  intros (m & j & Hj & Hm & Hc) Hpos Hneg.
  unfold Asset.toAtomicAmount, Decimal.times. rewrite pow10_eq.
  cbn [Decimal.coef Decimal.expn]. rewrite Z.mul_1_r, Hc.
  set (e := Decimal.expn d + Asset.decimals asset) in *.
  destruct (finalise_exact m j e Hj Hm) as (k & Hk & ->).
  assert (Hsplit : m * 10 ^ j = m * 10 ^ (j - k) * 10 ^ k).
  { rewrite <- Z.mul_assoc, <- Z.pow_add_r by lia. do 2 f_equal. lia. }
  assert (Hk10 : 0 < 10 ^ k) by (apply Z.pow_pos_nonneg; lia).
  apply BigInt_toFixed_integer.
  - intros Hek. destruct (Z_lt_le_dec e 0) as [He|He].
    + specialize (Hneg He). rewrite Hc in Hneg.
      assert (Hpow : 10 ^ k = 10 ^ (e + k) * 10 ^ (- e)).
      { rewrite <- Z.pow_add_r by lia. f_equal. lia. }
      assert (He10 : 0 < 10 ^ (- e)) by (apply Z.pow_pos_nonneg; lia).
      rewrite Hsplit, Hpow, Z.mul_assoc in Hneg.
      apply Z.mul_reg_r in Hneg; [now symmetry|lia].
    + rewrite (Hpos He), Hc, Hsplit, <- Z.mul_assoc, <- Z.pow_add_r by lia.
      do 2 f_equal. lia.
  - intros Hek. assert (He : e < 0) by lia.
    specialize (Hneg He). rewrite Hc in Hneg.
    assert (Hpow : 10 ^ (- e) = 10 ^ (- (e + k)) * 10 ^ k).
    { rewrite <- Z.pow_add_r by lia. f_equal. lia. }
    rewrite Hsplit, Hpow, Z.mul_assoc in Hneg.
    apply Z.mul_reg_r in Hneg; [exact Hneg|lia].
Qed.

(** X4.  Gwei and wei are denominations of the asset the backend knows as
    "eth": requested under the id "gwei" the record of ether yields an asset
    of 9 decimals, under "wei" one of 0 decimals, whatever decimals the
    record itself states.  An amount of gwei with at most 9 fractional digits
    and at most 20 significant digits, and that amount multiplied by [10 ^ 9]
    taken as wei, convert to the same number of atomic units; when the record
    states 18 decimals, so does the amount divided by [10 ^ 9] taken as
    ether. *)
Theorem ether_denominations_agree (model : AssetModel) (d : Decimal.t) :
  am_asset_id model = Some "eth"%string ->
  Decimal.fits_precision d ->
  0 <= Decimal.expn d + 9 ->
  exists gwei wei,
    resolved model "gwei" = Some gwei /\ Asset.decimals gwei = 9
    /\ resolved model "wei" = Some wei /\ Asset.decimals wei = 0
    /\ Asset.toAtomicAmount gwei d
       = inr (Decimal.coef d * 10 ^ (Decimal.expn d + 9))
    /\ Asset.toAtomicAmount wei (scaled d 9) = Asset.toAtomicAmount gwei d
    /\ (am_decimals model = 18 ->
        exists eth,
          resolved model "eth" = Some eth
          /\ Asset.toAtomicAmount eth (scaled d (-9)) = Asset.toAtomicAmount gwei d).
Proof.
  intros Hid Hfit He.
  assert (Hscaled : forall k, Decimal.fits_precision (scaled d k)).
  { intros k. exact Hfit. }
  exists (Asset.mk (am_network_id model) "gwei" (am_contract_address model) 9),
         (Asset.mk (am_network_id model) "wei" (am_contract_address model) 0).
  assert (Hgwei : Asset.toAtomicAmount
                    (Asset.mk (am_network_id model) "gwei"
                       (am_contract_address model) 9) d
                  = inr (Decimal.coef d * 10 ^ (Decimal.expn d + 9))).
  { now apply toAtomicAmount_exact. }
  split; [unfold resolved, Asset.fromModel; now rewrite Hid|].
  split; [reflexivity|].
  split; [unfold resolved, Asset.fromModel; now rewrite Hid|].
  split; [reflexivity|].
  split; [exact Hgwei|]. split.
  - rewrite Hgwei, toAtomicAmount_exact; cbn [scaled Decimal.coef Decimal.expn Asset.decimals].
    + do 3 f_equal. lia.
    + lia.
    + apply Hscaled.
  - intros H18.
    exists (Asset.mk (am_network_id model) "eth" (am_contract_address model) 18).
    split; [unfold resolved, Asset.fromModel; now rewrite Hid, H18|].
    rewrite Hgwei, toAtomicAmount_exact; cbn [scaled Decimal.coef Decimal.expn Asset.decimals].
    + do 3 f_equal. lia.
    + lia.
    + apply Hscaled.
Qed.

Lemma ether_denominations_agree_witness :
  exists gwei wei,
    resolved (ether_model 18) "gwei" = Some gwei /\ Asset.decimals gwei = 9
    /\ resolved (ether_model 18) "wei" = Some wei /\ Asset.decimals wei = 0
    /\ Asset.toAtomicAmount gwei (Decimal.mk 25 (-1))
       = inr (25 * 10 ^ (-1 + 9))
    /\ Asset.toAtomicAmount wei (scaled (Decimal.mk 25 (-1)) 9)
       = Asset.toAtomicAmount gwei (Decimal.mk 25 (-1))
    /\ (18 = 18 ->
        exists eth,
          resolved (ether_model 18) "eth" = Some eth
          /\ Asset.toAtomicAmount eth (scaled (Decimal.mk 25 (-1)) (-9))
             = Asset.toAtomicAmount gwei (Decimal.mk 25 (-1))).
Proof.
  apply (ether_denominations_agree (ether_model 18) (Decimal.mk 25 (-1))).
  - reflexivity.
  - exists 25, 0. split; [lia|split; reflexivity].
  - simpl. lia.
Defined.

(** X5.  An amount finer than the atomic unit is not rounded: for an amount
    of at most 20 significant digits that has more fractional digits than the
    asset has decimals, [toAtomicAmount] throws the [SyntaxError] of
    [BigInt], which is handed a string with a decimal point. *)
Theorem toAtomicAmount_rejects_fractions (asset : Asset.t) (d : Decimal.t) :
  Decimal.fits_precision d ->
  Decimal.expn d + Asset.decimals asset < 0 ->
  Decimal.coef d mod 10 ^ (- (Decimal.expn d + Asset.decimals asset)) <> 0 ->
  exists message, Asset.toAtomicAmount asset d = inl (SyntaxError message).
Proof.
  intros (m & j & Hj & Hm & Hc) He Hr.
  unfold Asset.toAtomicAmount, Decimal.times. rewrite pow10_eq.
  cbn [Decimal.coef Decimal.expn]. rewrite Z.mul_1_r, Hc.
  set (e := Decimal.expn d + Asset.decimals asset) in *.
  destruct (finalise_exact m j e Hj Hm) as (k & Hk & ->).
  assert (Hsplit : m * 10 ^ j = m * 10 ^ (j - k) * 10 ^ k).
  { rewrite <- Z.mul_assoc, <- Z.pow_add_r by lia. do 2 f_equal. lia. }
  assert (Hk10 : 0 < 10 ^ k) by (apply Z.pow_pos_nonneg; lia).
  assert (He10 : 0 < 10 ^ (- e)) by (apply Z.pow_pos_nonneg; lia).
  assert (Hek : e + k < 0).
  { destruct (Z_lt_le_dec (e + k) 0) as [|Hge]; [assumption|]. exfalso. apply Hr.
    rewrite Hc, Hsplit.
    replace (10 ^ k) with (10 ^ (e + k) * 10 ^ (- e)).
    - rewrite Z.mul_assoc. apply Z.mod_mul. lia.
    - rewrite <- Z.pow_add_r by lia. f_equal. lia. }
  apply BigInt_point, toFixed_fraction; [exact Hek|].
  intros Hzero. apply Hr.
  assert (Hp : 0 < 10 ^ (- (e + k))) by (apply Z.pow_pos_nonneg; lia).
  apply Z.mod_divide in Hzero; [|lia].
  apply (proj1 (Z.divide_abs_r _ _)) in Hzero. destruct Hzero as [q Hq].
  rewrite Hc, Hsplit, Hq.
  replace (10 ^ (- e)) with (10 ^ (- (e + k)) * 10 ^ k).
  - rewrite <- Z.mul_assoc. apply Z.mod_mul. lia.
  - rewrite <- Z.pow_add_r by lia. f_equal. lia.
Qed.

Lemma toAtomicAmount_rejects_fractions_witness :
  exists message,
    Asset.toAtomicAmount (Asset.mk "ethereum-mainnet" "wei" None 0)
      (Decimal.mk 5 (-1))
    = inl (SyntaxError message).
Proof.
  apply (toAtomicAmount_rejects_fractions
           (Asset.mk "ethereum-mainnet" "wei" None 0) (Decimal.mk 5 (-1))).
  - exists 5, 0. split; [lia|split; reflexivity].
  - simpl. lia.
  - simpl. discriminate.
Defined.

(** X6.  Atomic to whole and back: for an integer number [n] of atomic units
    with at most 20 significant digits, negative ones included,
    [fromAtomicAmount] gives the whole amount [n / 10 ^ decimals] exactly and
    [toAtomicAmount] takes that amount back to [n]. *)
Theorem whole_amount_round_trip (asset : Asset.t) (n : Z) :
  Decimal.fits_precision (Decimal.of_Z n) ->
  Decimal.equals (Asset.fromAtomicAmount asset (Decimal.of_Z n))
    (Decimal.mk n (- Asset.decimals asset)) = true
  /\ Asset.toAtomicAmount asset (Asset.fromAtomicAmount asset (Decimal.of_Z n))
     = inr n.
Proof.
  intros (m & j & Hj & Hm & Hc). cbn [Decimal.of_Z Decimal.coef] in Hc.
  unfold Asset.fromAtomicAmount, Decimal.dividedBy. rewrite pow10_eq.
  cbn [Decimal.coef Decimal.expn Decimal.of_Z].
  change (Decimal.ndigits (Z.abs 1)) with 1.
  set (s := Z.max 0 (Decimal.precision + 1 + 1 - Decimal.ndigits (Z.abs n))).
  assert (Hs : 0 <= s) by lia.
  change (Z.sgn 1) with 1. change (Z.abs 1) with 1.
  rewrite Z.mul_1_r, Z.div_1_r.
  rewrite Z.mul_assoc, (Z.mul_comm (Z.sgn n)), Z.abs_sgn.
  assert (Hn : n * 10 ^ s = m * 10 ^ (j + s)).
  { rewrite Hc, <- Z.mul_assoc, <- Z.pow_add_r by lia. reflexivity. }
  rewrite Hn.
  destruct (finalise_exact m (j + s) (0 - Asset.decimals asset - s))
    as (k & Hk & ->); [lia|exact Hm|].
  assert (Hs10 : 0 < 10 ^ s) by (apply Z.pow_pos_nonneg; lia).
  assert (Hvalue : m * 10 ^ (j + s - k) * 10 ^ k = n * 10 ^ s).
  { rewrite Hn, <- Z.mul_assoc, <- Z.pow_add_r by lia. do 2 f_equal. lia. }
  split.
  - apply equals_spec. cbn [Decimal.coef Decimal.expn].
    assert (Hk10 : 0 < 10 ^ k) by (apply Z.pow_pos_nonneg; lia).
    destruct (Z_le_gt_dec k s) as [Hks|Hks].
    + replace (Z.min (0 - Asset.decimals asset - s + k) (- Asset.decimals asset))
        with (0 - Asset.decimals asset - s + k) by lia.
      rewrite Z.sub_diag, Z.mul_1_r.
      replace (- Asset.decimals asset - (0 - Asset.decimals asset - s + k))
        with (s - k) by lia.
      apply (Z.mul_reg_r _ _ (10 ^ k)); [lia|].
      rewrite Hvalue, <- Z.mul_assoc, <- Z.pow_add_r by lia.
      do 2 f_equal. lia.
    + replace (Z.min (0 - Asset.decimals asset - s + k) (- Asset.decimals asset))
        with (- Asset.decimals asset) by lia.
      rewrite Z.sub_diag, Z.mul_1_r.
      replace (0 - Asset.decimals asset - s + k - - Asset.decimals asset)
        with (k - s) by lia.
      apply (Z.mul_reg_r _ _ (10 ^ s)); [lia|].
      assert (Hp : 10 ^ (k - s) * 10 ^ s = 10 ^ k).
      { rewrite <- Z.pow_add_r by lia. f_equal. lia. }
      rewrite <- Z.mul_assoc, Hp. exact Hvalue.
  - apply toAtomicAmount_integer; cbn [Decimal.coef Decimal.expn].
    + exists m, (j + s - k). split; [lia|split; [exact Hm|reflexivity]].
    + intros He.
      replace (0 - Asset.decimals asset - s + k + Asset.decimals asset)
        with (k - s) in * by lia.
      apply (Z.mul_reg_r _ _ (10 ^ s)); [lia|].
      assert (Hp : 10 ^ (k - s) * 10 ^ s = 10 ^ k).
      { rewrite <- Z.pow_add_r by lia. f_equal. lia. }
      rewrite <- Z.mul_assoc, Hp. now symmetry.
    + intros He.
      replace (- (0 - Asset.decimals asset - s + k + Asset.decimals asset))
        with (s - k) in * by lia.
      replace (0 - Asset.decimals asset - s + k + Asset.decimals asset)
        with (k - s) in * by lia.
      assert (Hk10 : 0 < 10 ^ k) by (apply Z.pow_pos_nonneg; lia).
      apply (Z.mul_reg_r _ _ (10 ^ k)); [lia|].
      assert (Hp : 10 ^ (s - k) * 10 ^ k = 10 ^ s).
      { rewrite <- Z.pow_add_r by lia. f_equal. lia. }
      rewrite <- (Z.mul_assoc n), Hp. exact Hvalue.
Qed.

Lemma whole_amount_round_trip_witness :
  Decimal.equals (Asset.fromAtomicAmount eth18 (Decimal.of_Z (-1500000000000000000)))
    (Decimal.mk (-1500000000000000000) (- 18)) = true
  /\ Asset.toAtomicAmount eth18
       (Asset.fromAtomicAmount eth18 (Decimal.of_Z (-1500000000000000000)))
     = inr (-1500000000000000000).
Proof.
  apply (whole_amount_round_trip eth18 (-1500000000000000000)).
  exists (-15), 17. split; [lia|split; reflexivity].
Defined.

(** ** Fetching, reloading and signing a staking operation *)

Section Operation.

Import StakingOperation.

Implicit Types (op : StakingOperation.t) (b : Backend) (st : State).

Lemma filter_all {A : Type} (P : A -> Prop) `{!forall x, Decision (P x)}
    (l : list A) :
  (forall x, x ∈ l -> P x) -> filter P l = l.
Proof.
  induction l as [|x l IH]; intros Hall; [reflexivity|].
  rewrite filter_cons_True by (apply Hall; left).
  f_equal. apply IH. intros y Hy. apply Hall. now right.
Qed.

(** The constructor takes over every transaction of the snapshot. *)
Lemma new_eq (snapshot : StakingOperationModel.t) :
  new (Some snapshot)
  = inr (mk snapshot
           (Transaction.mk <$> StakingOperationModel.transactions snapshot)).
Proof.
  unfold new, ret. rewrite loadTransactionsFromModel_eq. cbn [model transactions].
  rewrite app_nil_l, filter_all; [reflexivity|].
  intros t _. unfold held, keys. cbn. set_solver.
Qed.

Lemma reload_loaded b op st st' op' :
  reload b op st = (st', inr op') -> loaded op'.
Proof.
  rewrite reload_eq. destruct (fetched b op) as [[e|snapshot]|].
  - discriminate.
  - intros [= _ <-]. apply loaded_after_load.
  - intros [= _ <-]. apply loaded_after_load.
Qed.

Lemma after_reload_no_news b op st :
  loaded op -> no_news op b -> (after_reload b op st).2 = op.
Proof.
  intros Hl Hn. rewrite after_reload_op.
  destruct (fetched b op) as [[e|snapshot]|] eqn:Hf.
  - reflexivity.
  - rewrite (Hn snapshot Hf).
    replace (mk (model op) (transactions op)) with op by now destruct op.
    now apply load_loaded.
  - now apply load_loaded.
Qed.

Lemma reloads_no_news (bs : list Backend) :
  forall op st,
    loaded op -> Forall (no_news op) bs -> (reloads bs op st).2 = op.
Proof.
  induction bs as [|b bs IH]; intros op st Hl Hn; [reflexivity|].
  apply Forall_cons in Hn as [Hb Hbs]. cbn [reloads].
  pose proof (after_reload_no_news b op st Hl Hb) as Hstep.
  destruct (after_reload b op st) as [st1 op1]. cbn [snd] in Hstep. subst op1.
  now apply IH.
Qed.

(** *** Signing *)

Lemma sign_each_signed key (txs : list Transaction.t) :
  Forall (fun tx => Transaction.isSigned tx = true) txs ->
  sign_each key txs = (txs, None).
Proof.
  induction 1 as [|tx txs Htx _ IH]; [reflexivity|].
  cbn [sign_each]. now rewrite Htx, IH.
Qed.

Lemma sign_isSigned key tx tx' :
  signs_visibly key -> Transaction.sign key tx = inr tx' ->
  Transaction.isSigned tx' = true.
Proof.
  intros Hkey. unfold Transaction.sign.
  destruct (key (Transaction.getUnsignedPayload tx)) as [e|signature] eqn:Hk;
    [discriminate|].
  intros [= <-]. unfold Transaction.isSigned, Transaction.getSignedPayload.
  cbn. apply negb_true_iff, String.eqb_neq. now apply (Hkey _ _ Hk).
Qed.

Lemma sign_each_keeps_signed key (txs : list Transaction.t) :
  forall i tx,
    txs !! i = Some tx -> Transaction.isSigned tx = true ->
    (sign_each key txs).1 !! i = Some tx.
Proof.
  induction txs as [|tx0 txs IH]; intros i tx Hi Hs; [discriminate|].
  cbn [sign_each]. destruct i as [|i].
  - injection Hi as ->. rewrite Hs. cbn [negb].
    now destruct (sign_each key txs).
  - cbn in Hi. specialize (IH i tx Hi Hs).
    destruct (negb (Transaction.isSigned tx0)).
    + destruct (Transaction.sign key tx0) as [e|tx0']; [exact Hi|].
      now destruct (sign_each key txs).
    + now destruct (sign_each key txs).
Qed.

Lemma sign_each_complete key (txs : list Transaction.t) :
  signs_visibly key -> (sign_each key txs).2 = None ->
  Forall (fun tx => Transaction.isSigned tx = true) (sign_each key txs).1.
Proof.
  intros Hkey. induction txs as [|tx txs IH]; [constructor|].
  cbn [sign_each]. destruct (Transaction.isSigned tx) eqn:Hs; cbn [negb].
  - destruct (sign_each key txs) as [rest e]. cbn [fst snd] in *.
    intros He. constructor; [exact Hs|now apply IH].
  - destruct (Transaction.sign key tx) as [e|tx'] eqn:Hsign; [discriminate|].
    destruct (sign_each key txs) as [rest e]. cbn [fst snd] in *.
    intros He. constructor; [now apply (sign_isSigned key tx)|now apply IH].
Qed.

Lemma sign_each_stops key (txs : list Transaction.t) (e : Exn) :
  (sign_each key txs).2 = Some e ->
  exists i tx,
    txs !! i = Some tx
    /\ Transaction.isSigned tx = false
    /\ key (Transaction.getUnsignedPayload tx) = inl e
    /\ drop i (sign_each key txs).1 = drop i txs
    /\ (sign_each key (take i txs)).2 = None.
Proof.
  induction txs as [|tx txs IH]; [discriminate|].
  cbn [sign_each]. destruct (Transaction.isSigned tx) eqn:Hs; cbn [negb].
  - destruct (sign_each key txs) as [rest e'] eqn:Hrest. cbn [fst snd] in *.
    intros He. destruct (IH He) as (i & tx1 & Hi & Hu & Hk & Hd & Hp).
    exists (S i), tx1. repeat split; try assumption.
    cbn [take sign_each]. rewrite Hs. cbn [negb].
    now destruct (sign_each key (take i txs)).
  - unfold Transaction.sign at 1 2.
    destruct (key (Transaction.getUnsignedPayload tx)) as [e0|signature] eqn:Hk.
    + cbn [throw fst snd]. intros [= ->]. exists 0%nat, tx. now repeat split.
    + cbn [ret]. destruct (sign_each key txs) as [rest e'] eqn:Hrest.
      cbn [fst snd] in *.
      intros He. destruct (IH He) as (i & tx1 & Hi & Hu & Hk1 & Hd & Hp).
      exists (S i), tx1. repeat split; try assumption.
      cbn [take sign_each]. rewrite Hs. cbn [negb].
      unfold Transaction.sign. rewrite Hk. cbn [ret].
      now destruct (sign_each key (take i txs)).
Qed.

End Operation.

(** X8.  [StakingOperation.fetch] sends exactly one lookup: the one for
    external addresses when no wallet id is given, the one for wallet
    addresses when a non-empty wallet id is given.  When the lookup fails its
    error is what [fetch] throws; when it is answered with a snapshot, the
    object that [fetch] returns holds that snapshot and one local transaction
    for every transaction of the snapshot, in the order of the snapshot,
    repeated payloads included.  The constructor rejects a missing model. *)
Theorem fetch_loads_every_snapshot_transaction
    (b : Backend) (networkId addressId id : string) (walletId : option string)
    (st : State) :
  walletId <> Some ""%string ->
  let run := StakingOperation.fetch b networkId addressId id walletId st in
  run.1 = {| heap := heap st;
             log := log st ++ [lookup_call networkId addressId id walletId];
             now := now st |}
  /\ (forall e,
        lookup_answer b networkId addressId id walletId = inl e -> run.2 = inl e)
  /\ (forall snapshot,
        lookup_answer b networkId addressId id walletId = inr snapshot ->
        run.2 = inr (StakingOperation.mk snapshot
                       (Transaction.mk
                        <$> StakingOperationModel.transactions snapshot)))
  /\ StakingOperation.new None = inl (JsError "Invalid model type").
Proof.
  intros Hw run. unfold run, StakingOperation.fetch, lookup_call, lookup_answer.
  destruct walletId as [w|].
  - destruct (String.eqb_spec w "") as [->|Hne]; [now destruct Hw|]. cbn [negb].
    unfold bindM, request, liftR. cbn [fst snd heap log now].
    destruct (getStakingOperation b w addressId id) as [e|snapshot].
    + repeat split; [now intros e' [= ->]|discriminate].
    + repeat split; [discriminate|]. intros s [= ->]. apply new_eq.
  - unfold bindM, request, liftR. cbn [fst snd heap log now].
    destruct (getExternalStakingOperation b networkId addressId id) as [e|snapshot].
    + repeat split; [now intros e' [= ->]|discriminate].
    + repeat split; [discriminate|]. intros s [= ->]. apply new_eq.
Qed.

Lemma fetch_loads_every_snapshot_transaction_witness :
  let snapshot := snapshot_of None "pending" ["0xaa"; "0xaa"; "0xbb"]%string in
  let run :=
    StakingOperation.fetch (answering snapshot) "ethereum-mainnet" "0xf00d" "op-1"
      None initial_state in
  run.1 = {| heap := ∅;
             log := [] ++ [lookup_call "ethereum-mainnet" "0xf00d" "op-1" None];
             now := 0 |}
  /\ (forall e,
        lookup_answer (answering snapshot) "ethereum-mainnet" "0xf00d" "op-1" None
        = inl e -> run.2 = inl e)
  /\ (forall snapshot',
        lookup_answer (answering snapshot) "ethereum-mainnet" "0xf00d" "op-1" None
        = inr snapshot' ->
        run.2 = inr (StakingOperation.mk snapshot'
                       (Transaction.mk
                        <$> StakingOperationModel.transactions snapshot')))
  /\ StakingOperation.new None = inl (JsError "Invalid model type").
Proof.
  apply (fetch_loads_every_snapshot_transaction
           (answering (snapshot_of None "pending" ["0xaa"; "0xaa"; "0xbb"]%string))
           "ethereum-mainnet" "0xf00d" "op-1" None initial_state).
  discriminate.
Defined.

(** X9.  A reload that brings no news changes nothing.  After a [reload] that
    returned, any number of further [reload] calls during which the backend
    answers the lookup with the snapshot the object already holds, or fails,
    or is not asked at all, leave the object exactly as it is: nothing is
    appended a second time, also when the snapshot lists a payload twice. *)
Theorem reload_without_news_changes_nothing
    (b : Backend) (op op1 : StakingOperation.t) (st st1 : State)
    (bs : list Backend) (st2 : State) :
  StakingOperation.reload b op st = (st1, inr op1) ->
  Forall (no_news op1) bs ->
  (reloads bs op1 st2).2 = op1.
Proof.
  intros Hreload Hbs. apply reloads_no_news; [|exact Hbs].
  now apply (reload_loaded b op st st1).
Qed.

Lemma reload_without_news_changes_nothing_witness :
  (reloads [repeating_backend; not_answering; repeating_backend]
     repeated_operation initial_state).2
  = repeated_operation.
Proof.
  apply (reload_without_news_changes_nothing repeating_backend empty_operation
           repeated_operation initial_state
           {| heap := ∅;
              log := [GetExternalStakingOperation "ethereum-mainnet" "0xf00d" "op-1"];
              now := 0 |}).
  - reflexivity.
  - repeat constructor; intros snapshot [= <-]; reflexivity.
Defined.

(** X10.  A reload never touches what is held locally.  After a [reload]
    that returned, the local list begins with the transactions it held
    before, each at its position and exactly as it was, a local signature
    included, even when the snapshot carries another version of the same
    payload.  What follows them are transactions of the fetched snapshot
    whose payload was not held before the call. *)
Theorem reload_keeps_local_transactions
    (b : Backend) (op op' : StakingOperation.t) (st st' : State) :
  StakingOperation.reload b op st = (st', inr op') ->
  let before := StakingOperation.transactions op in
  let after := StakingOperation.transactions op' in
  take (length before) after = before
  /\ (forall i tx, before !! i = Some tx -> after !! i = Some tx)
  /\ Forall (fun tx =>
               (Transaction.getUnsignedPayload tx ∉ keys before)
               /\ (Transaction.model tx
                   ∈ StakingOperationModel.transactions (StakingOperation.model op')))
       (drop (length before) after).
Proof.
  intros Hreload before after.
  assert (Hafter : exists snapshot,
            StakingOperation.model op' = snapshot
            /\ after
               = before
                 ++ (Transaction.mk
                     <$> filter (fun t => unsigned_payload t ∉ held before)
                           (StakingOperationModel.transactions snapshot))).
  { unfold after, before. rewrite reload_eq in Hreload.
    destruct (fetched b op) as [[e|snapshot]|].
    - discriminate.
    - injection Hreload as _ <-. exists snapshot.
      now rewrite loadTransactionsFromModel_eq.
    - injection Hreload as _ <-. exists (StakingOperation.model op).
      now rewrite loadTransactionsFromModel_eq. }
  destruct Hafter as (snapshot & Hmodel & ->). rewrite Hmodel.
  split; [now rewrite take_app_length|]. split.
  - intros i tx Hi. now apply lookup_app_l_Some.
  - rewrite drop_app_length. apply Forall_fmap, Forall_forall.
    intros t [Hnew Hin]%list_elem_of_filter. cbn. split; [|exact Hin].
    intros Hheld. now apply Hnew, elem_of_held.
Qed.

Lemma reload_keeps_local_transactions_witness :
  let before := StakingOperation.transactions signed_operation in
  let after := StakingOperation.transactions grown_operation in
  take (length before) after = before
  /\ (forall i tx, before !! i = Some tx -> after !! i = Some tx)
  /\ Forall (fun tx =>
               (Transaction.getUnsignedPayload tx ∉ keys before)
               /\ (Transaction.model tx
                   ∈ StakingOperationModel.transactions
                       (StakingOperation.model grown_operation)))
       (drop (length before) after).
Proof.
  apply (reload_keeps_local_transactions
           (answering (snapshot_of None "pending" ["0xaa"; "0xbb"]%string))
           signed_operation grown_operation initial_state
           {| heap := ∅;
              log := [GetExternalStakingOperation "ethereum-mainnet" "0xf00d" "op-1"];
              now := 0 |}).
  reflexivity.
Defined.

(** X11.  [sign] signs the transactions of the local list that are not
    signed yet, in list order: the number of transactions and their unsigned
    payloads stay as they are, and a transaction that was signed already is
    not handed to the key and stays as it is.  When [sign] ends without an
    error and the key never yields an empty signature, every transaction is
    signed afterwards, so that signing again, with whatever key, calls no key
    and changes nothing.  When the key fails, the failure is on the first
    unsigned transaction it refuses: the transactions from that one on are as
    they were, and those before it went through without error. *)
Theorem sign_signs_unsigned_only (key : Transaction.Key) (op : StakingOperation.t) :
  let signed := (StakingOperation.sign key op).1 in
  let outcome := (StakingOperation.sign key op).2 in
  keys (StakingOperation.transactions signed)
  = keys (StakingOperation.transactions op)
  /\ (forall i tx,
        StakingOperation.transactions op !! i = Some tx ->
        Transaction.isSigned tx = true ->
        StakingOperation.transactions signed !! i = Some tx)
  /\ (outcome = None -> signs_visibly key ->
      Forall (fun tx => Transaction.isSigned tx = true)
        (StakingOperation.transactions signed)
      /\ forall key', StakingOperation.sign key' signed = (signed, None))
  /\ (forall e, outcome = Some e ->
        exists i tx,
          StakingOperation.transactions op !! i = Some tx
          /\ Transaction.isSigned tx = false
          /\ key (Transaction.getUnsignedPayload tx) = inl e
          /\ drop i (StakingOperation.transactions signed)
             = drop i (StakingOperation.transactions op)
          /\ (StakingOperation.sign_each key
                (take i (StakingOperation.transactions op))).2 = None).
Proof.
  intros signed outcome. unfold signed, outcome, StakingOperation.sign.
  pose proof (keys_sign_each key (StakingOperation.transactions op)) as Hkeys.
  pose proof (sign_each_keeps_signed key (StakingOperation.transactions op)) as Hkeep.
  pose proof (sign_each_complete key (StakingOperation.transactions op)) as Hall.
  pose proof (sign_each_stops key (StakingOperation.transactions op)) as Hstop.
  destruct (StakingOperation.sign_each key (StakingOperation.transactions op))
    as [txs e]. cbn [fst snd StakingOperation.model StakingOperation.transactions] in *.
  split; [exact Hkeys|]. split; [exact Hkeep|]. split.
  - intros -> Hkey. specialize (Hall Hkey eq_refl). split; [exact Hall|].
    intros key'. now rewrite sign_each_signed.
  - intros e' ->. now apply Hstop.
Qed.

Lemma sign_signs_unsigned_only_witness :
  Forall (fun tx => Transaction.isSigned tx = true)
    (StakingOperation.transactions signed_operation)
  /\ forall key', StakingOperation.sign key' signed_operation = (signed_operation, None).
Proof.
  destruct (sign_signs_unsigned_only (suffix_key "-signed") example_operation)
    as (_ & _ & Hdone & _).
  apply Hdone; [reflexivity|].
  intros payload signature [= <-]. now destruct payload.
Defined.

(** X12.  [wait] with a timeout of zero seconds or less never polls: on an
    operation without wallet id it throws the timeout error at once, in the
    state in which it was called, whatever the interval. *)
Theorem wait_without_time_never_polls
    (fuel : nat) (rounds : nat -> Round) (intervalSeconds timeoutSeconds : Q)
    (op : StakingOperation.t) (st : State) :
  StakingOperation.getWalletID op = None ->
  (timeoutSeconds <= 0)%Q ->
  StakingOperation.wait (S fuel) rounds intervalSeconds timeoutSeconds op st
  = (st, inl timed_out).
Proof.
  intros Hw Ht. rewrite wait_eq.
  rewrite bool_decide_eq_false_2 by (intros H; now apply H).
  rewrite wait_loop_step.
  assert (Hno : Qltb (inject_Z (now st - now st)) (timeoutSeconds * 1000)%Q = false).
  { apply Qltb_false. rewrite Z.sub_diag.
    change (inject_Z 0) with 0%Q.
    apply (Qle_trans _ (0 * 1000)%Q); [|discriminate].
    apply Qmult_le_compat_r; [exact Ht|discriminate]. }
  now rewrite Hno.
Qed.

Lemma wait_without_time_never_polls_witness :
  StakingOperation.wait 1 pending_rounds 5 0 example_operation initial_state
  = (initial_state, inl timed_out).
Proof.
  apply (wait_without_time_never_polls 0 pending_rounds 5 0 example_operation
           initial_state).
  - reflexivity.
  - discriminate.
Defined.

(** ** The execution-layer withdrawal options builder *)

Section Dictionaries.

Context {V : Type}.

Implicit Types (o : Dict.t V) (key : string) (value : V).

Lemma get_set_eq key value o : Dict.get key (Dict.set key value o) = Some value.
Proof.
  induction o as [|[k v] o IH]; cbn [Dict.set Dict.get].
  - now rewrite String.eqb_refl.
  - destruct (String.eqb_spec k key) as [->|Hk]; cbn [Dict.get].
    + now rewrite String.eqb_refl.
    + now rewrite (proj2 (String.eqb_neq k key) Hk).
Qed.

Lemma get_set_ne key key' value o :
  key <> key' -> Dict.get key' (Dict.set key value o) = Dict.get key' o.
Proof.
  intros Hne. induction o as [|[k v] o IH]; cbn [Dict.set Dict.get].
  - now rewrite (proj2 (String.eqb_neq key key') Hne).
  - destruct (String.eqb_spec k key) as [->|Hk]; cbn [Dict.get].
    + now rewrite (proj2 (String.eqb_neq key key') Hne).
    + now rewrite IH.
Qed.

(** [set] keeps the names in the order of their creation. *)
Lemma names_set key value o :
  (Dict.set key value o).*1
  = if bool_decide (key ∈ o.*1) then o.*1 else o.*1 ++ [key].
Proof.
  induction o as [|[k v] o IH]; cbn [Dict.set]; [reflexivity|].
  destruct (String.eqb_spec k key) as [->|Hk].
  - rewrite bool_decide_eq_true_2 by (cbn; left). reflexivity.
  - cbn [fmap list_fmap fst] in *. rewrite IH.
    destruct (decide (key ∈ o.*1)) as [Hin|Hin].
    + rewrite !bool_decide_eq_true_2; [reflexivity|now right|assumption].
    + rewrite !bool_decide_eq_false_2; [reflexivity| |assumption].
      intros [Heq|H]%elem_of_cons; [now apply Hk|now apply Hin].
Qed.

Lemma NoDup_set key value o : NoDup o.*1 -> NoDup (Dict.set key value o).*1.
Proof.
  intros Hnd. rewrite names_set.
  destruct (decide (key ∈ o.*1)) as [Hin|Hin].
  - now rewrite bool_decide_eq_true_2.
  - rewrite bool_decide_eq_false_2 by assumption.
    apply NoDup_app. split; [assumption|]. split; [|apply NoDup_singleton].
    intros x Hx ->%list_elem_of_singleton. now apply Hin.
Qed.

Lemma get_None key o : Dict.get key o = None <-> key ∉ o.*1.
Proof.
  induction o as [|[k v] o IH]; cbn [Dict.get].
  - split; [intros _ H; now apply elem_of_nil in H|reflexivity].
  - destruct (String.eqb_spec k key) as [->|Hk].
    + split; [discriminate|]. intros H. exfalso. apply H. cbn. left.
    + rewrite IH. cbn [fmap list_fmap fst]. rewrite not_elem_of_cons.
      split; [intros H; split; [congruence|exact H]|now intros [_ H]].
Qed.

Lemma get_Some key value o :
  NoDup o.*1 -> Dict.get key o = Some value <-> (key, value) ∈ o.
Proof.
  induction o as [|[k v] o IH]; intros Hnd; cbn [Dict.get].
  - split; [discriminate|]. intros H. now apply elem_of_nil in H.
  - cbn [fmap list_fmap fst] in Hnd. apply NoDup_cons in Hnd as [Hk Hnd].
    destruct (String.eqb_spec k key) as [->|Hne].
    + split.
      * intros [= ->]. left.
      * intros [[= ->]|Hin]%elem_of_cons; [reflexivity|].
        exfalso. apply Hk. now apply (list_elem_of_fmap_2 fst) in Hin.
    + rewrite (IH Hnd). split; [now right|].
      intros [[= -> ->]|Hin]%elem_of_cons; [now destruct Hne|exact Hin].
Qed.

Lemma insert_by_index_perm (n : Z) (p : string * V) (l : list (Z * (string * V))) :
  Dict.insert_by_index n p l ≡ₚ (n, p) :: l.
Proof.
  induction l as [|[m q] l IH]; cbn [Dict.insert_by_index]; [reflexivity|].
  destruct (n <=? m); [reflexivity|].
  rewrite IH. apply Permutation_swap.
Qed.

(** Reading the properties back finds each of them once. *)
Lemma entries_perm o : Dict.entries o ≡ₚ o.
Proof.
  unfold Dict.entries, Dict.t in *. cbv zeta.
  induction o as [|p o IH]; [reflexivity|].
  cbn [foldr]. destruct (Dict.array_index p.1) as [n|] eqn:Hp.
  - rewrite filter_cons_False by (rewrite Hp; discriminate).
    rewrite insert_by_index_perm. cbn [fmap list_fmap snd].
    now apply Permutation_skip.
  - rewrite filter_cons_True by exact Hp.
    rewrite <- Permutation_middle. now apply Permutation_skip.
Qed.

Lemma NoDup_entries o : NoDup o.*1 -> NoDup (Dict.entries o).*1.
Proof. intros Hnd. now rewrite entries_perm. Qed.

Lemma set_fresh key value o :
  key ∉ o.*1 -> Dict.set key value o = o ++ [(key, value)].
Proof.
  induction o as [|[k v] o IH]; intros Hk; cbn [Dict.set]; [reflexivity|].
  cbn [fmap list_fmap fst] in Hk. apply not_elem_of_cons in Hk as [Hne Hk].
  rewrite (proj2 (String.eqb_neq k key)) by congruence.
  now rewrite IH.
Qed.

(** *** Reading back what was read back *)

Lemma entries_eq o :
  Dict.entries o
  = (indexed o).*2 ++ filter (fun p => Dict.array_index p.1 = None) o.
Proof. reflexivity. Qed.

Lemma indexed_cons (p : string * V) o :
  indexed (p :: o)
  = match Dict.array_index p.1 with
    | Some n => Dict.insert_by_index n p (indexed o)
    | None => indexed o
    end.
Proof. reflexivity. Qed.

Lemma indexed_names o :
  Forall (fun x => Dict.array_index x.2.1 = Some x.1) (indexed o).
Proof.
  induction o as [|p o IH]; [constructor|].
  rewrite indexed_cons. destruct (Dict.array_index p.1) as [n|] eqn:Hp; [|exact IH].
  rewrite insert_by_index_perm. now constructor.
Qed.

Lemma insert_by_index_sorted (n : Z) (p : string * V)
    (l : list (Z * (string * V))) :
  StronglySorted by_index l -> StronglySorted by_index (Dict.insert_by_index n p l).
Proof.
  induction l as [|[m q] l IH]; intros Hl; cbn [Dict.insert_by_index].
  - repeat constructor.
  - apply StronglySorted_inv in Hl as [Hl Hm].
    destruct (Z.leb_spec n m) as [Hle|Hlt].
    + constructor; [now constructor|]. constructor; [exact Hle|].
      eapply Forall_impl; [exact Hm|]. unfold by_index. cbn. intros x Hx. lia.
    + constructor; [now apply IH|].
      rewrite insert_by_index_perm. constructor; [unfold by_index; cbn; lia|exact Hm].
Qed.

Lemma indexed_sorted o : StronglySorted by_index (indexed o).
Proof.
  induction o as [|p o IH]; [constructor|].
  rewrite indexed_cons. destruct (Dict.array_index p.1); [|exact IH].
  now apply insert_by_index_sorted.
Qed.

Lemma indexed_named (N : list (string * V)) :
  Forall (fun p => Dict.array_index p.1 = None) N -> indexed N = [].
Proof.
  induction 1 as [|p N Hp _ IH]; [reflexivity|].
  now rewrite indexed_cons, Hp.
Qed.

(** A list that is sorted already is read back as it is. *)
Lemma indexed_of_sorted (I : list (Z * (string * V))) (N : list (string * V)) :
  Forall (fun x => Dict.array_index x.2.1 = Some x.1) I ->
  StronglySorted by_index I ->
  Forall (fun p => Dict.array_index p.1 = None) N ->
  indexed (I.*2 ++ N) = I.
Proof.
  intros HI Hs HN. induction I as [|[n p] I IH]; [now apply indexed_named|].
  apply Forall_cons in HI as [Hp HI].
  apply StronglySorted_inv in Hs as [Hs Hn].
  cbn [fmap list_fmap snd app]. rewrite indexed_cons.
  cbn [fst snd] in Hp. rewrite Hp, (IH HI Hs).
  destruct I as [|[m q] I']; [reflexivity|].
  cbn [Dict.insert_by_index]. apply Forall_cons in Hn as [Hnm _].
  unfold by_index in Hnm. cbn in Hnm.
  now rewrite (proj2 (Z.leb_le n m) Hnm).
Qed.

Lemma named_of_sorted (I : list (Z * (string * V))) (N : list (string * V)) :
  Forall (fun x => Dict.array_index x.2.1 = Some x.1) I ->
  Forall (fun p => Dict.array_index p.1 = None) N ->
  filter (fun p => Dict.array_index p.1 = None) (I.*2 ++ N) = N.
Proof.
  intros HI HN. induction I as [|[n p] I IH].
  - cbn [fmap list_fmap app]. induction HN as [|q N Hq _ IHN]; [reflexivity|].
    rewrite filter_cons_True by exact Hq. now rewrite IHN.
  - apply Forall_cons in HI as [Hp HI]. cbn [fmap list_fmap snd app].
    cbn [fst snd] in Hp.
    rewrite filter_cons_False by (rewrite Hp; discriminate). now apply IH.
Qed.

Lemma entries_idem o : Dict.entries (Dict.entries o) = Dict.entries o.
Proof.
  assert (HN : Forall (fun p : string * V => Dict.array_index p.1 = None)
                 (filter (fun p => Dict.array_index p.1 = None) o)).
  { apply Forall_forall. now intros p [Hp _]%list_elem_of_filter. }
  rewrite (entries_eq (Dict.entries o)), (entries_eq o).
  unfold Dict.t in *.
  rewrite (indexed_of_sorted _ _ (indexed_names o) (indexed_sorted o) HN).
  now rewrite (named_of_sorted _ _ (indexed_names o) HN).
Qed.

End Dictionaries.

Section DictionaryValues.

Context {V W : Type} (f : V -> W).

Lemma insert_by_index_on_value (n : Z) (p : string * V)
    (l : list (Z * (string * V))) :
  Dict.insert_by_index n (on_value f p) ((fun x => (x.1, on_value f x.2)) <$> l)
  = (fun x => (x.1, on_value f x.2)) <$> Dict.insert_by_index n p l.
Proof.
  induction l as [|[m q] l IH]; [reflexivity|].
  cbn [fmap list_fmap Dict.insert_by_index fst snd].
  destruct (n <=? m); [reflexivity|].
  cbn [fmap list_fmap fst snd]. f_equal. exact IH.
Qed.

Lemma indexed_on_value (o : Dict.t V) :
  indexed (on_value f <$> o) = (fun x => (x.1, on_value f x.2)) <$> indexed o.
Proof.
  induction o as [|p o IH]; [reflexivity|].
  cbn [fmap list_fmap]. rewrite !indexed_cons. cbn [on_value fst].
  destruct (Dict.array_index p.1) as [n|]; [|exact IH].
  fold (on_value f p). now rewrite IH, insert_by_index_on_value.
Qed.

(** Changing the values does not change the order of reading. *)
Lemma entries_on_value (o : Dict.t V) :
  Dict.entries (on_value f <$> o) = on_value f <$> Dict.entries o.
Proof.
  rewrite !entries_eq, indexed_on_value, fmap_app. f_equal.
  - rewrite <- !list_fmap_compose. now apply list_fmap_ext.
  - unfold Dict.t in *. induction o as [|p o IH]; [reflexivity|].
    cbn [fmap list_fmap].
    destruct (Dict.array_index p.1) as [n|] eqn:Hp.
    + rewrite !filter_cons_False by (cbn [on_value fst]; rewrite Hp; discriminate).
      exact IH.
    + rewrite !filter_cons_True by (cbn [on_value fst]; exact Hp).
      cbn [fmap list_fmap]. f_equal. exact IH.
Qed.

End DictionaryValues.

(** *** Quoting *)

Section Quoting.

Lemma quote_char_plain (c : ascii) :
  plain_char c = true -> quote_char c = String c EmptyString.
Proof.
  destruct c as [[] [] [] [] [] [] [] []]; vm_compute; intros H;
    (discriminate H || reflexivity).
Qed.

Lemma escaped_cons (c : ascii) (s : string) :
  escaped (String c s) = String.append (quote_char c) (escaped s).
Proof. reflexivity. Qed.

Lemma escaped_plain (s : string) : plain s = true -> escaped s = s.
Proof.
  induction s as [|c s IH]; [reflexivity|]. cbn [plain].
  intros [Hc Hs]%andb_true_iff.
  now rewrite escaped_cons, (quote_char_plain c Hc), (IH Hs).
Qed.

(** A string of plain characters is quoted by putting it between
    quotation marks. *)
Lemma QuoteJSONString_plain (s : string) :
  plain s = true ->
  QuoteJSONString s = quoted s.
Proof.
  intros Hs. unfold QuoteJSONString. fold (escaped s).
  now rewrite (escaped_plain s Hs).
Qed.

Lemma plain_string_of_uint (d : Decimal.uint) :
  plain (NilEmpty.string_of_uint d) = true.
Proof. induction d; cbn [NilEmpty.string_of_uint plain]; trivial. Qed.

(** A printed integer is made of digits and a sign. *)
Lemma plain_string_of_Z (n : Z) : plain (Decimal.string_of_Z n) = true.
Proof.
  unfold Decimal.string_of_Z, NilZero.string_of_int.
  destruct (Z.to_int n) as [d|d].
  - unfold NilZero.string_of_uint.
    destruct d; try reflexivity; apply (plain_string_of_uint (_ _)).
  - cbn [plain]. unfold NilZero.string_of_uint.
    destruct d; try reflexivity; apply (plain_string_of_uint (_ _)).
Qed.

Lemma plain_atomic_text (asset : Asset.t) (amount : Decimal.t) :
  plain (atomic_text asset amount) = true.
Proof.
  unfold atomic_text.
  destruct (Asset.toAtomicAmount asset amount); [reflexivity|].
  apply plain_string_of_Z.
Qed.

End Quoting.

Section Withdrawals.

Import ExecutionLayerWithdrawalOptionsBuilder.

Implicit Types (b : Backend) (st : State) (builder : t).

Lemma addValidatorWithdrawals_app (l1 l2 : list (string * Decimal.t)) builder :
  addValidatorWithdrawals (l1 ++ l2) builder
  = addValidatorWithdrawals l2 (addValidatorWithdrawals l1 builder).
Proof. unfold addValidatorWithdrawals. apply foldl_app. Qed.

Lemma addValidatorWithdrawals_cons key amount (l : list (string * Decimal.t))
    builder :
  addValidatorWithdrawals ((key, amount) :: l) builder
  = addValidatorWithdrawals l (addValidatorWithdrawal key amount builder).
Proof. reflexivity. Qed.

Lemma networkId_addValidatorWithdrawals (l : list (string * Decimal.t)) :
  forall builder,
    networkId (addValidatorWithdrawals l builder) = networkId builder.
Proof.
  induction l as [|[k a] l IH]; intros builder; [reflexivity|].
  rewrite addValidatorWithdrawals_cons. now rewrite IH.
Qed.

Lemma NoDup_addValidatorWithdrawals (l : list (string * Decimal.t)) :
  forall builder,
    NoDup (validatorAmounts builder).*1 ->
    NoDup (validatorAmounts (addValidatorWithdrawals l builder)).*1.
Proof.
  induction l as [|[k a] l IH]; intros builder Hnd; [exact Hnd|].
  rewrite addValidatorWithdrawals_cons. apply IH. now apply NoDup_set.
Qed.

Lemma get_addValidatorWithdrawals_absent (l : list (string * Decimal.t)) key :
  forall builder,
    key ∉ l.*1 ->
    Dict.get key (validatorAmounts (addValidatorWithdrawals l builder))
    = Dict.get key (validatorAmounts builder).
Proof.
  induction l as [|[k a] l IH]; intros builder Hk; [reflexivity|].
  cbn [fmap list_fmap fst] in Hk. apply not_elem_of_cons in Hk as [Hne Hk].
  rewrite addValidatorWithdrawals_cons, (IH _ Hk).
  cbn [validatorAmounts addValidatorWithdrawal].
  apply get_set_ne. congruence.
Qed.

Lemma names_addValidatorWithdrawals (l : list (string * Decimal.t)) :
  forall builder,
    (validatorAmounts (addValidatorWithdrawals l builder)).*1
    = (validatorAmounts builder).*1
      ++ first_seen (list_to_set (validatorAmounts builder).*1) l.*1.
Proof.
  induction l as [|[k a] l IH]; intros builder.
  - cbn. now rewrite app_nil_r.
  - rewrite addValidatorWithdrawals_cons, IH.
    cbn [fmap list_fmap fst first_seen validatorAmounts addValidatorWithdrawal].
    rewrite names_set.
    destruct (decide (k ∈ (validatorAmounts builder).*1)) as [Hin|Hin].
    + rewrite !bool_decide_eq_true_2;
        [reflexivity|now apply elem_of_list_to_set|assumption].
    + rewrite !bool_decide_eq_false_2;
        [|now rewrite elem_of_list_to_set|assumption].
      rewrite <- app_assoc. cbn. do 2 f_equal.
      rewrite list_to_set_app_L. cbn. f_equal. set_solver.
Qed.

(** *** The conversion loop *)

Lemma convert_spec (asset : Asset.t) (l : list (string * Decimal.t)) :
  forall acc r,
    NoDup l.*1 ->
    convert asset l acc = inr r ->
    (forall key amount, (key, amount) ∈ l ->
       exists atomic,
         Asset.toAtomicAmount asset amount = inr atomic
         /\ Dict.get key r = Some (Decimal.string_of_Z atomic))
    /\ (forall key, key ∉ l.*1 -> Dict.get key r = Dict.get key acc)
    /\ r.*1 = acc.*1 ++ filter (fun key => key ∉ acc.*1) l.*1.
Proof.
  induction l as [|[k a] l IH]; intros acc r Hnd Hr.
  - injection Hr as <-. cbn. rewrite app_nil_r. repeat split.
    intros key amount H. now apply elem_of_nil in H.
  - cbn [fmap list_fmap fst] in Hnd. apply NoDup_cons in Hnd as [Hk Hnd].
    cbn [convert] in Hr.
    destruct (Asset.toAtomicAmount asset a) as [e|atomic] eqn:Ha; [discriminate|].
    destruct (IH _ _ Hnd Hr) as (Hin & Hout & Hnames).
    split; [|split].
    + intros key amount [[= -> ->]|H]%elem_of_cons; [|now apply Hin].
      exists atomic. split; [exact Ha|].
      rewrite (Hout k Hk). apply get_set_eq.
    + intros key Hkey. cbn [fmap list_fmap fst] in Hkey.
      apply not_elem_of_cons in Hkey as [Hne Hkey].
      rewrite (Hout key Hkey). apply get_set_ne. congruence.
    + rewrite Hnames, names_set. cbn [fmap list_fmap fst].
      destruct (decide (k ∈ acc.*1)) as [Hacc|Hacc].
      * rewrite bool_decide_eq_true_2 by assumption.
        rewrite filter_cons_False by (intros H; now apply H). reflexivity.
      * rewrite bool_decide_eq_false_2 by assumption.
        rewrite filter_cons_True by assumption.
        rewrite <- app_assoc. cbn. do 2 f_equal.
        apply filter_agree. intros x Hx.
        rewrite elem_of_app, list_elem_of_singleton.
        split; [tauto|]. intros H [H1| ->]; [now apply H|now apply Hk].
Qed.

Lemma convert_total (asset : Asset.t) (l : list (string * Decimal.t)) :
  forall acc,
    (forall key amount, (key, amount) ∈ l ->
       is_thrown (Asset.toAtomicAmount asset amount) = false) ->
    exists r, convert asset l acc = inr r.
Proof.
  induction l as [|[k a] l IH]; intros acc Hok; [now eexists|].
  cbn [convert].
  pose proof (Hok k a ltac:(left)) as Ha.
  destruct (Asset.toAtomicAmount asset a) as [e|atomic]; [discriminate|].
  apply IH. intros key amount H. apply (Hok key amount). now right.
Qed.

Lemma convert_fails (asset : Asset.t) (l : list (string * Decimal.t)) :
  forall acc key amount,
    (key, amount) ∈ l ->
    is_thrown (Asset.toAtomicAmount asset amount) = true ->
    is_thrown (convert asset l acc) = true.
Proof.
  induction l as [|[k a] l IH]; intros acc key amount Hin Hbad.
  - now apply elem_of_nil in Hin.
  - cbn [convert].
    destruct (Asset.toAtomicAmount asset a) as [e|atomic] eqn:Ha; [reflexivity|].
    apply elem_of_cons in Hin as [[= -> ->]|Hin].
    + rewrite Ha in Hbad. discriminate.
    + now apply (IH _ key amount).
Qed.

(** *** [build] *)

Lemma Asset_fetch_run b (network assetId : string) st :
  Asset_fetch b network assetId st
  = ({| heap := heap st;
        log := log st ++ [GetAsset (Coinbase.normalizeNetwork network)
                            (Asset.primaryDenomination assetId)];
        now := now st |},
     match getAsset b (Coinbase.normalizeNetwork network)
             (Asset.primaryDenomination assetId) with
     | inl e => inl e
     | inr am => Asset.fromModel am (Some assetId)
     end).
Proof.
  unfold Asset_fetch, bindM, request, liftR.
  destruct (getAsset b _ _); reflexivity.
Qed.

Lemma execution_build_eq b builder st (options : loc) (o : Options) :
  heap st !! options = Some o ->
  let call := GetAsset (Coinbase.normalizeNetwork (networkId builder)) "eth" in
  let asked := {| heap := heap st; log := log st ++ [call]; now := now st |} in
  build b builder (Some options) st
  = match (Asset_fetch b (networkId builder) "eth" st).2 with
    | inl e => (asked, inl e)
    | inr asset =>
        match convert asset (Dict.entries (validatorAmounts builder)) Dict.empty with
        | inl e => (asked, inl e)
        | inr converted =>
            let computed : Options := execution_options converted ∅ in
            let l1 := fresh (dom (heap st)) in
            let l2 := fresh (dom (<[l1 := computed]> (heap st))) in
            ({| heap := <[l2 := execution_options converted
                                     (delete "__proto__"%string o)]>
                          (<[l2 := ∅]> (<[l1 := computed]> (heap st)));
                log := log st ++ [call]; now := now st |}, inr l2)
        end
    end.
Proof.
  intros Ho call asked.
  unfold build. unfold bindM at 1, retM at 1. unfold bindM at 1.
  rewrite !Asset_fetch_run. cbn [snd].
  change Coinbase.Eth with "eth"%string.
  change (Asset.primaryDenomination "eth") with "eth"%string.
  fold call.
  destruct (match getAsset b _ _ with inl e => inl e | inr am => _ end)
    as [e|asset]; [reflexivity|].
  unfold bindM at 1, liftR.
  destruct (convert asset _ _) as [e|converted]; [reflexivity|].
  cbv zeta.
  set (computed := execution_options converted ∅).
  set (l1 := fresh (dom (heap st))).
  set (l2 := fresh (dom (<[l1 := computed]> (heap st)))).
  assert (H1 : l1 ∉ dom (heap st)) by apply is_fresh.
  assert (H2 : l2 ∉ dom (<[l1 := computed]> (heap st))) by apply is_fresh.
  assert (Hne1 : l1 <> options).
  { intros ->. apply H1, elem_of_dom. now exists o. }
  assert (Hne2 : l2 <> l1).
  { intros Heq. apply H2. rewrite Heq, dom_insert_L. set_solver. }
  assert (Hne3 : l2 <> options).
  { intros Heq. apply H2. rewrite Heq, dom_insert_L.
    apply elem_of_union_r, elem_of_dom. now exists o. }
  unfold bindM, alloc, Object_assign. cbn [heap log now].
  change (<["validator_unstake_amounts"%string := JSON_stringify converted]>
            (<["unstake_type"%string := UnstakeTypeExecution]> ∅))
    with computed.
  fold l1. fold l2. cbn [foldl].
  rewrite lookup_insert_eq.
  rewrite (lookup_insert_ne _ l2 options) by assumption.
  rewrite (lookup_insert_ne _ l1 options) by assumption.
  rewrite (lookup_insert_ne _ l2 l1) by assumption.
  rewrite lookup_insert_eq, Ho. cbn [default]. unfold id.
  rewrite assign_all_fresh. unfold computed, execution_options.
  rewrite assign_all_computed; [reflexivity|discriminate|discriminate|].
  apply lookup_delete_eq.
Qed.

(** The amounts that convert are stored under their names, in order. *)
Lemma convert_exact (asset : Asset.t) (l : list (string * Decimal.t)) :
  forall acc r,
    NoDup (acc.*1 ++ l.*1) ->
    convert asset l acc = inr r ->
    r = acc ++ (on_value (atomic_text asset) <$> l).
Proof.
  induction l as [|[k a] l IH]; intros acc r Hnd Hr.
  - injection Hr as <-. cbn. now rewrite app_nil_r.
  - cbn [convert] in Hr. cbn [fmap list_fmap fst] in Hnd.
    destruct (Asset.toAtomicAmount asset a) as [e|atomic] eqn:Ha; [discriminate|].
    assert (Hk : k ∉ acc.*1).
    { apply NoDup_app in Hnd as (_ & Hdis & _). intros Hin.
      apply (Hdis k Hin). left. }
    rewrite (set_fresh k _ acc Hk) in Hr.
    apply IH in Hr.
    + rewrite Hr, <- app_assoc. cbn [fmap list_fmap app].
      do 2 f_equal. unfold on_value, atomic_text. cbn [fst snd].
      now rewrite Ha.
    + rewrite fmap_app, <- app_assoc. exact Hnd.
Qed.

(** The text that [JSON.stringify] makes of the converted amounts when the
    public keys are made of plain characters. *)
Lemma JSON_stringify_converted (asset : Asset.t) (amounts : Dict.t Decimal.t) :
  Forall (fun p => plain p.1 = true) amounts ->
  JSON_stringify (on_value (atomic_text asset) <$> Dict.entries amounts)
  = String.append "{"
      (String.append
         (String.concat ","
            (map (fun p =>
                    String.append (quoted p.1)
                      (String.append ":" (quoted (atomic_text asset p.2))))
                 (Dict.entries amounts)))
         "}").
Proof.
  intros Hplain. unfold JSON_stringify, join.
  rewrite entries_on_value, entries_idem.
  do 3 f_equal.
  assert (Hall : Forall (fun p : string * Decimal.t => plain p.1 = true)
                   (Dict.entries amounts)) by now rewrite entries_perm.
  induction Hall as [|p l Hp _ IH]; [reflexivity|].
  cbn [fmap list_fmap map on_value fst snd]. f_equal; [|exact IH].
  now rewrite (QuoteJSONString_plain _ Hp),
    (QuoteJSONString_plain _ (plain_atomic_text asset p.2)).
Qed.

End Withdrawals.

(** X13.  After any sequence of [addValidatorWithdrawal] calls, none of them
    for the name "__proto__", the builder holds one amount for each public
    key, the one of the last call for that key, and the keys in the order of
    their first call; going through the object visits every key once. *)
Theorem validator_withdrawals_last_amount_wins
    (withdrawals : list (string * Decimal.t)) (network : string) :
  "__proto__"%string ∉ withdrawals.*1 ->
  let builder :=
    addValidatorWithdrawals withdrawals
      (ExecutionLayerWithdrawalOptionsBuilder.new network) in
  let amounts := ExecutionLayerWithdrawalOptionsBuilder.validatorAmounts builder in
  amounts.*1 = first_seen ∅ withdrawals.*1
  /\ NoDup amounts.*1
  /\ (forall key, key ∉ withdrawals.*1 -> Dict.get key amounts = None)
  /\ (forall before key amount after,
        withdrawals = before ++ (key, amount) :: after ->
        key ∉ after.*1 ->
        Dict.get key amounts = Some amount)
  /\ Dict.keys amounts ≡ₚ amounts.*1
  /\ NoDup (Dict.keys amounts)
  /\ ExecutionLayerWithdrawalOptionsBuilder.networkId builder = network.
Proof.
  intros _ builder amounts.
  assert (Hnames : amounts.*1 = first_seen ∅ withdrawals.*1).
  { unfold amounts, builder. rewrite names_addValidatorWithdrawals. reflexivity. }
  assert (Hnd : NoDup amounts.*1).
  { rewrite Hnames. apply first_seen_fresh. }
  split; [exact Hnames|]. split; [exact Hnd|]. split; [|split; [|split; [|split]]].
  - intros key Hkey. unfold amounts, builder.
    now rewrite get_addValidatorWithdrawals_absent.
  - intros before key amount after -> Hafter. unfold amounts, builder.
    rewrite addValidatorWithdrawals_app, addValidatorWithdrawals_cons.
    rewrite get_addValidatorWithdrawals_absent by assumption.
    apply get_set_eq.
  - unfold Dict.keys. now rewrite entries_perm.
  - unfold Dict.keys. now apply NoDup_entries.
  - unfold builder. now rewrite networkId_addValidatorWithdrawals.
Qed.

Lemma validator_withdrawals_last_amount_wins_witness :
  let builder := example_builder in
  let amounts := ExecutionLayerWithdrawalOptionsBuilder.validatorAmounts builder in
  amounts.*1 = first_seen ∅ example_withdrawals.*1
  /\ NoDup amounts.*1
  /\ (forall key, key ∉ example_withdrawals.*1 -> Dict.get key amounts = None)
  /\ (forall before key amount after,
        example_withdrawals = before ++ (key, amount) :: after ->
        key ∉ after.*1 ->
        Dict.get key amounts = Some amount)
  /\ Dict.keys amounts ≡ₚ amounts.*1
  /\ NoDup (Dict.keys amounts)
  /\ ExecutionLayerWithdrawalOptionsBuilder.networkId builder
     = "ethereum_mainnet"%string.
Proof.
  apply (validator_withdrawals_last_amount_wins example_withdrawals
           "ethereum_mainnet").
  decide_by_computation.
Defined.

(** X14.  [ExecutionLayerWithdrawalOptionsBuilder.build], on a builder that
    holds each public key once and none under the name "__proto__", sends
    one request, the lookup of the asset "eth" on the builder's network.
    When the lookup resolves the asset and every amount held converts to
    atomic units, [build] returns a new object: [unstake_type] is
    "execution", [validator_unstake_amounts] is what [JSON.stringify] makes
    of the converted amounts, and every other entry is the caller's, except
    an entry named "__proto__", which the new object never has.  The
    converted amounts are the held public keys, in the order in which the
    object is read, each with its printed atomic amount; when the public
    keys are made of plain characters (no control character, quotation mark
    or backslash), the text is a brace, the members [key:amount] in that
    order, key and amount each between quotation marks, with commas between
    the members, and a brace.  When an amount does not convert, [build]
    throws and makes no object.  In every case the objects that existed
    before the call are as they were. *)
Theorem execution_builder_builds_merged_options
    (b : Backend) (builder : ExecutionLayerWithdrawalOptionsBuilder.t)
    (st : State) (options : loc) (o : Options) (asset : Asset.t) :
  heap st !! options = Some o ->
  NoDup (ExecutionLayerWithdrawalOptionsBuilder.validatorAmounts builder).*1 ->
  "__proto__"%string
    ∉ (ExecutionLayerWithdrawalOptionsBuilder.validatorAmounts builder).*1 ->
  (Asset_fetch b (ExecutionLayerWithdrawalOptionsBuilder.networkId builder) "eth"
     st).2 = inr asset ->
  let amounts := ExecutionLayerWithdrawalOptionsBuilder.validatorAmounts builder in
  let run := ExecutionLayerWithdrawalOptionsBuilder.build b builder (Some options) st in
  let member (p : string * Decimal.t) : string :=
    String.append (quoted p.1)
      (String.append ":" (quoted (atomic_text asset p.2))) in
  log run.1
  = log st
    ++ [GetAsset
          (Coinbase.normalizeNetwork
             (ExecutionLayerWithdrawalOptionsBuilder.networkId builder))
          "eth"]
  /\ (forall l, is_Some (heap st !! l) -> heap run.1 !! l = heap st !! l)
  /\ (forall key amount,
        Dict.get key amounts = Some amount ->
        is_thrown (Asset.toAtomicAmount asset amount) = true ->
        is_thrown run.2 = true /\ heap run.1 = heap st)
  /\ ((forall key amount,
         Dict.get key amounts = Some amount ->
         is_thrown (Asset.toAtomicAmount asset amount) = false) ->
      exists result merged converted,
        run.2 = inr result
        /\ heap st !! result = None
        /\ heap run.1 !! result = Some merged
        /\ merged !! "unstake_type"%string = Some "execution"%string
        /\ merged !! "validator_unstake_amounts"%string
           = Some (JSON_stringify converted)
        /\ (forall k : string,
              k <> "unstake_type"%string ->
              k <> "validator_unstake_amounts"%string ->
              k <> "__proto__"%string ->
              merged !! k = o !! k)
        /\ merged !! "__proto__"%string = None
        /\ NoDup converted.*1
        /\ converted.*1 = Dict.keys amounts
        /\ converted = on_value (atomic_text asset) <$> Dict.entries amounts
        /\ (forall key amount,
              Dict.get key amounts = Some amount ->
              exists atomic,
                Asset.toAtomicAmount asset amount = inr atomic
                /\ Dict.get key converted = Some (Decimal.string_of_Z atomic))
        /\ (Forall (fun p => plain p.1 = true) amounts ->
            JSON_stringify converted
            = String.append "{"
                (String.append
                   (String.concat "," (map member (Dict.entries amounts))) "}"))).
Proof.
  intros Ho Hnd _ Hasset amounts run member.
  assert (Hentries : forall key amount,
            Dict.get key amounts = Some amount
            <-> (key, amount) ∈ Dict.entries amounts).
  { intros key amount. rewrite (get_Some key amount amounts Hnd).
    now rewrite entries_perm. }
  pose proof (NoDup_entries amounts Hnd) as Hnd'.
  unfold run. rewrite (execution_build_eq b builder st options o Ho).
  cbv zeta. rewrite Hasset. fold amounts.
  destruct (ExecutionLayerWithdrawalOptionsBuilder.convert asset
              (Dict.entries amounts) Dict.empty) as [e|converted] eqn:Hconvert.
  - cbn [fst snd heap log]. split; [reflexivity|]. split; [reflexivity|].
    split; [now intros|].
    intros Hok. exfalso.
    destruct (convert_total asset (Dict.entries amounts) Dict.empty) as [r Hr].
    + intros key amount Hin. apply (Hok key amount). now apply Hentries.
    + rewrite Hr in Hconvert. discriminate.
  - set (computed := execution_options converted ∅).
    set (l1 := fresh (dom (heap st))).
    set (l2 := fresh (dom (<[l1 := computed]> (heap st)))).
    assert (H1 : l1 ∉ dom (heap st)) by apply is_fresh.
    assert (H2 : l2 ∉ dom (<[l1 := computed]> (heap st))) by apply is_fresh.
    assert (Hold : forall l, is_Some (heap st !! l) -> l <> l1 /\ l <> l2).
    { intros l Hl%elem_of_dom. split; intros ->; [now apply H1|].
      apply H2. rewrite dom_insert_L. now apply elem_of_union_r. }
    cbn [fst snd heap log]. split; [reflexivity|]. split; [|split].
    + intros l Hl. destruct (Hold l Hl) as [Hl1 Hl2].
      now rewrite !lookup_insert_ne by congruence.
    + intros key amount Hheld Hbad. exfalso.
      pose proof (convert_fails asset (Dict.entries amounts) Dict.empty key amount
                    (proj1 (Hentries key amount) Hheld) Hbad) as Hthrown.
      rewrite Hconvert in Hthrown. discriminate.
    + intros _.
      destruct (convert_spec asset (Dict.entries amounts) Dict.empty converted
                  Hnd' Hconvert) as (Hin & _ & Hnames).
      cbn [Dict.empty fmap list_fmap app] in Hnames.
      rewrite filter_all in Hnames by (intros x _ H; now apply elem_of_nil in H).
      pose proof (convert_exact asset (Dict.entries amounts) Dict.empty converted
                    Hnd' Hconvert) as Hexact.
      cbn [Dict.empty app] in Hexact.
      exists l2, (execution_options converted (delete "__proto__"%string o)),
        converted.
      split; [reflexivity|]. split.
      { apply not_elem_of_dom. intros Hdom. apply H2. rewrite dom_insert_L.
        now apply elem_of_union_r. }
      split; [apply lookup_insert_eq|]. split.
      { unfold execution_options. rewrite lookup_insert_ne by discriminate.
        apply lookup_insert_eq. }
      split; [apply lookup_insert_eq|]. split.
      { intros k Hk1 Hk2 Hk3. unfold execution_options.
        rewrite !lookup_insert_ne by congruence. now apply lookup_delete_ne. }
      split.
      { unfold execution_options. rewrite !lookup_insert_ne by discriminate.
        apply lookup_delete_eq. }
      split; [now rewrite Hnames|]. split; [exact Hnames|].
      split; [exact Hexact|]. split.
      { intros key amount Hheld. apply Hin. now apply Hentries. }
      intros Hplain. rewrite Hexact.
      now apply JSON_stringify_converted.
Qed.

Lemma execution_builder_builds_merged_options_witness :
  let o : Options := <["immediate"%string := "true"%string]> ∅ in
  let run :=
    ExecutionLayerWithdrawalOptionsBuilder.build building_backend example_builder
      (Some 0%nat) (state_with_options o) in
  log run.1 = [GetAsset "ethereum-mainnet" "eth"]
  /\ exists result merged,
       run.2 = inr result
       /\ heap run.1 !! result = Some merged
       /\ merged !! "unstake_type"%string = Some "execution"%string
       /\ merged !! "validator_unstake_amounts"%string
          = Some ("{" +:+ quoted "0xk1" +:+ ":" +:+ quoted "3000000000000000000"
                  +:+ "," +:+ quoted "0xk2" +:+ ":" +:+ quoted "2000000000000000000"
                  +:+ "}")
       /\ merged !! "immediate"%string = Some "true"%string.
Proof.
  intros o run.
  destruct (execution_builder_builds_merged_options building_backend example_builder
              (state_with_options o) 0%nat o eth18)
    as (Hlog & _ & _ & Hbuilt).
  - reflexivity.
  - decide_by_computation.
  - decide_by_computation.
  - reflexivity.
  - split; [exact Hlog|].
    destruct Hbuilt
      as (result & merged & converted & Hrun & _ & Hheap & Htype & Htext & Hkeep
          & _ & _ & _ & _ & _ & Hjson).
    + intros key amount Hget.
      change (Dict.get key [("0xk1"%string, Decimal.of_Z 3);
                            ("0xk2"%string, Decimal.of_Z 2)] = Some amount) in Hget.
      cbn [Dict.get] in Hget.
      destruct (String.eqb "0xk1" key); [injection Hget as <-; reflexivity|].
      destruct (String.eqb "0xk2" key); [injection Hget as <-; reflexivity|].
      discriminate.
    + exists result, merged. split; [exact Hrun|]. split; [exact Hheap|].
      split; [exact Htype|]. split.
      * rewrite Htext, Hjson; [reflexivity|]. now repeat constructor.
      * rewrite Hkeep by discriminate. reflexivity.
Defined.

(** ** Unstaking with built options *)

Section Exit.

Variable Balance_amount : BalanceModel -> string -> Decimal.t.
Variable render : Decimal.t -> string.

Implicit Types (b : Backend) (a : Address.t) (st : State).

Lemma buildUnstakeOperation_exempt b a amount assetId mode (options : loc) st :
  IsDedicatedEthUnstakeV2Operation assetId "unstake" mode
    (default ∅ (heap st !! options)) = true ->
  ExternalAddress.buildUnstakeOperation Balance_amount render b a amount assetId
    mode options st
  = ExternalAddress.buildStakingOperation b a amount assetId "unstake" mode
      options st.
Proof.
  intros He. unfold ExternalAddress.buildUnstakeOperation.
  unfold bindM at 1, deref at 1. rewrite He. reflexivity.
Qed.

(** X15.  Options that carry the unstake type "consensus" or "execution",
    as the two builders make them, unstake ether in NATIVE mode without a
    look at the balance and without an amount: whatever the amount argument
    is, [buildUnstakeOperation] sends the asset lookup and then the build
    request, whose options are the given options with the mode added, and
    never asks for the staking context.  The object that
    [ConsensusLayerExitOptionBuilder.build] returns carries such options,
    and so does the one [ExecutionLayerWithdrawalOptionsBuilder.build]
    returns. *)
Theorem built_options_unstake_without_balance_check
    b a amount (options : loc) (o : Options) st :
  heap st !! options = Some o ->
  HasUnstakeTypeOption o = true ->
  let run :=
    ExternalAddress.buildUnstakeOperation Balance_amount render b a amount "eth"
      NATIVE options st in
  let sent : Options := <["mode"%string := "native"%string]> o in
  let req := staking_request a "eth" "unstake" sent in
  (forall c, c ∈ log run.1 ->
     c ∈ log st \/ c = asset_lookup a "eth" \/ c = BuildStakingOperation req)
  /\ (forall asset,
        (Asset_fetch b (Address.getNetworkId a) "eth" st).2 = inr asset ->
        log run.1 = log st ++ [asset_lookup a "eth"; BuildStakingOperation req]
        /\ run.2 = match buildStakingOperation b req with
                   | inl e => inl e
                   | inr response => StakingOperation.new (Some response)
                   end)
  /\ sent !! "amount"%string = o !! "amount"%string
  /\ (forall builder st0 (l0 : loc) (o0 : Options),
        heap st0 !! l0 = Some o0 ->
        exists st1 l1 o1,
          ConsensusLayerExitOptionBuilder.build builder (Some l0) st0
          = (st1, inr l1)
          /\ heap st1 !! l1 = Some o1
          /\ HasUnstakeTypeOption o1 = true
          /\ o1 !! "amount"%string = o0 !! "amount"%string)
  /\ (forall b0 builder st0 (l0 : loc) (o0 : Options) st1 l1,
        heap st0 !! l0 = Some o0 ->
        ExecutionLayerWithdrawalOptionsBuilder.build b0 builder (Some l0) st0
        = (st1, inr l1) ->
        exists o1,
          heap st1 !! l1 = Some o1
          /\ HasUnstakeTypeOption o1 = true
          /\ o1 !! "amount"%string = o0 !! "amount"%string).
Proof.
  intros Ho Htype run sent req.
  assert (He : IsDedicatedEthUnstakeV2Operation "eth" "unstake" NATIVE
                 (default ∅ (heap st !! options)) = true).
  { rewrite Ho. cbn [default]. unfold id, IsDedicatedEthUnstakeV2Operation.
    now rewrite Htype. }
  assert (Hrun : run
    = match (Asset_fetch b (Address.getNetworkId a) "eth" st).2 with
      | inl e =>
          ({| heap := heap st; log := log st ++ [asset_lookup a "eth"];
              now := now st |}, inl e)
      | inr asset =>
          (with_copy st sent [asset_lookup a "eth"; BuildStakingOperation req],
           match buildStakingOperation b req with
           | inl e => inl e
           | inr response => StakingOperation.new (Some response)
           end)
      end).
  { unfold run. rewrite (buildUnstakeOperation_exempt _ _ _ _ _ _ _ He).
    rewrite buildStakingOperation_eq. cbv zeta. rewrite He.
    rewrite Ho. reflexivity. }
  split; [|split; [|split; [|split]]].
  - intros c. rewrite Hrun.
    destruct (Asset_fetch b (Address.getNetworkId a) "eth" st).2;
      cbn [fst with_copy log]; rewrite elem_of_app.
    + intros [H|H%list_elem_of_singleton]; [now left|right; now left].
    + intros [H|[->|H%list_elem_of_singleton]%elem_of_cons];
        [now left|right; now left|right; now right].
  - intros asset Hasset. rewrite Hrun, Hasset. now split.
  - unfold sent. now rewrite lookup_insert_ne.
  - intros builder st0 l0 o0 Hl0.
    rewrite (build_eq builder st0 l0 o0 Hl0).
    eexists _, _, _. split; [reflexivity|]. cbn [heap].
    split; [apply lookup_insert_eq|]. split.
    + unfold HasUnstakeTypeOption.
      rewrite lookup_insert_ne by discriminate. rewrite lookup_insert_eq.
      reflexivity.
    + rewrite !lookup_insert_ne by discriminate.
      now apply lookup_delete_ne.
  - intros b0 builder st0 l0 o0 st1 l1 Hl0.
    rewrite (execution_build_eq b0 builder st0 l0 o0 Hl0). cbv zeta.
    destruct (Asset_fetch b0 _ "eth" st0).2 as [e|asset]; [discriminate|].
    destruct (ExecutionLayerWithdrawalOptionsBuilder.convert asset _ _)
      as [e|converted]; [discriminate|].
    intros [= <- <-]. eexists. cbn [heap].
    split; [apply lookup_insert_eq|]. split.
    + unfold HasUnstakeTypeOption, execution_options.
      rewrite lookup_insert_ne by discriminate. rewrite lookup_insert_eq.
      reflexivity.
    + unfold execution_options. rewrite !lookup_insert_ne by discriminate.
      now apply lookup_delete_ne.
Qed.

End Exit.

Lemma built_options_unstake_without_balance_check_witness :
  let run :=
    ExternalAddress.buildUnstakeOperation example_balance_amount Decimal.toFixed
      building_backend example_address (Decimal.of_Z 0) "eth" NATIVE 0%nat
      (state_with_options exit_options) in
  let sent : Options := <["mode"%string := "native"%string]> exit_options in
  let req := staking_request example_address "eth" "unstake" sent in
  log run.1 = [asset_lookup example_address "eth"; BuildStakingOperation req]
  /\ run.2 = match buildStakingOperation building_backend req with
             | inl e => inl e
             | inr response => StakingOperation.new (Some response)
             end.
Proof.
  destruct (built_options_unstake_without_balance_check example_balance_amount
              Decimal.toFixed building_backend example_address (Decimal.of_Z 0)
              0%nat exit_options (state_with_options exit_options))
    as (_ & Hsent & _).
  - reflexivity.
  - reflexivity.
  - apply (Hsent eth18). reflexivity.
Defined.

(** ** Operations built for an external address *)

Section Frame.

Implicit Types (st : State).

Lemma preserved_refl st : preserved st st.
Proof. now intros l _. Qed.

Lemma preserved_trans st1 st2 st3 :
  preserved st1 st2 -> preserved st2 st3 -> preserved st1 st3.
Proof.
  intros H12 H23 l Hl. rewrite <- (H12 l Hl). apply H23.
  now rewrite (H12 l Hl).
Qed.

Lemma preserved_log st (c : list ApiCall) :
  preserved st {| heap := heap st; log := log st ++ c; now := now st |}.
Proof. now intros l _. Qed.

Lemma preserved_with_copy st (o : Options) (c : list ApiCall) :
  preserved st (with_copy st o c).
Proof.
  intros l Hl%elem_of_dom. unfold with_copy. cbn [heap].
  apply lookup_insert_ne. intros <-. now apply (is_fresh (dom (heap st))).
Qed.

Lemma with_copy_lookup st (o : Options) (c : list ApiCall) (l : loc) (x : Options) :
  heap st !! l = Some x -> heap (with_copy st o c) !! l = Some x.
Proof.
  intros Hl. rewrite <- Hl. apply preserved_with_copy. now rewrite Hl.
Qed.

End Frame.

Section External.

Variable Balance_amount : BalanceModel -> string -> Decimal.t.
Variable render : Decimal.t -> string.

Implicit Types (b : Backend) (a : Address.t) (st : State).

Lemma buildStakingOperation_preserved b a amount assetId action mode
    (options : loc) st :
  preserved st
    (ExternalAddress.buildStakingOperation b a amount assetId action mode
       options st).1.
Proof.
  rewrite buildStakingOperation_eq. cbv zeta.
  destruct (Asset_fetch b (Address.getNetworkId a) assetId st).2 as [e|asset];
    [apply preserved_log|].
  destruct (IsDedicatedEthUnstakeV2Operation _ _ _ _); [apply preserved_with_copy|].
  destruct (Decimal.lessThanOrEqualTo _ _); [apply preserved_with_copy|].
  destruct (Asset.toAtomicAmount _ _); apply preserved_with_copy.
Qed.

Lemma validateCanStake_preserved b a amount assetId mode (options : loc) st :
  preserved st
    (Address.validateCanStake Balance_amount render b a amount assetId mode
       options st).1.
Proof. rewrite validateCanStake_eq. apply preserved_with_copy. Qed.

Lemma validateCanUnstake_preserved b a amount assetId mode (options : loc) st :
  preserved st
    (Address.validateCanUnstake Balance_amount render b a amount assetId mode
       options st).1.
Proof. rewrite validateCanUnstake_eq. apply preserved_with_copy. Qed.

Lemma validateCanClaimStake_preserved b a amount assetId mode (options : loc) st :
  preserved st
    (Address.validateCanClaimStake Balance_amount render b a amount assetId mode
       options st).1.
Proof.
  rewrite validateCanClaimStake_eq.
  destruct (_ && _); [apply preserved_refl|apply preserved_with_copy].
Qed.

(** A step that follows a validation. *)
Lemma preserved_bind {A B : Type} (m : M A) (k : A -> M B) st :
  preserved st (m st).1 ->
  (forall x st1, preserved st1 (k x st1).1) ->
  preserved st (bindM m k st).1.
Proof.
  intros Hm Hk. unfold bindM. destruct (m st) as [st1 [e|x]]; [exact Hm|].
  eapply preserved_trans; [exact Hm|apply Hk].
Qed.

(** X16.  The builders of an external address never write to an object
    that exists when they are called: after [buildStakeOperation],
    [buildUnstakeOperation], [buildClaimStakeOperation] or
    [buildStakingOperation] for any action, whether it returned or threw,
    every object of the caller, the options object included, is as it was.
    The mode and the amount are written to copies. *)
Theorem external_builders_write_to_copies
    b a amount assetId mode (options : loc) st :
  preserved st
    (ExternalAddress.buildStakeOperation Balance_amount render b a amount
       assetId mode options st).1
  /\ preserved st
       (ExternalAddress.buildUnstakeOperation Balance_amount render b a amount
          assetId mode options st).1
  /\ preserved st
       (ExternalAddress.buildClaimStakeOperation Balance_amount render b a
          amount assetId mode options st).1
  /\ (forall action,
        preserved st
          (ExternalAddress.buildStakingOperation b a amount assetId action mode
             options st).1).
Proof.
  split; [|split; [|split]].
  - apply preserved_bind; [apply validateCanStake_preserved|].
    intros _ st1. apply buildStakingOperation_preserved.
  - unfold ExternalAddress.buildUnstakeOperation.
    apply preserved_bind; [apply preserved_refl|]. intros current st1.
    apply preserved_bind.
    + destruct (negb _); [apply validateCanUnstake_preserved|apply preserved_refl].
    + intros _ st2. apply buildStakingOperation_preserved.
  - apply preserved_bind; [apply validateCanClaimStake_preserved|].
    intros _ st1. apply buildStakingOperation_preserved.
  - intros action. apply buildStakingOperation_preserved.
Qed.

(** *** Validation comes first *)

Lemma buildStakeOperation_eq b a amount assetId mode (options : loc) st :
  ExternalAddress.buildStakeOperation Balance_amount render b a amount assetId
    mode options st
  = match Address.validateCanStake Balance_amount render b a amount assetId mode
            options st with
    | (st1, inl e) => (st1, inl e)
    | (st1, inr _) =>
        ExternalAddress.buildStakingOperation b a amount assetId "stake" mode
          options st1
    end.
Proof. reflexivity. Qed.

Lemma buildUnstakeOperation_eq b a amount assetId mode (options : loc) st :
  ExternalAddress.buildUnstakeOperation Balance_amount render b a amount assetId
    mode options st
  = if IsDedicatedEthUnstakeV2Operation assetId "unstake" mode
         (default ∅ (heap st !! options))
    then ExternalAddress.buildStakingOperation b a amount assetId "unstake" mode
           options st
    else match Address.validateCanUnstake Balance_amount render b a amount
                 assetId mode options st with
         | (st1, inl e) => (st1, inl e)
         | (st1, inr _) =>
             ExternalAddress.buildStakingOperation b a amount assetId "unstake"
               mode options st1
         end.
Proof.
  unfold ExternalAddress.buildUnstakeOperation.
  unfold bindM at 1, deref at 1.
  now destruct (IsDedicatedEthUnstakeV2Operation _ _ _ _).
Qed.

Lemma buildClaimStakeOperation_eq b a amount assetId mode (options : loc) st :
  ExternalAddress.buildClaimStakeOperation Balance_amount render b a amount
    assetId mode options st
  = match Address.validateCanClaimStake Balance_amount render b a amount assetId
            mode options st with
    | (st1, inl e) => (st1, inl e)
    | (st1, inr _) =>
        ExternalAddress.buildStakingOperation b a amount assetId "claim_stake"
          mode options st1
    end.
Proof. reflexivity. Qed.

(** X17.  Validation comes first.  [buildStakeOperation], and likewise
    [buildUnstakeOperation] for a request that is not exempt and
    [buildClaimStakeOperation] unless the asset is "eth" in NATIVE mode,
    begins with the request for the staking context.  When that request
    fails, or the balance it reports is below the amount, the builder throws
    the error of the validation and has sent nothing else: no asset lookup
    and no build request.  Otherwise it goes on as [buildStakingOperation]
    does from the state the validation left, with the caller's options, so
    that a stake that passes sends three requests: the staking context, the
    asset lookup and the build request with the mode and the atomic
    amount. *)
Theorem builders_validate_first
    b a amount assetId mode (options : loc) (o : Options) st :
  heap st !! options = Some o ->
  let ctx := context_request a assetId mode o in
  let validated :=
    with_copy st (<["mode"%string := mode_string mode]> o) [GetStakingContext ctx] in
  let gate (what : string) (balance : StakingContextModel -> BalanceModel)
      (action : string) (run : State * Result StakingOperation.t) : Prop :=
    (forall e, getStakingContext b ctx = inl e -> run = (validated, inl e))
    /\ (forall context,
          getStakingContext b ctx = inr context ->
          let available := Balance_amount (balance context) assetId in
          (Decimal.lessThan available amount = true ->
           run = (validated,
                  inl (JsError (Address.insufficient render amount what available))))
          /\ (Decimal.lessThan available amount = false ->
              run = ExternalAddress.buildStakingOperation b a amount assetId
                      action mode options validated
              /\ heap validated !! options = Some o)) in
  gate "stake"%string stakeable_balance "stake"%string
    (ExternalAddress.buildStakeOperation Balance_amount render b a amount assetId
       mode options st)
  /\ (IsDedicatedEthUnstakeV2Operation assetId "unstake" mode o = false ->
      gate "unstake"%string unstakeable_balance "unstake"%string
        (ExternalAddress.buildUnstakeOperation Balance_amount render b a amount
           assetId mode options st))
  /\ (~ (assetId = "eth"%string /\ mode = NATIVE) ->
      gate "claim stake"%string claimable_balance "claim_stake"%string
        (ExternalAddress.buildClaimStakeOperation Balance_amount render b a
           amount assetId mode options st))
  /\ (forall context asset atomic,
        getStakingContext b ctx = inr context ->
        Decimal.lessThan (Balance_amount (stakeable_balance context) assetId)
          amount = false ->
        Decimal.lessThanOrEqualTo amount (Decimal.of_Z 0) = false ->
        (Asset_fetch b (Address.getNetworkId a) assetId st).2 = inr asset ->
        Asset.toAtomicAmount asset amount = inr atomic ->
        let sent : Options :=
          <["amount"%string := Decimal.string_of_Z atomic]>
            (<["mode"%string := mode_string mode]> o) in
        log (ExternalAddress.buildStakeOperation Balance_amount render b a
               amount assetId mode options st).1
        = log st
          ++ [GetStakingContext ctx; asset_lookup a assetId;
              BuildStakingOperation (staking_request a assetId "stake" sent)]).
Proof.
  intros Ho ctx validated gate.
  assert (Hd : default ∅ (heap st !! options) = o) by now rewrite Ho.
  assert (Hv : heap validated !! options = Some o).
  { now apply with_copy_lookup. }
  split; [|split; [|split]].
  - unfold gate. rewrite buildStakeOperation_eq, validateCanStake_eq. cbv zeta.
    rewrite Hd. fold ctx validated. split.
    + now intros e ->.
    + intros context ->. cbv zeta. split; intros Hlt; rewrite Hlt; [reflexivity|].
      now split.
  - intros Hexempt. unfold gate.
    rewrite buildUnstakeOperation_eq, Hd, Hexempt, validateCanUnstake_eq. cbv zeta.
    rewrite Hd. fold ctx validated. split.
    + now intros e ->.
    + intros context ->. cbv zeta. split; intros Hlt; rewrite Hlt; [reflexivity|].
      now split.
  - intros Hguard. unfold gate.
    rewrite buildClaimStakeOperation_eq, validateCanClaimStake_eq. cbv zeta.
    destruct (String.eqb assetId "eth" && bool_decide (mode = NATIVE)) eqn:Hg.
    { apply andb_true_iff in Hg as [Hasset Hmode].
      apply String.eqb_eq in Hasset. apply bool_decide_eq_true in Hmode.
      now destruct Hguard. }
    rewrite Hd. fold ctx validated. split.
    + now intros e ->.
    + intros context ->. cbv zeta. split; intros Hlt; rewrite Hlt; [reflexivity|].
      now split.
  - intros context asset atomic Hctx Hlt Hpos Hasset Hatomic sent.
    rewrite buildStakeOperation_eq, validateCanStake_eq. cbv zeta.
    rewrite Hd. fold ctx validated. rewrite Hctx. cbv zeta. rewrite Hlt.
    rewrite buildStakingOperation_eq. cbv zeta. rewrite Hv. cbn [default].
    unfold id.
    assert (Hfetch : (Asset_fetch b (Address.getNetworkId a) assetId validated).2
                     = inr asset).
    { rewrite Asset_fetch_eq in Hasset |- *. exact Hasset. }
    rewrite Hfetch.
    assert (Hne : IsDedicatedEthUnstakeV2Operation assetId "stake" mode o = false).
    { unfold IsDedicatedEthUnstakeV2Operation.
      now rewrite andb_false_r. }
    rewrite Hne, Hpos, Hatomic. cbn [fst with_copy log validated].
    now rewrite <- app_assoc.
Qed.

End External.

Lemma builders_validate_first_witness :
  let o : Options := <["immediate"%string := "true"%string]> ∅ in
  let st := state_with_options o in
  let run :=
    ExternalAddress.buildStakeOperation example_balance_amount Decimal.toFixed
      gate_backend example_address (Decimal.of_Z 6) "eth" DEFAULT 0%nat st in
  run
  = (with_copy st (<["mode"%string := "default"%string]> o)
       [GetStakingContext (context_request example_address "eth" DEFAULT o)],
     inl (JsError "Insufficient funds 6 requested to stake, only 5 available.")).
Proof.
  destruct (builders_validate_first example_balance_amount Decimal.toFixed
              gate_backend example_address (Decimal.of_Z 6) "eth" DEFAULT 0%nat
              (<["immediate"%string := "true"%string]> ∅)
              (state_with_options (<["immediate"%string := "true"%string]> ∅)))
    as ((_ & Hgate) & _).
  - reflexivity.
  - destruct (Hgate {| stakeable_balance := example_balance "5";
                       unstakeable_balance := example_balance "3";
                       pending_claimable_balance := example_balance "0";
                       claimable_balance := example_balance "2" |} eq_refl)
      as [Hlow _].
    apply Hlow. reflexivity.
Defined.

(** ** Operations created for a wallet address *)

Section Wallet.

Implicit Types (b : Backend) (w : WalletAddress.t) (st : State).


Lemma createStakingOperation_eq fuel rounds w amount assetId action mode
    (options : loc) timeoutSeconds intervalSeconds st :
  WalletAddress.createStakingOperation fuel rounds w amount assetId action mode
    options timeoutSeconds intervalSeconds st
  = if negb (IsDedicatedEthUnstakeV2Operation assetId action mode
               (default ∅ (heap st !! options)))
       && Decimal.lessThanOrEqualTo amount (Decimal.of_Z 0)
    then (st, inl (JsError "Amount required greater than zero."))
    else
      match WalletAddress.createStakingOperationRequest (backend (rounds 0%nat)) w amount
              assetId action mode options st with
      | (st1, inl e) => (st1, inl e)
      | (st1, inr stakingOperation) =>
          WalletAddress.create_loop fuel rounds w 0
            (now (later (latency (rounds 0%nat)) st1))
            timeoutSeconds intervalSeconds stakingOperation
            (later (latency (rounds 0%nat)) st1)
      end.
Proof.
  unfold WalletAddress.createStakingOperation. unfold bindM at 1, deref at 1.
  destruct (IsDedicatedEthUnstakeV2Operation _ _ _ _); cbn [negb andb].
  - unfold bindM at 1, retM at 1. unfold bindM at 1, await, bindM at 1.
    destruct (WalletAddress.createStakingOperationRequest _ _ _ _ _ _ _ _) as [st1 [e|op]];
      reflexivity.
  - destruct (Decimal.lessThanOrEqualTo _ _); [reflexivity|].
    unfold bindM at 1, retM at 1. unfold bindM at 1, await, bindM at 1.
    destruct (WalletAddress.createStakingOperationRequest _ _ _ _ _ _ _ _) as [st1 [e|op]];
      reflexivity.
Qed.

(** The loop returns operations in a terminal state only. *)
Lemma create_loop_terminal rounds w startTime timeoutSeconds intervalSeconds :
  forall fuel i op st st' op',
    WalletAddress.create_loop fuel rounds w i startTime timeoutSeconds intervalSeconds op st
    = (st', inr (Some op')) ->
    StakingOperation.isTerminalState op' = true.
Proof.
  induction fuel as [|fuel IH]; intros i op st st' op'; [discriminate|].
  cbn [WalletAddress.create_loop]. unfold bindM at 1, Date_now at 1.
  destruct (Qltb _ _); [|discriminate].
  unfold bindM at 1.
  destruct (WalletAddress.sign_and_broadcast (S fuel) (rounds i) w 0 op st)
    as [st1 [e|[op1|]]]; [discriminate| |discriminate].
  unfold bindM at 1, await, bindM at 1.
  destruct (StakingOperation.reload (backend (rounds i)) op1 st1)
    as [st2 [e|op2]]; [discriminate|].
  unfold bindM at 1, elapse at 1, retM at 1.
  destruct (StakingOperation.isTerminalState op2) eqn:Hterm.
  - now intros [= _ <-].
  - unfold bindM at 1, delay, elapse. apply IH.
Qed.

(** *** Signing and broadcasting *)

Lemma sign_and_broadcast_sent r w :
  forall fuel i op st,
    exists st' res (sent : list ApiCall) (indices : list nat),
      WalletAddress.sign_and_broadcast fuel r w i op st = (st', res)
      /\ heap st' = heap st
      /\ log st' = log st ++ sent
      /\ broadcast_index <$> sent = Some <$> indices
      /\ StronglySorted lt indices
      /\ Forall (le i) indices
      /\ Forall (broadcast_of w) sent.
Proof.
  induction fuel as [|fuel IH]; intros i op st.
  - exists st, (inr None), [], []. cbn. rewrite app_nil_r.
    repeat split; constructor.
  - assert (Hnone : forall res : Result (option StakingOperation.t),
              exists st' res' (sent : list ApiCall) (indices : list nat),
                (st, res) = (st', res')
                /\ heap st' = heap st /\ log st' = log st ++ sent
                /\ broadcast_index <$> sent = Some <$> indices
                /\ StronglySorted lt indices /\ Forall (le i) indices
                /\ Forall (broadcast_of w) sent).
    { intros res. exists st, res, [], []. cbn. rewrite app_nil_r.
      repeat split; constructor. }
    assert (Hweaken : forall indices : list nat,
              Forall (le (S i)) indices -> Forall (le i) indices).
    { intros indices H. eapply Forall_impl; [exact H|]. intros x Hx. cbn in Hx. lia. }
    cbn [WalletAddress.sign_and_broadcast].
    destruct (StakingOperation.getTransactions op !! i) as [transaction|];
      [|apply Hnone].
    destruct (negb (Transaction.isSigned transaction)).
    2:{ destruct (IH (S i) op st)
          as (st' & res & sent & indices & H0 & H1 & H2 & H3 & H4 & H5 & H6).
        exists st', res, sent, indices. repeat split; try assumption.
        now apply Hweaken. }
    unfold bindM at 1, liftR at 1.
    destruct (match WalletAddress.key w with
              | Some k => Transaction.sign k transaction
              | None => throw (JsError "Cannot sign without a key")
              end) as [e|signed]; [apply Hnone|].
    unfold bindM at 1, await, bindM at 1, WalletAddress.broadcastStakingOperationRequest.
    unfold bindM at 1, request at 1.
    set (c := BroadcastStakingOperation (WalletAddress.getWalletId w)
                (WalletAddress.getId w) (StakingOperation.getID op)
                (WalletAddress.slice2
                   (default EmptyString (Transaction.getSignedPayload signed)))
                i).
    assert (Hone : forall res : Result (option StakingOperation.t),
              exists st' res' (sent : list ApiCall) (indices : list nat),
                ({| heap := heap st; log := log st ++ [c]; now := now st |}, res)
                = (st', res')
                /\ heap st' = heap st /\ log st' = log st ++ sent
                /\ broadcast_index <$> sent = Some <$> indices
                /\ StronglySorted lt indices /\ Forall (le i) indices
                /\ Forall (broadcast_of w) sent).
    { intros res. eexists _, res, [c], [i]. split; [reflexivity|].
      repeat split; repeat constructor. }
    destruct (broadcastStakingOperation (backend r) _ _ _ _ _) as [e|response];
      [apply Hone|].
    unfold liftR at 1.
    destruct (StakingOperation.new (Some response)) as [e|op1]; [apply Hone|].
    unfold bindM at 1, elapse at 1, retM at 1.
    cbn [heap log now].
    match goal with
    | |- context [WalletAddress.sign_and_broadcast fuel r w (S i) op1 ?s] =>
        set (st1 := s)
    end.
    destruct (IH (S i) op1 st1)
      as (st' & res & sent & indices & H0 & H1 & H2 & H3 & H4 & H5 & H6).
    exists st', res, (c :: sent), (i :: indices). split; [exact H0|].
    rewrite H1, H2. subst st1. cbn [log heap]. rewrite <- app_assoc.
    repeat split.
    + cbn. now rewrite H3.
    + constructor; [exact H4|].
      eapply Forall_impl; [exact H5|]. intros x Hx. cbn in Hx. lia.
    + constructor; [lia|]. now apply Hweaken.
    + constructor; [now split|exact H6].
Qed.

End Wallet.





(** X20.  [createStakingOperation] returns an operation only in a terminal
    state: whatever the backend answers and however long it takes, an
    operation that the call returns is complete or failed. *)
Theorem created_operation_is_terminal
    (fuel : nat) (rounds : nat -> Round) (w : WalletAddress.t) (amount : Decimal.t)
    (assetId action : string) (mode : StakeOptionsMode) (options : loc)
    (timeoutSeconds intervalSeconds : Q) (st st' : State)
    (op : StakingOperation.t) :
  WalletAddress.createStakingOperation fuel rounds w amount assetId action mode
    options timeoutSeconds intervalSeconds st = (st', inr (Some op)) ->
  StakingOperation.isTerminalState op = true
  /\ terminal_status (StakingOperation.getStatus op) = true.
Proof.
  rewrite createStakingOperation_eq.
  destruct (_ && _); [discriminate|].
  destruct (WalletAddress.createStakingOperationRequest _ _ _ _ _ _ _ _)
    as [st1 [e|op0]]; [discriminate|].
  intros Hloop. apply create_loop_terminal in Hloop. split; exact Hloop.
Qed.

Lemma created_operation_is_terminal_witness :
  StakingOperation.isTerminalState completed_wallet_operation = true
  /\ terminal_status (StakingOperation.getStatus completed_wallet_operation) = true.
Proof.
  apply (created_operation_is_terminal 1 completing_rounds example_wallet_address
           (Decimal.mk 15 (-1)) "eth" "stake" DEFAULT 0%nat 600 1
           (state_with_options ∅)
           {| heap := {[ 0%nat := <["amount"%string := "1500000000000000000"%string]>
                                    (<["mode"%string := "default"%string]> ∅) ]};
              log := [asset_lookup example_address "eth";
                      create_call example_wallet_address "eth" "stake"
                        (<["amount"%string := "1500000000000000000"%string]>
                           (<["mode"%string := "default"%string]> ∅));
                      GetStakingOperation "wallet-1" "0xf00d" "op-1"];
              now := 20 |}
           completed_wallet_operation).
  vm_compute. reflexivity.
Defined.

(** X21.  One pass over the transactions broadcasts up the list.  The inner
    loop of [createStakingOperation] sends nothing but broadcast requests of
    its own wallet address, and the transaction indices they carry increase
    strictly, starting at the loop's first index: no position is broadcast
    twice in a pass, whatever operations the backend answers the broadcasts
    with. *)
Theorem broadcasts_go_up_the_list
    (fuel : nat) (r : Round) (w : WalletAddress.t) (i : nat)
    (op : StakingOperation.t) (st : State) :
  let run := WalletAddress.sign_and_broadcast fuel r w i op st in
  exists (sent : list ApiCall) (indices : list nat),
    log run.1 = log st ++ sent
    /\ broadcast_index <$> sent = Some <$> indices
    /\ StronglySorted lt indices
    /\ Forall (le i) indices
    /\ Forall (broadcast_of w) sent.
Proof.
  intros run. unfold run.
  destruct (sign_and_broadcast_sent r w fuel i op st)
    as (st' & res & sent & indices & -> & H1 & H2 & H3 & H4 & H5 & H6).
  exists sent, indices. now repeat split.
Qed.

Lemma broadcasts_go_up_the_list_witness :
  let st := state_with_options ∅ in
  let op := StakingOperation.loadTransactionsFromModel
              (StakingOperation.mk
                 (snapshot_of (Some "wallet-1"%string) "pending"
                    ["0xaa"; "0xbb"]%string) []) in
  let run :=
    WalletAddress.sign_and_broadcast 3 (two_transaction_rounds 0%nat)
      example_wallet_address 0%nat op st in
  (exists (sent : list ApiCall) (indices : list nat),
      log run.1 = log st ++ sent
      /\ broadcast_index <$> sent = Some <$> indices
      /\ StronglySorted lt indices
      /\ Forall (le 0%nat) indices
      /\ Forall (broadcast_of example_wallet_address) sent)
  /\ log run.1
     = [BroadcastStakingOperation "wallet-1" "0xf00d" "op-1" "aa-signed" 0;
        BroadcastStakingOperation "wallet-1" "0xf00d" "op-1" "bb-signed" 1].
Proof.
  split.
  - apply (broadcasts_go_up_the_list 3 (two_transaction_rounds 0%nat)
             example_wallet_address 0%nat
             (StakingOperation.loadTransactionsFromModel
                (StakingOperation.mk
                   (snapshot_of (Some "wallet-1"%string) "pending"
                      ["0xaa"; "0xbb"]%string) []))
             (state_with_options ∅)).
  - reflexivity.
Defined.

Section WalletGate.

Variable Balance_amount : BalanceModel -> string -> Decimal.t.
Variable render : Decimal.t -> string.

Implicit Types (w : WalletAddress.t) (st : State).

(** X22.  The wallet path validates before it creates.  [createStake], and
    likewise [createUnstake] for a request that is not exempt and
    [createClaimStake] unless the asset is "eth" in NATIVE mode, first asks
    for the staking context; when that request fails, or the balance it
    reports is below the amount, the call throws the error of the
    validation and that request is the only one it has sent: nothing is
    created on the backend.  [createClaimStake] for "eth" in NATIVE mode
    throws without sending anything, and [createUnstake] for an exempt
    request skips the validation altogether. *)
Theorem wallet_validates_before_it_creates
    (fuel : nat) (rounds : nat -> Round) w (amount : Decimal.t)
    (assetId : string) (mode : StakeOptionsMode) (options : loc) (o : Options)
    (timeoutSeconds intervalSeconds : Q) st :
  heap st !! options = Some o ->
  let b := backend (rounds 0%nat) in
  let ctx := context_request (WalletAddress.address w) assetId mode o in
  let refused (what : string) (balance : StakingContextModel -> BalanceModel)
      (run : State * Result (option StakingOperation.t)) : Prop :=
    (forall e,
        getStakingContext b ctx = inl e ->
        run.2 = inl e /\ log run.1 = log st ++ [GetStakingContext ctx])
    /\ (forall context,
          getStakingContext b ctx = inr context ->
          let available := Balance_amount (balance context) assetId in
          Decimal.lessThan available amount = true ->
          run.2 = inl (JsError (Address.insufficient render amount what available))
          /\ log run.1 = log st ++ [GetStakingContext ctx]) in
  refused "stake"%string stakeable_balance
    (WalletAddress.createStake Balance_amount render fuel rounds w amount assetId
       mode options timeoutSeconds intervalSeconds st)
  /\ (IsDedicatedEthUnstakeV2Operation assetId "unstake" mode o = false ->
      refused "unstake"%string unstakeable_balance
        (WalletAddress.createUnstake Balance_amount render fuel rounds w amount
           assetId mode options timeoutSeconds intervalSeconds st))
  /\ (IsDedicatedEthUnstakeV2Operation assetId "unstake" mode o = true ->
      WalletAddress.createUnstake Balance_amount render fuel rounds w amount
        assetId mode options timeoutSeconds intervalSeconds st
      = WalletAddress.createStakingOperation fuel rounds w amount assetId
          "unstake" mode options timeoutSeconds intervalSeconds st)
  /\ (~ (assetId = "eth"%string /\ mode = NATIVE) ->
      refused "claim stake"%string claimable_balance
        (WalletAddress.createClaimStake Balance_amount render fuel rounds w
           amount assetId mode options timeoutSeconds intervalSeconds st))
  /\ (assetId = "eth"%string -> mode = NATIVE ->
      WalletAddress.createClaimStake Balance_amount render fuel rounds w amount
        assetId mode options timeoutSeconds intervalSeconds st
      = (st, inl (JsError
                    "Claiming stake for ETH is not supported in native mode."))).
Proof.
  intros Ho b ctx refused.
  assert (Hd : default ∅ (heap st !! options) = o) by now rewrite Ho.
  split; [|split; [|split; [|split]]].
  - assert (Hrun : forall V e',
              Address.validateCanStake Balance_amount render b
                (WalletAddress.address w) amount assetId mode options st
              = (V, inl e') ->
              WalletAddress.createStake Balance_amount render fuel rounds w amount
                assetId mode options timeoutSeconds intervalSeconds st
              = (V, inl e')).
    { intros V e' Hv. unfold WalletAddress.createStake, await, bindM.
      fold b. now rewrite Hv. }
    pose proof (validateCanStake_eq Balance_amount render b
                  (WalletAddress.address w) amount assetId mode options st) as Heq.
    cbv zeta in Heq. rewrite Hd in Heq. fold ctx in Heq.
    split.
    + intros e He. rewrite He in Heq. rewrite (Hrun _ _ Heq). now split.
    + intros context Hc available Hlt. rewrite Hc in Heq. cbv zeta in Heq.
      fold available in Heq. rewrite Hlt in Heq. rewrite (Hrun _ _ Heq).
      now split.
  - intros Hexempt.
    assert (Hrun : forall V e',
              Address.validateCanUnstake Balance_amount render b
                (WalletAddress.address w) amount assetId mode options st
              = (V, inl e') ->
              WalletAddress.createUnstake Balance_amount render fuel rounds w
                amount assetId mode options timeoutSeconds intervalSeconds st
              = (V, inl e')).
    { intros V e' Hv. unfold WalletAddress.createUnstake, await, bindM, deref.
      rewrite Hd, Hexempt. cbn [negb]. fold b. now rewrite Hv. }
    pose proof (validateCanUnstake_eq Balance_amount render b
                  (WalletAddress.address w) amount assetId mode options st) as Heq.
    cbv zeta in Heq. rewrite Hd in Heq. fold ctx in Heq.
    split.
    + intros e He. rewrite He in Heq. rewrite (Hrun _ _ Heq). now split.
    + intros context Hc available Hlt. rewrite Hc in Heq. cbv zeta in Heq.
      fold available in Heq. rewrite Hlt in Heq. rewrite (Hrun _ _ Heq).
      now split.
  - intros Hexempt. unfold WalletAddress.createUnstake.
    unfold bindM at 1, deref. now rewrite Hd, Hexempt.
  - intros Hguard.
    assert (Hg : String.eqb assetId "eth" && bool_decide (mode = NATIVE) = false).
    { destruct (String.eqb assetId "eth" && bool_decide (mode = NATIVE)) eqn:Hg;
        [|reflexivity].
      apply andb_true_iff in Hg as [Hasset Hmode].
      apply String.eqb_eq in Hasset. apply bool_decide_eq_true in Hmode.
      now destruct Hguard. }
    assert (Hrun : forall V e',
              Address.validateCanClaimStake Balance_amount render b
                (WalletAddress.address w) amount assetId mode options st
              = (V, inl e') ->
              WalletAddress.createClaimStake Balance_amount render fuel rounds w
                amount assetId mode options timeoutSeconds intervalSeconds st
              = (V, inl e')).
    { intros V e' Hv. unfold WalletAddress.createClaimStake, await, bindM.
      fold b. now rewrite Hv. }
    pose proof (validateCanClaimStake_eq Balance_amount render b
                  (WalletAddress.address w) amount assetId mode options st) as Heq.
    cbv zeta in Heq. rewrite Hg, Hd in Heq. fold ctx in Heq.
    split.
    + intros e He. rewrite He in Heq. rewrite (Hrun _ _ Heq). now split.
    + intros context Hc available Hlt. rewrite Hc in Heq. cbv zeta in Heq.
      fold available in Heq. rewrite Hlt in Heq. rewrite (Hrun _ _ Heq).
      now split.
  - intros -> ->. reflexivity.
Qed.

End WalletGate.

Lemma wallet_validates_before_it_creates_witness :
  let run :=
    WalletAddress.createStake example_balance_amount Decimal.toFixed 1
      (fun _ => {| backend := gate_backend; latency := 10; oversleep := 1 |})
      example_wallet_address (Decimal.of_Z 6) "eth" DEFAULT 0%nat 600 1
      (state_with_options ∅) in
  run.2 = inl (JsError "Insufficient funds 6 requested to stake, only 5 available.")
  /\ log run.1
     = [GetStakingContext (context_request example_address "eth" DEFAULT ∅)].
Proof.
  destruct (wallet_validates_before_it_creates example_balance_amount
              Decimal.toFixed 1
              (fun _ => {| backend := gate_backend; latency := 10; oversleep := 1 |})
              example_wallet_address (Decimal.of_Z 6) "eth" DEFAULT 0%nat ∅ 600 1
              (state_with_options ∅))
    as ((_ & Hlow) & _).
  - reflexivity.
  - apply (Hlow {| stakeable_balance := example_balance "5";
                   unstakeable_balance := example_balance "3";
                   pending_claimable_balance := example_balance "0";
                   claimable_balance := example_balance "2" |}).
    + reflexivity.
    + reflexivity.
Defined.

(** ** Lookups of assets and balances *)

(** X7.  [Asset.fetch] sends one request and writes to no object.  It asks
    for the asset under its primary denomination, which is "eth" for "gwei"
    and "wei" and the requested id for every other id, so that the backend
    is never asked for gwei or wei; the comparison is by exact spelling, an
    id in another letter case is looked up as it stands.  The network is
    written with hyphens.  A failure of the request is what [fetch] throws; an
    answer without data makes it throw "Invalid asset model"; an answer with
    a record is handed to [Asset.fromModel] together with the id as it was
    requested. *)
Theorem asset_fetch_asks_for_primary_denomination
    (b : Backend) (network assetId : string) (st : State) :
  let asked := Asset.primaryDenomination assetId in
  let answer := getAsset b (Coinbase.normalizeNetwork network) asked in
  let run := Asset_fetch b network assetId st in
  run.1 = {| heap := heap st;
             log := log st ++ [GetAsset (Coinbase.normalizeNetwork network) asked];
             now := now st |}
  /\ asked <> "gwei"%string /\ asked <> "wei"%string
  /\ Asset.primaryDenomination asked = asked
  /\ (assetId = "gwei"%string \/ assetId = "wei"%string -> asked = "eth"%string)
  /\ (assetId <> "gwei"%string -> assetId <> "wei"%string -> asked = assetId)
  /\ occurs "_" (Coinbase.normalizeNetwork network) = false
  /\ (forall e, answer = inl e -> run.2 = inl e)
  /\ (answer = inr None -> run.2 = inl (JsError "Invalid asset model"))
  /\ (forall model,
        answer = inr (Some model) ->
        run.2 = Asset.fromModel (Some model) (Some assetId)).
Proof.
  intros asked answer run. unfold run. rewrite Asset_fetch_run. fold asked answer.
  assert (Hcases : (assetId = "gwei"%string \/ assetId = "wei"%string)
                   /\ asked = "eth"%string
                   \/ assetId <> "gwei"%string /\ assetId <> "wei"%string
                      /\ asked = assetId).
  { unfold asked, Asset.primaryDenomination, Coinbase.Gwei, Coinbase.Wei,
      Coinbase.Eth.
    destruct (decide (assetId ∈ ["gwei"; "wei"]%string)) as [Hin|Hout].
    - rewrite bool_decide_eq_true_2 by assumption. left. split; [|reflexivity].
      apply elem_of_cons in Hin as [->|Hin]; [now left|].
      apply list_elem_of_singleton in Hin. now right.
    - rewrite bool_decide_eq_false_2 by assumption. right.
      repeat split; [intros ->; apply Hout; left|intros ->; apply Hout; right; left]. }
  split; [reflexivity|].
  split; [destruct Hcases as [[_ ->]|(Hg & _ & ->)]; [discriminate|exact Hg]|].
  split; [destruct Hcases as [[_ ->]|(_ & Hw & ->)]; [discriminate|exact Hw]|].
  split.
  { destruct Hcases as [[_ ->]|(Hg & Hw & ->)]; [reflexivity|].
    unfold Asset.primaryDenomination. rewrite bool_decide_eq_false_2; [reflexivity|].
    intros [->|Hin]%elem_of_cons; [now apply Hg|].
    apply list_elem_of_singleton in Hin. now apply Hw. }
  split; [intros H; destruct Hcases as [[_ Ha]|(Hg & Hw & _)];
          [exact Ha|destruct H; contradiction]|].
  split; [intros Hg Hw; destruct Hcases as [[[H|H] _]|(_ & _ & Ha)];
          [contradiction|contradiction|exact Ha]|].
  split; [now apply occurs_replace_char|].
  cbn [snd]. split; [now intros e ->|]. split; [now intros ->|].
  now intros model ->.
Qed.

Section Balances.

Variable Balance_amount : BalanceModel -> string -> Decimal.t.
Variable render : Decimal.t -> string.

(** X23.  The four balance getters of an address read one staking context.
    [stakeableBalance], [unstakeableBalance], [claimableBalance] and
    [pendingClaimableBalance] send the same single request and leave the
    same state: the options sent are a copy of the caller's options in which
    the mode argument replaces any mode entry of the caller, the caller's
    object is untouched, and the asset is asked for under its primary
    denomination while the balance is read for the id as requested.  Each
    getter returns its own field of the context, and all four throw what
    the request throws. *)
Theorem balance_getters_read_one_context
    (b : Backend) (a : Address.t) (assetId : string) (mode : StakeOptionsMode)
    (options : loc) (o : Options) (st : State) :
  heap st !! options = Some o ->
  let req := context_request a assetId mode o in
  let sent := with_copy st (<["mode"%string := mode_string mode]> o)
                [GetStakingContext req] in
  let answer (field : StakingContextModel -> BalanceModel) : Result Decimal.t :=
    match getStakingContext b req with
    | inl e => inl e
    | inr context => inr (Balance_amount (field context) assetId)
    end in
  Address.stakeableBalance Balance_amount b a assetId mode options st
  = (sent, answer stakeable_balance)
  /\ Address.unstakeableBalance Balance_amount b a assetId mode options st
     = (sent, answer unstakeable_balance)
  /\ Address.claimableBalance Balance_amount b a assetId mode options st
     = (sent, answer claimable_balance)
  /\ Address.pendingClaimableBalance Balance_amount b a assetId mode options st
     = (sent, answer pending_claimable_balance)
  /\ ctx_options req !! "mode"%string = Some (mode_string mode)
  /\ (forall k : string, k <> "mode"%string -> ctx_options req !! k = o !! k)
  /\ ctx_asset_id req = Asset.primaryDenomination assetId
  /\ heap sent !! options = Some o
  /\ preserved st sent.
Proof.
  intros Ho req sent answer.
  assert (Hd : default ∅ (heap st !! options) = o) by now rewrite Ho.
  pose proof (getStakingBalances_eq Balance_amount b a assetId mode options st)
    as Hbal.
  cbv zeta in Hbal. rewrite Hd in Hbal. fold req sent in Hbal.
  unfold Address.stakeableBalance, Address.unstakeableBalance,
    Address.claimableBalance, Address.pendingClaimableBalance, bindM, retM.
  rewrite Hbal. unfold answer.
  repeat split; try (destruct (getStakingContext b req); reflexivity).
  - apply lookup_insert_eq.
  - intros k Hk. cbn [ctx_options req context_request].
    now apply lookup_insert_ne.
  - now apply with_copy_lookup.
  - apply preserved_with_copy.
Qed.

End Balances.

Lemma balance_getters_read_one_context_witness :
  let o : Options := <["mode"%string := "partial"%string]> ∅ in
  let st := state_with_options o in
  let req := context_request example_address "gwei" NATIVE o in
  Address.pendingClaimableBalance example_balance_amount gate_backend
    example_address "gwei" NATIVE 0%nat st
  = (with_copy st (<["mode"%string := "native"%string]> o) [GetStakingContext req],
     inr (Decimal.of_Z 0))
  /\ ctx_options req !! "mode"%string = Some "native"%string
  /\ ctx_asset_id req = "eth"%string.
Proof.
  destruct (balance_getters_read_one_context example_balance_amount gate_backend
              example_address "gwei" NATIVE 0%nat
              (<["mode"%string := "partial"%string]> ∅)
              (state_with_options (<["mode"%string := "partial"%string]> ∅)))
    as (_ & _ & _ & Hpending & Hmode & _ & Hasset & _).
  - reflexivity.
  - split; [exact Hpending|]. split; [exact Hmode|exact Hasset].
Defined.
